(** * compression-test: the delta header codec and its benchmark harness

    A shallow embedding of

      - [compressor/__init__.py]        (header model, HTTP/1 line format,
                                         hop-by-hop stripping),
      - [compressor/simple/__init__.py] (the delta / reference codec),
      - [compare_compressors.py]        (connections, host routing, the
                                         round-trip check, the statistics),

    followed by the properties established about them.

    Conventions.  A Python 2 [str] is a [string] (a sequence of 8-bit
    characters).  A header dictionary is a [gmap string string]; its
    enumeration order is a parameter ([dict_order], any permutation of the
    entries).  Code that may raise returns a [result].  Dictionaries
    that are shared between the harness and a codec live in a store and are
    passed by location.  Functions of the Python standard library that the
    sources call ([email.utils], [calendar], [re], [fnmatch]) are
    parameters of the development. *)

From Stdlib Require Import Ascii HexString Floats Uint63.
From Stdlib Require String.
From stdpp Require Import gmap strings list fin_maps sorting.

Local Open Scope Z_scope.

(** ** Exceptions *)

Inductive exn : Type :=
  | KeyError (k : string)
  | IndexError
  | ValueError
  | ZeroDivisionError
  | OverflowError
  | TypeError
  | ReError              (** [re.error] *)
  | NotImplementedError.

Inductive result (A : Type) : Type :=
  | Ok (a : A)
  | Raise (e : exn).
Arguments Ok {A} a.
Arguments Raise {A} e.

Global Instance result_ret : MRet result := fun A a => Ok a.
Global Instance result_bind : MBind result := fun A B k m =>
  match m with
  | Ok a => k a
  | Raise e => Raise e
  end.

Global Instance exn_eq_dec : EqDecision exn.
Proof. solve_decision. Defined.
Global Instance result_eq_dec {A} `{EqDecision A} : EqDecision (result A).
Proof. solve_decision. Defined.

Definition is_ok {A} (m : result A) : bool :=
  match m with Ok _ => true | Raise _ => false end.

Definition of_option {A} (e : exn) (o : option A) : result A :=
  match o with Some a => Ok a | None => Raise e end.

(** ** Python string primitives *)

Module PyStr.

Definition NUL : ascii := "000"%char.
Definition LF : ascii := "010"%char.

(** [string.whitespace] in the C locale. *)
Definition is_space (c : ascii) : bool := Ascii.is_space c.

Definition ascii_eqb (a b : ascii) : bool := bool_decide (a = b).

Definition str_eqb (a b : string) : bool := bool_decide (a = b).

(** [s[0]] *)
Definition head (s : string) : result ascii :=
  match s with
  | String c _ => Ok c
  | EmptyString => Raise IndexError
  end.

(** [s[1:]] *)
Definition tail (s : string) : string :=
  match s with
  | String _ t => t
  | EmptyString => EmptyString
  end.

Fixpoint lstrip (s : string) : string :=
  match s with
  | String c t => if is_space c then lstrip t else s
  | EmptyString => EmptyString
  end.

Fixpoint rstrip (s : string) : string :=
  match s with
  | EmptyString => EmptyString
  | String c t =>
      match rstrip t with
      | EmptyString => if is_space c then EmptyString else String c EmptyString
      | r => String c r
      end
  end.

(** [s.strip()] *)
Definition strip (s : string) : string := rstrip (lstrip s).

(** [s.lstrip(' ')] *)
Fixpoint lstrip_char (x : ascii) (s : string) : string :=
  match s with
  | String c t => if ascii_eqb c x then lstrip_char x t else s
  | EmptyString => EmptyString
  end.

(** [s.split(sep)] for a one-character separator. *)
Fixpoint split (sep : ascii) (s : string) : list string :=
  match s with
  | EmptyString => [EmptyString]
  | String c t =>
      if ascii_eqb c sep then EmptyString :: split sep t
      else match split sep t with
           | w :: ws => String c w :: ws
           | [] => [String c EmptyString]
           end
  end.

(** [s.split(sep, 1)]: [None] when [sep] does not occur (one piece),
    otherwise the text before and after its first occurrence. *)
Fixpoint split1 (sep : ascii) (s : string) : option (string * string) :=
  match s with
  | EmptyString => None
  | String c t =>
      if ascii_eqb c sep then Some (EmptyString, t)
      else match split1 sep t with
           | Some (a, b) => Some (String c a, b)
           | None => None
           end
  end.

(** The longest prefix free of white space, and what follows it. *)
Fixpoint span_word (s : string) : string * string :=
  match s with
  | EmptyString => (EmptyString, EmptyString)
  | String c t =>
      if is_space c then (EmptyString, s)
      else let '(w, r) := span_word t in (String c w, r)
  end.

(** [s.split(None, 2)] *)
Definition split_ws2 (s : string) : list string :=
  match lstrip s with
  | EmptyString => []
  | s1 =>
      let '(w1, r1) := span_word s1 in
      match lstrip r1 with
      | EmptyString => [w1]
      | s2 =>
          let '(w2, r2) := span_word s2 in
          match lstrip r2 with
          | EmptyString => [w1; w2]
          | s3 => [w1; w2; s3]
          end
      end
  end.

(** [s.split(None)] (also [s.split()]) *)
Fixpoint split_ws (s : string) : list string :=
  match s with
  | EmptyString => []
  | String c t =>
      if is_space c then split_ws t
      else match t with
           | String c' _ =>
               if is_space c' then String c EmptyString :: split_ws t
               else match split_ws t with
                    | w :: ws => String c w :: ws
                    | [] => [String c EmptyString]
                    end
           | EmptyString => [String c EmptyString]
           end
  end.

(** [sep.join(l)] *)
Fixpoint join (sep : string) (l : list string) : string :=
  match l with
  | [] => EmptyString
  | [x] => x
  | x :: xs => x +:+ sep +:+ join sep xs
  end.

(** [''.join(l)] *)
Definition concat (l : list string) : string := foldr String.app EmptyString l.

Definition lower_char (c : ascii) : ascii :=
  let n := N_of_ascii c in
  if ((65 <=? n) && (n <=? 90))%N then ascii_of_N (n + 32) else c.

(** [s.lower()] on the ASCII letters. *)
Fixpoint lower (s : string) : string :=
  match s with
  | EmptyString => EmptyString
  | String c t => String (lower_char c) (lower t)
  end.

(** [s.startswith(p)] *)
Fixpoint startswith (p s : string) : bool :=
  match p, s with
  | EmptyString, _ => true
  | String a p', String b s' => ascii_eqb a b && startswith p' s'
  | String _ _, EmptyString => false
  end.

(** [s.endswith(p)]: [s] is [p], or what follows its first character ends
    with [p]. *)
Fixpoint endswith (p s : string) : bool :=
  bool_decide (s = p) ||
  match s with
  | String _ t => endswith p t
  | EmptyString => false
  end.

(** [sub in s] for strings *)
Fixpoint contains (sub s : string) : bool :=
  startswith sub s ||
  match s with
  | String _ t => contains sub t
  | EmptyString => false
  end.

(** ["%x" % n] *)
Definition hex (n : Z) : string :=
  match n with
  | Z0 => "0"
  | Zpos p => HexString.Raw.of_pos p ""
  | Zneg p => String "-" (HexString.Raw.of_pos p "")
  end.

Fixpoint hex_digits (s : string) (acc : Z) : option Z :=
  match s with
  | EmptyString => Some acc
  | String c t =>
      match HexString.ascii_to_digit c with
      | Some d => hex_digits t (16 * acc + Z.of_N d)
      | None => None
      end
  end.

Definition strip_0x (s : string) : string :=
  match s with
  | String "0" (String x ((String d _) as t)) =>
      if (ascii_eqb x "x" || ascii_eqb x "X")
         && bool_decide (is_Some (HexString.ascii_to_digit d))
      then t else s
  | _ => s
  end.

Definition hex_magnitude (s : string) : option Z :=
  match strip_0x (lstrip s) with
  | EmptyString => None
  | ds => hex_digits ds 0
  end.

(** [int(s, 16)]: optional surrounding white space, an optional sign, an
    optional [0x] prefix, at least one hexadecimal digit; [None] stands
    for [ValueError]. *)
Definition int16 (s : string) : option Z :=
  match rstrip (lstrip s) with
  | String "-" t => Z.opp <$> hex_magnitude t
  | String "+" t => hex_magnitude t
  | t => hex_magnitude t
  end.

(** [sorted(l)] for a list of strings (byte-wise lexicographic order). *)
Definition sorted (l : list string) : list string :=
  merge_sort (fun a b => bool_decide (a ≤ b)%string) l.

End PyStr.

Example strip_ex : PyStr.strip "  a b
" = "a b".
Proof. reflexivity. Qed.

Example split_ex : PyStr.split ";" "a;;b" = ["a"; ""; "b"].
Proof. reflexivity. Qed.

Example split_ws2_ex : PyStr.split_ws2 "HTTP/1.1 404  Not Found " = ["HTTP/1.1"; "404"; "Not Found "].
Proof. reflexivity. Qed.

Example split_ws_ex : PyStr.split_ws " keep-alive,  x-foo " = ["keep-alive,"; "x-foo"].
Proof. reflexivity. Qed.

Example hex_ex : PyStr.hex 784111777 = "2ebc98a1" ∧ PyStr.int16 " 0x2EBC98a1 " = Some 784111777.
Proof. split; reflexivity. Qed.

Example sorted_ex : PyStr.sorted ["b=2"; "a=1"; "B"] = ["B"; "a=1"; "b=2"].
Proof. compute_done. Qed.

Fixpoint foldlM {A B} (f : B → A → result B) (b : B) (l : list A) : result B :=
  match l with
  | [] => Ok b
  | x :: xs => b' ← f b x; foldlM f b' xs
  end.


(** ** The date grammars ([compressor/simple/__init__.py], [DATE]) *)

Module Rx.

(** The regular expressions of [DATE] are sequences of literals and of
    bounded repetitions of a character class. *)
Inductive item : Type :=
  | Lit (s : string)
  | Rep (cls : ascii → bool) (lo hi : nat).

Definition digit (c : ascii) : bool :=
  let n := N_of_ascii c in ((48 <=? n) && (n <=? 57))%N.

(** [\w] without the LOCALE and UNICODE flags: [[a-zA-Z0-9_]]. *)
Definition word (c : ascii) : bool :=
  let n := N_of_ascii c in
  (digit c || ((65 <=? n) && (n <=? 90)) || ((97 <=? n) && (n <=? 122)) || (n =? 95))%N.

Definition digit_or_space (c : ascii) : bool :=
  digit c || PyStr.ascii_eqb c " ".

Fixpoint strip_prefix (p s : string) : option string :=
  match p, s with
  | EmptyString, _ => Some s
  | String a p', String b s' => if PyStr.ascii_eqb a b then strip_prefix p' s' else None
  | String _ _, EmptyString => None
  end.

(** What can remain of [s] after [cls{lo,hi}], longest match first. *)
Fixpoint rests (cls : ascii → bool) (lo hi : nat) (s : string) : list string :=
  let stop := match lo with O => [s] | S _ => [] end in
  match hi with
  | O => stop
  | S hi' =>
      match s with
      | String c t => if cls c then rests cls (pred lo) hi' t ++ stop else stop
      | EmptyString => stop
      end
  end.

(** What can remain of [s] after the sequence [items]. *)
Fixpoint match_seq (items : list item) (s : string) : list string :=
  match items with
  | [] => [s]
  | Lit p :: items' =>
      match strip_prefix p s with
      | Some t => match_seq items' t
      | None => []
      end
  | Rep cls lo hi :: items' => rests cls lo hi s ≫= match_seq items'
  end.

Definition time_of_day : list item :=
  [Rep digit 2 2; Lit ":"; Rep digit 2 2; Lit ":"; Rep digit 2 2].

(** [\w{3},\ [0-9]{2}\ \w{3}\ [0-9]{4}\ [0-9]{2}:[0-9]{2}:[0-9]{2}\ GMT] *)
Definition rfc1123 : list item :=
  [Rep word 3 3; Lit ", "; Rep digit 2 2; Lit " "; Rep word 3 3; Lit " ";
   Rep digit 4 4; Lit " "] ++ time_of_day ++ [Lit " GMT"].

(** [\w{6,9},\ [0-9]{2}\-\w{3}\-[0-9]{2}\ [0-9]{2}:[0-9]{2}:[0-9]{2}\ GMT] *)
Definition rfc850 : list item :=
  [Rep word 6 9; Lit ", "; Rep digit 2 2; Lit "-"; Rep word 3 3; Lit "-";
   Rep digit 2 2; Lit " "] ++ time_of_day ++ [Lit " GMT"].

(** [\w{3}\ \w{3}\ [0-9 ][0-9]\ [0-9]{2}:[0-9]{2}:[0-9]{2}\ [0-9]{4}] *)
Definition asctime : list item :=
  [Rep word 3 3; Lit " "; Rep word 3 3; Lit " "; Rep digit_or_space 1 1;
   Rep digit 1 1; Lit " "] ++ time_of_day ++ [Lit " "; Rep digit 4 4].

(** [$]: the end of the string, or just before a newline that ends it. *)
Definition at_end (s : string) : bool :=
  bool_decide (s = "") || bool_decide (s = String PyStr.LF "").

(** [re.match(r"%s$" % DATE, value, re.VERBOSE)] *)
Definition DATE_match (value : string) : bool :=
  existsb at_end ([rfc1123; rfc850; asctime] ≫= fun alt => match_seq alt value).

End Rx.

Example DATE_ex :
  Rx.DATE_match "Sun, 06 Nov 1994 08:49:37 GMT" = true ∧
  Rx.DATE_match "Sunday, 06-Nov-94 08:49:37 GMT" = true ∧
  Rx.DATE_match "Sun Nov  6 08:49:37 1994" = true ∧
  Rx.DATE_match "0" = false ∧
  Rx.DATE_match "Sun, 6 Nov 1994 08:49:37 GMT" = false.
Proof. compute_done. Qed.

(** A header dictionary: lower-case names to values; several occurrences of
    a field are packed into one value, separated by NUL; names that start
    with [:] are message metadata. *)
Abbreviation headers := (gmap string string).

(** A message dictionary handed to [compress] is shared with the caller:
    it lives in a store and is passed by location. *)
Abbreviation store := (gmap nat headers).

(** ** The Python standard library, as far as the codec calls it *)

(** A time tuple: the year, and the fields that follow it. *)
Definition date_tuple : Type := Z * list Z.

(** A compiled pattern object, by the way it was made. *)
Inductive pattern : Type :=
  | FnPattern (pat : string)   (** [re.compile(fnmatch.translate(pat))] *)
  | RePattern (src : string).  (** [re.compile(src)] *)

Global Instance pattern_eq_dec : EqDecision pattern.
Proof. solve_decision. Defined.

Class PyLib := {
  (** [email.utils.parsedate]; [None] is Python's [None]. *)
  lib_parsedate : string → option date_tuple;
  (** [calendar.timegm]; [None] stands for [ValueError]. *)
  timegm : date_tuple → option Z;
  (** [email.utils.formatdate(timeval, localtime=False, usegmt=True)];
      [None] stands for [ValueError]. *)
  lib_formatdate : Z → option string;
  (** [re.compile] on the source of a pattern: whether it returns a
      pattern object (true) or raises [re.error] (false). *)
  compiles : pattern → bool;
  (** [x.match(host)] for a compiled pattern [x]: whether the result is a
      match object (true) or [None] (false). *)
  pattern_match : pattern → string → bool;
  (** The order in which a dictionary with string keys is enumerated
      ([items], [keys], [values], [iteritems]), given its items in the order
      of insertion.  Python 2 leaves it to the implementation. *)
  dict_order : ∀ A : Type, list (string * A) → list (string * A);
  dict_order_perm : ∀ A (l : list (string * A)), dict_order A l ≡ₚ l;
}.
Arguments dict_order {_ _} _.

(** [d.items()] *)
Definition items `{PyLib} {A} (d : gmap string A) : list (string * A) :=
  dict_order (map_to_list d).

Section Codec.

Context `{PyLib}.

(** *** The header model ([compressor/__init__.py]) *)


(** [d[k]] *)
Definition getitem (d : headers) (k : string) : result string :=
  of_option (KeyError k) (d !! k).

(** Truth value of a dictionary that may be [None]. *)
Definition truthy (d : option headers) : bool :=
  match d with
  | Some m => bool_decide (m ≠ ∅)
  | None => false
  end.

Definition hop_by_hop : list string :=
  ["transfer-encoding"; "te"; "keep-alive"; "trailers"].

(** [strip_conn_headers]: the dictionary is changed in place; the value
    returned is its new content. *)
Definition strip_conn_headers (hdrs : headers) : headers :=
  let '(hop, hdrs1) :=
    match hdrs !! "connection" with
    | Some v => (hop_by_hop ++ (PyStr.strip <$> PyStr.split_ws v), delete "connection" hdrs)
    | None => (hop_by_hop, hdrs)
    end in
  foldl (fun h hdr => delete hdr h) hdrs1 hop.

Definition format_line (avoid_list : list string) (delimiter valsep host : string)
    (kv : string * string) : list string :=
  let '(key, val) := kv in
  if bool_decide (key ∈ avoid_list) then []
  else
    let key := if bool_decide (key = ":host") then host else key in
    mjoin ((fun individual_val => [key; valsep; individual_val; delimiter])
             <$> PyStr.split PyStr.NUL val).

(** [format_http1(frame, delimiter, valsep, host)] *)
Definition format_http1 (frame : headers) (delimiter valsep host : string) : result string :=
  '(top_line, avoid_list) ←
    (if bool_decide (is_Some (frame !! ":method")) then
       m ← getitem frame ":method";
       p ← getitem frame ":path";
       v ← getitem frame ":version";
       Ok (m +:+ " " +:+ p +:+ " " +:+ v +:+ delimiter,
           [":method"; ":path"; ":version"; ":scheme"])
     else
       v ← getitem frame ":version";
       s ← getitem frame ":status";
       t ← getitem frame ":status-text";
       Ok (v +:+ " " +:+ s +:+ " " +:+ t +:+ delimiter,
           [":version"; ":status"; ":status-text"]));
  Ok (PyStr.concat
        ([top_line]
         ++ mjoin (format_line avoid_list delimiter valsep host <$> items frame)
         ++ [delimiter])).

(** The loop of [parse_http1] over the header lines. *)
Fixpoint parse_lines (lines : list string) (out : headers) : result headers :=
  match lines with
  | [] => Ok out
  | line :: rest =>
      if bool_decide (line = "") then Ok out
      else
        match PyStr.split1 ":" line with
        | None => Raise ValueError
        | Some (name, value) =>
            let name := PyStr.lower name in
            parse_lines rest
              (match out !! name with
               | Some old => <[name := old +:+ String PyStr.NUL "" +:+ PyStr.strip value]> out
               | None => <[name := PyStr.strip value]> out
               end)
        end
  end.

(** [top_line[i]] *)
Definition top_field (top_line : list string) (i : nat) : result string :=
  of_option IndexError (top_line !! i).

(** [parse_http1(message)] *)
Definition parse_http1 (message : string) : result headers :=
  match PyStr.split PyStr.LF (PyStr.strip message) with
  | [] => Raise IndexError
  | first :: lines =>
      let top_line := PyStr.split_ws2 first in
      out ← parse_lines lines ∅;
      match out !! "host" with
      | Some h =>
          let out := <[":scheme" := "http"]> out in
          f0 ← top_field top_line 0;
          let out := <[":method" := f0]> out in
          f1 ← top_field top_line 1;
          let out := <[":path" := f1]> out in
          f2 ← top_field top_line 2;
          let out := <[":version" := PyStr.strip f2]> out in
          Ok (delete "host" (<[":host" := h]> out))
      | None =>
          f0 ← top_field top_line 0;
          let out := <[":version" := f0]> out in
          f1 ← top_field top_line 1;
          let out := <[":status" := f1]> out in
          f2 ← top_field top_line 2;
          Ok (<[":status-text" := PyStr.strip f2]> out)
      end
  end.



(** [parse_date(value)]: "Parse a HTTP date. Raises ValueError if it's
    bad." *)
Definition parse_date (value : string) : result Z :=
  if negb (Rx.DATE_match value) then Raise ValueError
  else
    match lib_parsedate value with
    | None => Raise ValueError
    | Some (year, rest) =>
        let date_tuple :=
          if year <? 100 then
            if 68 <? year then (year + 1900, rest) else (year + 2000, rest)
          else (year, rest) in
        of_option ValueError (timegm date_tuple)
    end.

(** [format_date(value)] *)
Definition format_date (value : Z) : result string :=
  of_option ValueError (lib_formatdate value).

(** *** The delta codec ([Processor]) *)

Definition lookups_table : list (string * string) :=
  [("x-content-type-options", "xct");
     ("content-encoding", "ce");
     ("access-control-allow-origin", "ac");
     ("content-type", "ct");
     ("accept-language", "al");
     ("accept-encoding", "ae");
     ("accept-ranges", "ar");
     ("user-agent", "ua");
     ("server", "s");
     ("referer", "r");
     ("accept", "a");
     ("cookie", "c");
     ("last-modified", "lm");
     ("cache-control", "cc");
     ("pragma", "p");
     ("vary", "v");
     ("date", "d");
     ("expires", "x");
     ("content-length", "cl");
     ("etag", "e");
     ("content-language", "la");
     ("via", "vi");
     ("set-cookie", "sc");
     ("p3p", "p3")].

Definition lookups : headers := list_to_map lookups_table.

Definition date_hdrs : list string := ["last-modified"; "date"; "expires"].

(** [{v:k for k, v in self.lookups.items()}] *)
Definition rev_lookups : headers :=
  list_to_map ((fun kv => (kv.2, kv.1)) <$> items lookups).

(** [hdr_name(name)] *)
Definition hdr_name (name : string) : result string :=
  c ← PyStr.head name;
  if PyStr.ascii_eqb c ":" then Ok name
  else Ok (default (String "!" name) (lookups !! name)).


(** The state of a [Processor]: [last_c] refers to the dictionary last
    handed to [compress] (the very object, not a copy), [last_d] holds a
    copy of the dictionary last returned by [decompress]. *)
Record DeltaProcessor := {
  last_c : option nat;
  last_d : option headers;
}.

Global Instance DeltaProcessor_eq_dec : EqDecision DeltaProcessor.
Proof. solve_decision. Defined.

(** [Processor.__init__] *)
Definition Processor_init : DeltaProcessor := {| last_c := None; last_d := None |}.

(** One iteration of the loop of [compress] over the stripped input;
    [last] is the dictionary [self.last_c] refers to. *)
Definition compress_step (last : option headers)
    (acc : headers * list string) (item : string * string)
    : result (headers * list string) :=
  let '(hdrs, refs) := acc in
  let '(name, value) := item in
  if bool_decide (name ∈ date_hdrs) then
    k ← hdr_name name;
    match parse_date value with
    | Ok t => Ok (<[k := PyStr.hex t]> hdrs, refs)
    | Raise _ => Ok (<[k := value]> hdrs, refs)
    end
  else
    is_ref ←
      (if truthy last then
         c ← PyStr.head name;
         Ok (negb (PyStr.ascii_eqb c ":")
             && bool_decide ((last ≫= (.!! name)) = Some value))
       else Ok false);
    if is_ref : bool then Ok (hdrs, refs ++ [name])
    else k ← hdr_name name; Ok (<[k := value]> hdrs, refs).

(** The dictionary that [compress] hands to [format_http1]. *)
Definition encode_headers (last : option headers) (stripped : headers) : result headers :=
  '(hdrs, refs) ← foldlM (compress_step last) (∅, []) (items stripped);
  match refs with
  | [] => Ok hdrs
  | _ => names ← mapM hdr_name refs; Ok (<["ref" := PyStr.join "," names]> hdrs)
  end.

(** [Processor.compress(in_headers, host)]; [l] is the location of
    [in_headers].  Returns the compressed text, the new state of the
    processor and the new store. *)
Definition compress (σ : store) (self : DeltaProcessor) (l : nat) (host : string)
    : result (string * DeltaProcessor * store) :=
  in_headers ← of_option (KeyError "") (σ !! l);
  let σ := <[l := strip_conn_headers in_headers]> σ in
  hdrs ← encode_headers (last_c self ≫= (σ !!.)) (strip_conn_headers in_headers);
  let self := {| last_c := Some l; last_d := last_d self |} in
  out ← format_http1 hdrs (String PyStr.LF "") ":" "host";
  Ok (out, self, σ).

Definition decode_date (v : string) : string :=
  match PyStr.int16 v with
  | Some n => match format_date n with Ok s => s | Raise _ => v end
  | None => v
  end.

(** One iteration of the first loop of [decompress]. *)
Definition decompress_step (hdrs : headers) (out_headers : headers) (name : string)
    : result headers :=
  if bool_decide (name = "ref") then Ok out_headers
  else
    c ← PyStr.head name;
    v ← getitem hdrs name;
    if PyStr.ascii_eqb c ":" then Ok (<[name := v]> out_headers)
    else if PyStr.ascii_eqb c "!" then Ok (<[PyStr.tail name := v]> out_headers)
    else
      expanded_name ← getitem rev_lookups name;
      if bool_decide (expanded_name ∈ date_hdrs)
      then Ok (<[expanded_name := decode_date v]> out_headers)
      else Ok (<[expanded_name := v]> out_headers).

(** The header name that a token of the [ref] line stands for. *)
Definition ref_name (ref : string) : result string :=
  c ← PyStr.head ref;
  if PyStr.ascii_eqb c "!" then Ok (PyStr.tail ref) else getitem rev_lookups ref.

(** One iteration of the loop of [decompress] over the references. *)
Definition ref_step (last : headers) (out_headers : headers) (ref : string)
    : result headers :=
  name ← ref_name ref;
  v ← getitem last name;
  Ok (<[name := v]> out_headers).

(** The first loop of [decompress]. *)
Definition decode_headers (hdrs : headers) : result headers :=
  foldlM (decompress_step hdrs) ∅ (items hdrs).*1.

(** [Processor.decompress(compressed)] *)
Definition decompress (self : DeltaProcessor) (compressed : string)
    : result (headers * DeltaProcessor) :=
  hdrs ← parse_http1 compressed;
  out_headers ← decode_headers hdrs;
  out_headers ←
    (if bool_decide (is_Some (hdrs !! "ref")) && truthy (last_d self) then
       refs ← getitem hdrs "ref";
       foldlM (ref_step (default ∅ (last_d self))) out_headers (PyStr.split "," refs)
     else Ok out_headers);
  Ok (out_headers, {| last_c := last_c self; last_d := Some out_headers |}).

End Codec.

(** ** A reference instance of the library

    The behaviour of CPython 2.7's [email.utils.parsedate] on the strings
    that [DATE] admits, of [calendar.timegm] and of [email.utils.formatdate].
    It serves to evaluate the codec on concrete messages; the general
    statements below hold for every instance. *)

Module Py27.

Definition _daynames : list string :=
  ["mon"; "tue"; "wed"; "thu"; "fri"; "sat"; "sun"].

Definition _monthnames : list string :=
  ["jan"; "feb"; "mar"; "apr"; "may"; "jun"; "jul"; "aug"; "sep"; "oct";
   "nov"; "dec"; "january"; "february"; "march"; "april"; "may"; "june";
   "july"; "august"; "september"; "october"; "november"; "december"].

Fixpoint index_of (x : string) (l : list string) : option nat :=
  match l with
  | [] => None
  | y :: l' => if bool_decide (x = y) then Some O else S <$> index_of x l'
  end.

Fixpoint dec_digits (s : string) (acc : Z) : option Z :=
  match s with
  | EmptyString => Some acc
  | String c t =>
      if Rx.digit c then dec_digits t (10 * acc + Z.of_N (N_of_ascii c) - 48) else None
  end.

(** [int(s)] on an unsigned decimal numeral. *)
Definition int10 (s : string) : option Z :=
  match PyStr.strip s with
  | EmptyString => None
  | ds => dec_digits ds 0
  end.

Definition month_number (mm : string) : option Z :=
  i ← index_of (PyStr.lower mm) _monthnames;
  let m := Z.of_nat i + 1 in
  Some (if 12 <? m then m - 12 else m).

Definition two_digit_year (yy : Z) : Z :=
  if yy <? 100 then (if 68 <? yy then yy + 1900 else yy + 2000) else yy.

Definition parsedate (s : string) : option date_tuple :=
  let data := PyStr.split_ws s in
  d0 ← head data;
  let data :=
    if PyStr.endswith "," d0 || bool_decide (PyStr.lower d0 ∈ _daynames)
    then tail data else data in
  let data :=
    match data with
    | [a; b; c] =>
        match PyStr.split "-" a with
        | [x; y; z] => [x; y; z; b; c]
        | _ => data
        end
    | _ => data
    end in
  let data := match data with [_; _; _; _] => data ++ [""] | _ => data end in
  match data with
  | dd :: mm :: yy :: tm :: tz :: _ =>
      '(dd, mm) ←
        (if bool_decide (PyStr.lower mm ∈ _monthnames) then Some (dd, mm)
         else if bool_decide (PyStr.lower dd ∈ _monthnames) then Some (mm, dd)
         else None);
      mm ← month_number mm;
      let '(yy, tm) := if PyStr.contains ":" (PyStr.tail yy) then (tm, yy) else (yy, tm) in
      let yy :=
        match yy with
        | String c _ => if Rx.digit c then yy else tz
        | EmptyString => tz
        end in
      '(thh, tmm, tss) ←
        match PyStr.split ":" tm with
        | [a; b] => Some (a, b, "0")
        | [a; b; c] => Some (a, b, c)
        | _ => None
        end;
      yy ← int10 yy; dd ← int10 dd;
      thh ← int10 thh; tmm ← int10 tmm; tss ← int10 tss;
      Some (two_digit_year yy, [mm; dd; thh; tmm; tss; 0; 1; -1])
  | _ => None
  end.

Definition is_leap (y : Z) : bool :=
  ((y mod 4 =? 0) && (negb (y mod 100 =? 0) || (y mod 400 =? 0))).

Definition days_before_year (y : Z) : Z :=
  let y := y - 1 in y * 365 + y / 4 - y / 100 + y / 400.

Definition days_before_month (y m : Z) : Z :=
  nth (Z.to_nat (m - 1)) [0; 31; 59; 90; 120; 151; 181; 212; 243; 273; 304; 334] 0
  + (if (2 <? m) && is_leap y then 1 else 0).

(** [datetime.date(year, month, 1).toordinal()] *)
Definition ordinal_of_first (y m : Z) : option Z :=
  if (1 <=? y) && (y <=? 9999) && (1 <=? m) && (m <=? 12)
  then Some (days_before_year y + days_before_month y m + 1)
  else None.

Definition _EPOCH_ORD : Z := 719163.

Definition calendar_timegm (t : date_tuple) : option Z :=
  match t with
  | (year, month :: day :: hour :: minute :: second :: _) =>
      o ← ordinal_of_first year month;
      let days := o - _EPOCH_ORD + day - 1 in
      let hours := days * 24 + hour in
      let minutes := hours * 60 + minute in
      Some (minutes * 60 + second)
  | _ => None
  end.

(** The civil date of a day number (days since 1970-01-01). *)
Definition civil_from_days (days : Z) : Z * Z * Z :=
  let z := days + 719468 in
  let era := z / 146097 in
  let doe := z - era * 146097 in
  let yoe := (doe - doe / 1460 + doe / 36524 - doe / 146096) / 365 in
  let doy := doe - (365 * yoe + yoe / 4 - yoe / 100) in
  let mp := (5 * doy + 2) / 153 in
  let d := doy - (153 * mp + 2) / 5 + 1 in
  let m := if mp <? 10 then mp + 3 else mp - 9 in
  (yoe + era * 400 + (if m <=? 2 then 1 else 0), m, d).

Fixpoint dec_go (fuel : nat) (n : Z) (acc : string) : string :=
  let acc := String (ascii_of_N (Z.to_N (n mod 10) + 48)) acc in
  match fuel with
  | O => acc
  | S fuel' => if n <? 10 then acc else dec_go fuel' (n / 10) acc
  end.

Fixpoint zeros (n : nat) : string :=
  match n with O => "" | S n' => String "0" (zeros n') end.

(** ["%0<width>d" % n] for [0 <= n] *)
Definition pad (width : nat) (n : Z) : string :=
  let s := dec_go (Z.to_nat (Z.log2 n)) n "" in
  zeros (width - String.length s) +:+ s.

Definition formatdate (timeval : Z) : option string :=
  let days := timeval / 86400 in
  let secs := timeval mod 86400 in
  let '(y, m, d) := civil_from_days days in
  if (1 <=? y) && (y <=? 9999) then
    wd ← ["Mon"; "Tue"; "Wed"; "Thu"; "Fri"; "Sat"; "Sun"] !! Z.to_nat ((days + 3) mod 7);
    mon ← ["Jan"; "Feb"; "Mar"; "Apr"; "May"; "Jun"; "Jul"; "Aug"; "Sep"; "Oct";
           "Nov"; "Dec"] !! Z.to_nat (m - 1);
    Some (wd +:+ ", " +:+ pad 2 d +:+ " " +:+ mon +:+ " " +:+ pad 4 y +:+ " "
          +:+ pad 2 (secs / 3600) +:+ ":" +:+ pad 2 (secs mod 3600 / 60) +:+ ":"
          +:+ pad 2 (secs mod 60) +:+ " GMT")
  else None.

(** *** The order of a dictionary (CPython 2.7, 64-bit, default hash seed) *)

Definition wrap64 (x : Z) : Z := (x + 2 ^ 63) mod 2 ^ 64 - 2 ^ 63.

Fixpoint hash_go (s : string) (x : Z) : Z :=
  match s with
  | EmptyString => x
  | String c t => hash_go t (Z.lxor (wrap64 (1000003 * x)) (Z.of_N (N_of_ascii c)))
  end.

(** [string_hash] of [Objects/stringobject.c] *)
Definition string_hash (s : string) : Z :=
  match s with
  | EmptyString => 0
  | String c _ =>
      let x := Z.lxor (hash_go s (Z.shiftl (Z.of_N (N_of_ascii c)) 7))
                      (Z.of_nat (String.length s)) in
      if x =? -1 then -2 else x
  end.

(** The probe sequence of [lookdict_string] for a key that is not yet in
    the table: the index of the first free slot. *)
Fixpoint probe (fuel : nat) (table : list (option string)) (mask i perturb : Z) : nat :=
  let slot := Z.to_nat (Z.land i mask) in
  match fuel with
  | O => slot
  | S fuel' =>
      match table !! slot with
      | Some (Some _) =>
          probe fuel' table mask ((5 * i + perturb + 1) mod 2 ^ 64) (Z.shiftr perturb 5)
      | _ => slot
      end
  end.

Definition place (table : list (option string)) (key : string) : list (option string) :=
  let mask := Z.of_nat (length table) - 1 in
  let h := string_hash key mod 2 ^ 64 in
  match table !! Z.to_nat (Z.land h mask) with
  | Some (Some _) =>
      <[probe (64 + length table) table mask ((5 * Z.land h mask + h + 1) mod 2 ^ 64)
          (Z.shiftr h 5) := Some key]> table
  | _ => <[Z.to_nat (Z.land h mask) := Some key]> table
  end.

Fixpoint new_size (fuel : nat) (size minused : Z) : Z :=
  match fuel with
  | O => size
  | S fuel' => if size <=? minused then new_size fuel' (2 * size) minused else size
  end.

(** [PyDict_SetItem] of a new key, with [dictresize]. *)
Definition insert_key (table : list (option string)) (key : string) : list (option string) :=
  let table := place table key in
  let used := Z.of_nat (length (omap id table)) in
  if 2 * Z.of_nat (length table) <=? 3 * used then
    let size := new_size 64 8 ((if 50000 <? used then 2 else 4) * used) in
    foldl place (replicate (Z.to_nat size) None) (omap id table)
  else table.

Definition table_of (keys : list string) : list (option string) :=
  foldl (fun table key => if bool_decide (Some key ∈ table) then table else insert_key table key)
        (replicate 8 None) keys.

Definition slot_of (table : list (option string)) (key : string) : nat :=
  default O (fst <$> list_find (fun e => e = Some key) table).

Definition slot_le {A} (table : list (option string)) (a b : string * A) : Prop :=
  (slot_of table a.1 ≤ slot_of table b.1)%nat.

Global Instance slot_le_dec {A} table : RelDecision (@slot_le A table).
Proof. intros a b. unfold slot_le. apply _. Defined.

Definition py27_dict_order {A} (l : list (string * A)) : list (string * A) :=
  merge_sort (slot_le (table_of l.*1)) l.

Lemma py27_dict_order_perm A (l : list (string * A)) : py27_dict_order l ≡ₚ l.
Proof. apply merge_sort_Permutation. Qed.

(** *** Pattern objects *)

Inductive glob_token : Type :=
  | GStar
  | GAny
  | GChar (c : ascii)
  | GClass (negated : bool) (body : string).

(** The text of a bracket expression up to its closing bracket, and what
    follows it. *)
Fixpoint until_close (s : string) : option (string * string) :=
  match s with
  | EmptyString => None
  | String c t =>
      if PyStr.ascii_eqb c "]" then Some (EmptyString, t)
      else '(a, b) ← until_close t; Some (String c a, b)
  end.

Definition bracket (s : string) : option (bool * string * string) :=
  let '(neg, s1) := match s with String "!" t => (true, t) | _ => (false, s) end in
  match s1 with
  | String "]" t => '(a, b) ← until_close t; Some (neg, String "]" a, b)
  | _ => '(a, b) ← until_close s1; Some (neg, a, b)
  end.

(** The pattern language of [fnmatch.translate]. *)
Fixpoint glob_tokens (fuel : nat) (pat : string) : list glob_token :=
  match fuel, pat with
  | S fuel', String c t =>
      if PyStr.ascii_eqb c "*" then GStar :: glob_tokens fuel' t
      else if PyStr.ascii_eqb c "?" then GAny :: glob_tokens fuel' t
      else if PyStr.ascii_eqb c "[" then
        match bracket t with
        | Some (neg, body, rest) => GClass neg body :: glob_tokens fuel' rest
        | None => GChar c :: glob_tokens fuel' t
        end
      else GChar c :: glob_tokens fuel' t
  | _, _ => []
  end.

Fixpoint in_class (body : string) (c : ascii) : bool :=
  match body with
  | String lo (String "-" (String hi t)) =>
      ((N_of_ascii lo <=? N_of_ascii c) && (N_of_ascii c <=? N_of_ascii hi))%N
      || in_class t c
  | String x t => PyStr.ascii_eqb x c || in_class t c
  | EmptyString => false
  end.

Fixpoint glob_match (toks : list glob_token) (s : string) : bool :=
  match toks with
  | [] => bool_decide (s = "")
  | GStar :: toks' =>
      (fix star (s : string) : bool :=
         glob_match toks' s || match s with String _ t => star t | EmptyString => false end) s
  | GAny :: toks' =>
      match s with String _ t => glob_match toks' t | EmptyString => false end
  | GChar c :: toks' =>
      match s with
      | String c' t => PyStr.ascii_eqb c c' && glob_match toks' t
      | EmptyString => false
      end
  | GClass neg body :: toks' =>
      match s with
      | String c' t => xorb neg (in_class body c') && glob_match toks' t
      | EmptyString => false
      end
  end.

(** A regular expression made of literal characters, escaped characters and
    dots, matched at the start of [s]; other expressions are not
    interpreted by this instance. *)
Fixpoint literal_match (src s : string) : bool :=
  match src with
  | EmptyString => true
  | String "\" (String e src') =>
      match s with
      | String c t => negb (Rx.word e) && PyStr.ascii_eqb e c && literal_match src' t
      | EmptyString => false
      end
  | String "." src' =>
      match s with
      | String c t => negb (PyStr.ascii_eqb c PyStr.LF) && literal_match src' t
      | EmptyString => false
      end
  | String x src' =>
      match s with
      | String c t => Rx.word x && PyStr.ascii_eqb x c && literal_match src' t
      | EmptyString => false
      end
  end.

Definition py27_pattern_match (x : pattern) (host : string) : bool :=
  match x with
  | FnPattern pat => glob_match (glob_tokens (String.length pat) pat) host
  | RePattern src => literal_match src host
  end.

(** A bracket expression without a range whose bounds are in the wrong
    order ("bad character range"). *)
Fixpoint class_ok (body : string) : bool :=
  match body with
  | String lo (String "-" (String hi t)) => (N_of_ascii lo <=? N_of_ascii hi)%N && class_ok t
  | String _ t => class_ok t
  | EmptyString => true
  end.

(** The regular expressions that [literal_match] interprets: word
    characters, dots and escaped characters that are not word characters. *)
Fixpoint literal_source (src : string) : bool :=
  match src with
  | EmptyString => true
  | String "\" (String e src') => negb (Rx.word e) && literal_source src'
  | String x src' =>
      (Rx.word x || PyStr.ascii_eqb x ".") && literal_source src'
  end.

(** [re.compile]: the translation of a file name pattern is accepted
    unless a bracket expression has a bad range.  Of the regular
    expressions, this instance accepts those that it interprets, which
    CPython accepts, and refuses every other one; CPython refuses some of
    them (an unbalanced parenthesis, as in [a\.b(], a backslash at the
    end) and accepts others, for which this instance is not to be used. *)
Definition py27_compiles (x : pattern) : bool :=
  match x with
  | FnPattern pat =>
      forallb (fun t => match t with GClass _ body => class_ok body | _ => true end)
              (glob_tokens (String.length pat) pat)
  | RePattern src => literal_source src
  end.

Global Instance lib : PyLib := {|
  lib_parsedate := parsedate;
  timegm := calendar_timegm;
  lib_formatdate := formatdate;
  compiles := py27_compiles;
  pattern_match := py27_pattern_match;
  dict_order := @py27_dict_order;
  dict_order_perm := py27_dict_order_perm;
|}.

End Py27.

Example parse_date_ex :
  parse_date "Sun, 06 Nov 1994 08:49:37 GMT" = Ok 784111777 ∧
  parse_date "Sunday, 06-Nov-94 08:49:37 GMT" = Ok 784111777 ∧
  parse_date "Sun Nov  6 08:49:37 1994" = Ok 784111777 ∧
  parse_date "Sun, 06 Foo 1994 08:49:37 GMT" = Raise ValueError ∧
  parse_date "0" = Raise ValueError.
Proof. compute_done. Qed.

Example dict_order_ex :
  Py27.string_hash "a" = 12416037344 ∧
  (Py27.py27_dict_order [("a", 1); ("b", 2); ("c", 3)]).*1 = ["a"; "c"; "b"].
Proof. compute_done. Qed.

Example pattern_match_ex :
  pattern_match (FnPattern "*.example.com") "a.example.com" = true ∧
  pattern_match (FnPattern "*.example.com") "notexample.com" = false ∧
  pattern_match (FnPattern "*") "foo.com" = true.
Proof. compute_done. Qed.

Example format_date_ex :
  format_date 784111777 = Ok "Sun, 06 Nov 1994 08:49:37 GMT" ∧
  format_date 0 = Ok "Thu, 01 Jan 1970 00:00:00 GMT" ∧
  format_date (-1) = Ok "Wed, 31 Dec 1969 23:59:59 GMT" ∧
  format_date 951782400 = Ok "Tue, 29 Feb 2000 00:00:00 GMT".
Proof. compute_done. Qed.

Definition req0 : headers :=
  list_to_map [(":method", "GET"); (":path", "/"); (":version", "HTTP/1.1");
               (":scheme", "http"); (":host", "example.com");
               ("te", "trailers"); ("x-a", "1"); ("connection", "x-a  close")].

Example strip_conn_ex :
  strip_conn_headers req0 =
  list_to_map [(":method", "GET"); (":path", "/"); (":version", "HTTP/1.1");
               (":scheme", "http"); (":host", "example.com")].
Proof. compute_done. Qed.

Example format_parse_ex :
  (s ← format_http1 (strip_conn_headers req0) (String PyStr.LF "") ":" "host"; parse_http1 s)
  = Ok (strip_conn_headers req0).
Proof. compute_done. Qed.


(** ** The harness ([compare_compressors.py]) *)

(** Python floats are binary64 numbers. *)
Definition float_of_Z (z : Z) : float :=
  match z with
  | Zneg _ => (- PrimFloat.of_uint63 (Uint63.of_Z (- z)))%float
  | _ => PrimFloat.of_uint63 (Uint63.of_Z z)
  end.

(** [x ** 2]: raises [OverflowError] when the square of a finite number is
    out of range. *)
Definition square (x : float) : result float :=
  let y := (x * x)%float in
  if PrimFloat.is_infinity y && negb (PrimFloat.is_infinity x)
  then Raise OverflowError else Ok y.

(** [x / y] on floats *)
Definition fdiv (x y : float) : result float :=
  if PrimFloat.is_zero y then Raise ZeroDivisionError else Ok (x / y)%float.

(** [math.sqrt] *)
Definition fsqrt (x : float) : result float :=
  if (x <? 0)%float then Raise ValueError else Ok (PrimFloat.sqrt x).

(** [max(a, b)] and [min(a, b)] *)
Definition fmax (a b : float) : float := if (a <? b)%float then b else a.
Definition fmin (a b : float) : float := if (b <? a)%float then b else a.

(** [meanstdv(members)]:
    "Calculate mean and standard deviation of data x[]:
        mean = {\sum_i x_i \over n}
        std = sqrt(\sum_i (x_i - mean)^2 \over n-1)" *)
Definition meanstdv (members : list float) : result (float * float) :=
  let num := Z.of_nat (length members) in
  let mean := foldl (fun mean item => (mean + item)%float) 0%float members in
  mean ← fdiv mean (float_of_Z num);
  std ← foldlM (fun std item => sq ← square (item - mean)%float; Ok (std + sq)%float)
               0%float members;
  q ← fdiv std (float_of_Z (num - 1));
  std ← fsqrt q;
  Ok (mean, std).

(** The command-line options. *)
Record Options := {
  verbose : Z;
  baseline : string;
  multiplex : list string;
  opt_glob : bool;
  tsv : bool;
  opt_prefix : string;
}.

(** *** Connections *)

(** "A simulated http connection with its own set of header compressors":
    [compressors] maps a codec name to the locations of its two processor
    objects (request, response). *)
Record Connection := {
  c_name : string;
  c_compressors : gmap string (nat * nat);
  c_glob : bool;
  c_patterns : list pattern;
  c_tlds : list string;
}.

Definition BACKSLASH : ascii := "092"%char.

(** [re.search('\\\.', s)]: a backslash followed by a character other than
    a newline. *)
Fixpoint has_escape (s : string) : bool :=
  match s with
  | String c ((String x _) as t) =>
      (PyStr.ascii_eqb c BACKSLASH && negb (PyStr.ascii_eqb x PyStr.LF)) || has_escape t
  | _ => false
  end.

(** [re.sub('\\\.', '.', s)] *)
Fixpoint unescape (s : string) : string :=
  match s with
  | String c ((String x t') as t) =>
      if PyStr.ascii_eqb c BACKSLASH && negb (PyStr.ascii_eqb x PyStr.LF)
      then String "." (unescape t')
      else String c (unescape t)
  | _ => s
  end.

(** The longest prefix without a dot, and what follows it. *)
Fixpoint span_label (s : string) : string * string :=
  match s with
  | EmptyString => (EmptyString, EmptyString)
  | String c t =>
      if PyStr.ascii_eqb c "." then (EmptyString, s)
      else let '(w, r) := span_label t in (String c w, r)
  end.

(** [([^.]+\.[^.]+)] at the start of [s]: the text it matches. *)
Definition two_labels (s : string) : option string :=
  match span_label s with
  | (String _ _ as l1, String _ r) =>
      match span_label r with
      | (String _ _ as l2, _) => Some (l1 +:+ "." +:+ l2)
      | _ => None
      end
  | _ => None
  end.

(** [(.*\.)] followed by [([^.]+\.[^.]+)] at the start of [s], the longest
    first group first: the text of the second group. *)
Fixpoint after_prefix (s : string) : option string :=
  match s with
  | EmptyString => None
  | String c t =>
      if PyStr.ascii_eqb c PyStr.LF then None
      else match after_prefix t with
           | Some g => Some g
           | None => if PyStr.ascii_eqb c "." then two_labels t else None
           end
  end.

(** [re.match('(.*\.)?([^.]+\.[^.]+)\.?', s)]: [group(2)] of the match, if
    there is one. *)
Definition domain_group (s : string) : option string :=
  match after_prefix s with
  | Some g => Some g
  | None => two_labels s
  end.

Example domain_group_ex :
  domain_group "www.example.com" = Some "example.com" ∧
  domain_group "example.org" = Some "example.org" ∧
  domain_group "a.example.co.uk." = Some "co.uk" ∧
  domain_group ".example.com" = Some "example.com" ∧
  domain_group "localhost" = None.
Proof. compute_done. Qed.

Definition option_to_list {A} (o : option A) : list A :=
  match o with Some a => [a] | None => [] end.

(** [re.compile(...)]: the pattern object, or [re.error]. *)
Definition re_compile `{PyLib} (x : pattern) : result pattern :=
  if compiles x then Ok x else Raise ReError.

(** The body of the loop of [Connection.__init__] for one alternative [s]:
    the pattern is compiled and appended before the suffix is looked
    for. *)
Definition init_step `{PyLib} (glob : bool) (acc : list pattern * list string) (s : string)
    : result (list pattern * list string) :=
  let '(patterns, tlds) := acc in
  '(patterns, m) ←
    (if PyStr.startswith "*" s then
       x ← re_compile (FnPattern s);
       Ok (patterns ++ [x], domain_group (PyStr.tail s))
     else if has_escape s then
       x ← re_compile (RePattern s);
       Ok (patterns ++ [x], domain_group (unescape s))
     else if glob then
       x ← re_compile (FnPattern (String "*" s));
       Ok (patterns ++ [x], domain_group s)
     else Ok (patterns, None));
  Ok (patterns, tlds ++ option_to_list m).

(** [Connection.__init__(name, compressors, glob)] *)
Definition Connection_init `{PyLib} (name : string) (compressors : gmap string (nat * nat))
    (glob : bool) : result Connection :=
  found ← foldlM (init_step glob) ([], []) (PyStr.split "/" name);
  Ok {| c_name := name; c_compressors := compressors; c_glob := glob;
        c_patterns := found.1; c_tlds := found.2 |}.

(** [True == x] for a compiled pattern object [x]: such an object is not
    equal to [True]. *)
Definition pattern_is_True (x : pattern) : bool := false.

Section Harness.

Context `{PyLib}.

(** [Connection.matches(host)] *)
Definition matches (self : Connection) (host : string) : bool :=
  if existsb pattern_is_True (filter (fun x => pattern_match x host) (c_patterns self))
  then true
  else if existsb (fun b => eqb true b) ((fun tld => PyStr.endswith tld host) <$> c_tlds self)
  then true
  else PyStr.str_eqb (c_name self) host.

(** *** The round-trip check *)

Definition TAB : string := String "009"%char "".

(** The first loop of [compare_headers], for one of the dictionaries. *)
Definition normalize_cookie (d_hdr : headers) : headers :=
  match d_hdr !! "cookie" with
  | Some v =>
      <["cookie" := PyStr.join "; "
                      (PyStr.sorted (PyStr.lstrip_char " " <$> PyStr.split ";" v))]> d_hdr
  | None => d_hdr
  end.

(** One iteration of the loop of [compare_headers] over [a_hdr]. *)
Definition compare_step (acc : list string * headers) (item : string * string)
    : result (list string * headers) :=
  let '(output, b_hdr) := acc in
  let '(key, val) := item in
  if bool_decide (key ∈ [":version"]) then
    _ ← getitem b_hdr key;
    Ok (output, delete key b_hdr)
  else
    match b_hdr !! key with
    | None => Ok (output ++ [TAB +:+ key +:+ " present in only one (A)"], b_hdr)
    | Some bval =>
        let output :=
          if bool_decide (PyStr.strip val ≠ PyStr.strip bval) then
            output ++ [TAB +:+ key +:+ " has mismatched values:";
                       TAB +:+ "  a -> " +:+ val;
                       TAB +:+ "  b -> " +:+ bval]
          else output in
        Ok (output, delete key b_hdr)
    end.

(** [compare_headers(a_hdr, b_hdr)]: the message it returns, and the content
    of the two dictionaries when it returns (both are changed in place). *)
Definition compare_headers (a_hdr b_hdr : headers) : result (string * headers * headers) :=
  let a_hdr := normalize_cookie a_hdr in
  let b_hdr := normalize_cookie b_hdr in
  '(output, b_hdr) ← foldlM compare_step ([], b_hdr) (items a_hdr);
  let output :=
    output ++ ((fun key => TAB +:+ key +:+ " present in only one (B)") <$> (items b_hdr).*1) in
  Ok (PyStr.join (String PyStr.LF "") output, a_hdr, b_hdr).

(** *** Codec modules and the tester *)

(** What the harness uses of a codec module: the class [Processor], with
    its constructor and its two methods.  [decompress] may raise
    [NotImplementedError]. *)
Record CodecModule := {
  proc : Type;
  Processor : Options → bool → list string → proc;
  proc_compress : store → proc → nat → string → result (string * proc * store);
  proc_decompress : proc → string → result (headers * proc);
}.

(** A processor object. *)
Record ProcObj := {
  codec : CodecModule;
  state : proc codec;
}.

(** The module [compressor.simple]. *)
Definition simple_module : CodecModule := {|
  proc := DeltaProcessor;
  Processor := fun _ _ _ => Processor_init;
  proc_compress := compress;
  proc_decompress := decompress;
|}.

(** The state of a [CompressionTester] and of the objects it reaches:
    [connections] in the order of registration, the processor objects
    ([objects], by location) and the message dictionaries ([dicts], by
    location). *)
Record Tester := {
  options : Options;
  codec_modules : gmap string (CodecModule * list string);
  connections : list (string * Connection);
  objects : list ProcObj;
  dicts : store;
  warned : gmap string bool;
}.

Definition set_connections (T : Tester) (cs : list (string * Connection)) : Tester :=
  {| options := options T; codec_modules := codec_modules T; connections := cs;
     objects := objects T; dicts := dicts T; warned := warned T |}.

Definition set_objects (T : Tester) (os : list ProcObj) : Tester :=
  {| options := options T; codec_modules := codec_modules T; connections := connections T;
     objects := os; dicts := dicts T; warned := warned T |}.

Definition set_dicts (T : Tester) (σ : store) : Tester :=
  {| options := options T; codec_modules := codec_modules T; connections := connections T;
     objects := objects T; dicts := σ; warned := warned T |}.

Definition set_warned (T : Tester) (w : gmap string bool) : Tester :=
  {| options := options T; codec_modules := codec_modules T; connections := connections T;
     objects := objects T; dicts := dicts T; warned := w |}.

Definition msg_types : list string := ["req"; "res"].

(** [self.connections[key] = conn] *)
Fixpoint setitem {A} (key : string) (x : A) (d : list (string * A)) : list (string * A) :=
  match d with
  | [] => [(key, x)]
  | (k, y) :: d' => if bool_decide (k = key) then (k, x) :: d' else (k, y) :: setitem key x d'
  end.

(** [self.connections.get(key)] *)
Fixpoint lookup_key {A} (key : string) (d : list (string * A)) : option A :=
  match d with
  | [] => None
  | (k, y) :: d' => if bool_decide (k = key) then Some y else lookup_key key d'
  end.

(** One iteration of the loop of [get_compressors]: two new processor
    objects for the codec [name]. *)
Definition compressors_step (opts : Options)
    (acc : gmap string (nat * nat) * list ProcObj)
    (item : string * (CodecModule * list string))
    : gmap string (nat * nat) * list ProcObj :=
  let '(compressors, objs) := acc in
  let '(name, (module, params)) := item in
  let l := length objs in
  (<[name := (l, S l)]> compressors,
   objs ++ [ {| codec := module; state := Processor module opts true params |};
             {| codec := module; state := Processor module opts false params |} ]).

(** [get_compressors()]: "Get a fresh initialed set of compressor codecs" *)
Definition get_compressors (T : Tester) : gmap string (nat * nat) * Tester :=
  let '(compressors, objs) :=
    foldl (compressors_step (options T)) (∅, objects T) (items (codec_modules T)) in
  (compressors, set_objects T objs).

(** [get_connection(host)] *)
Definition get_connection (T : Tester) (host : string) : result (Connection * Tester) :=
  match lookup_key host (connections T) with
  | Some c => Ok (c, T)
  | None =>
      match list_find (fun c => matches c host = true) (dict_order (connections T)).*2 with
      | Some (_, c) => Ok (c, T)
      | None =>
          let '(compressors, T) := get_compressors T in
          conn ← Connection_init host compressors (opt_glob (options T));
          Ok (conn, set_connections T (setitem host conn (connections T)))
      end
  end.

(** The body of the loop of [init_connections]. *)
Definition init_connection (T : Tester) (pattern : string) : result Tester :=
  let '(compressors, T) := get_compressors T in
  conn ← Connection_init pattern compressors (opt_glob (options T));
  Ok (set_connections T (setitem pattern conn (connections T))).

(** [init_connections()], run on a tester without connections. *)
Definition init_connections (T : Tester) : result Tester :=
  foldlM init_connection T (multiplex (options T)).

(** An entry of the dictionary returned by [process_message]. *)
Record CodecResult := {
  r_compressed : string;
  r_decompressed : option headers;
  r_size : Z;
  r_ratio : option float;
}.

Definition set_ratio (r : CodecResult) (x : float) : CodecResult :=
  {| r_compressed := r_compressed r; r_decompressed := r_decompressed r;
     r_size := r_size r; r_ratio := Some x |}.

(** [list.index] on [msg_types] picks the request or the response processor. *)
Definition pick (message_type : string) (proc2 : nat * nat) : result nat :=
  if bool_decide (message_type = "req") then Ok proc2.1
  else if bool_decide (message_type = "res") then Ok proc2.2
  else Raise ValueError.

Definition set_state (T : Tester) (l : nat) (o : ProcObj) : Tester :=
  set_objects T (<[l := o]> (objects T)).

(** The [try] block of [process_message]: [decompressed] stays [None] when
    the codec has no [decompress]; a first such codec is recorded in
    [warned]. *)
Definition try_decompress (T : Tester) (name : string) (pl : nat)
    (module : CodecModule) (st : proc module) (compressed : string)
    : result (option headers * Tester) :=
  match proc_decompress module st compressed with
  | Ok (d, st) => Ok (Some d, set_state T pl {| codec := module; state := st |})
  | Raise NotImplementedError =>
      Ok (None, if bool_decide (is_Some (warned T !! name)) then T
                else set_warned T (<[name := true]> (warned T)))
  | Raise e => Raise e
  end.

(** [if decompressed: compare_result = self.compare_headers(message,
    decompressed)]: both dictionaries are changed in place. *)
Definition check_roundtrip (T : Tester) (msg : nat) (decompressed : option headers)
    : result (option headers * Tester) :=
  if truthy decompressed then
    message ← of_option (KeyError "") (dicts T !! msg);
    '(_, a_hdr, b_hdr) ← compare_headers message (default ∅ decompressed);
    Ok (Some b_hdr, set_dicts T (<[msg := a_hdr]> (dicts T)))
  else Ok (decompressed, T).

(** What follows the call of [compress] in the body of the loop of
    [process_message]. *)
Definition after_compress (T : Tester) (msg : nat) (name : string) (pl : nat)
    (results : gmap string CodecResult) (module : CodecModule)
    (r : string * proc module * store) : result (gmap string CodecResult * Tester) :=
  let '(compressed, st, σ) := r in
  let T := set_dicts (set_state T pl {| codec := module; state := st |}) σ in
  '(decompressed, T) ← try_decompress T name pl module st compressed;
  '(decompressed, T) ← check_roundtrip T msg decompressed;
  Ok (<[name := {| r_compressed := compressed; r_decompressed := decompressed;
                   r_size := Z.of_nat (String.length compressed); r_ratio := None |}]> results,
      T).

(** The body of the loop of [process_message] over the processors: [msg]
    is the location of the message, [pl] the location of the processor. *)
Definition process_one (msg : nat) (host : string)
    (acc : gmap string CodecResult * Tester) (item : string * nat)
    : result (gmap string CodecResult * Tester) :=
  let '(results, T) := acc in
  let '(name, pl) := item in
  processor ← of_option (KeyError "") (objects T !! pl);
  r ← proc_compress (codec processor) (dicts T) (state processor) msg host;
  after_compress T msg name pl results (codec processor) r.

(** The pass of [process_message] that adds the ratios. *)
Definition add_ratios (baseline : string) (results : gmap string CodecResult)
    : result (gmap string CodecResult) :=
  match results !! baseline with
  | Some b =>
      if 0 <? r_size b then
        foldlM (fun acc '(name, r) =>
                  c ← PyStr.head name;
                  if PyStr.ascii_eqb c "_" then Ok acc
                  else Ok (<[name := set_ratio r (1 * float_of_Z (r_size r)
                                                  / float_of_Z (r_size b))%float]> acc))
               results (items results)
      else Ok results
  | None => Ok results
  end.

(** [process_message(message, message_type, host)]; [msg] is the location
    of [message].  The entry ["_message_type"] of the result, the TSV
    accumulator and what is printed are not part of the model. *)
Definition process_message (T : Tester) (msg : nat) (message_type host : string)
    : result (gmap string CodecResult * Tester) :=
  '(connection, T) ← get_connection T host;
  procs ← mapM (fun '(name, proc2) => pl ← pick message_type proc2; Ok (name, pl))
               (items (c_compressors connection));
  '(results, T) ← foldlM (process_one msg host) (∅, T) procs;
  results ← add_ratios (baseline (options T)) results;
  Ok (results, T).

(** *** Aggregation *)

(** The running totals of a codec for a message type. *)
Record Totals := {
  t_size : Z;
  t_maxr : float;
  t_minr : float;
  t_ratio_list : list float;
  t_ratio : option float;
  t_std : option float;
}.

(** The default value of the [defaultdict]. *)
Definition Totals_default : Totals :=
  {| t_size := 0; t_maxr := 0; t_minr := 1e20; t_ratio_list := [];
     t_ratio := None; t_std := None |}.

(** The totals of a message type: one entry per codec, and ["_num"]. *)
Record TypeTotals := {
  by_codec : gmap string Totals;
  _num : option Z;
}.

(** The inner loop of [process_messages]: the results of one message are
    added to the totals of its type. *)
Definition accumulate (target_of : gmap string Totals) (item : string * CodecResult)
    : result (gmap string Totals) :=
  let '(name, r) := item in
  c ← PyStr.head name;
  if PyStr.ascii_eqb c "_" then Ok target_of
  else
    let target := default Totals_default (target_of !! name) in
    ratio ← of_option (KeyError "ratio") (r_ratio r);
    Ok (<[name := {| t_size := t_size target + r_size r;
                     t_maxr := fmax (t_maxr target) ratio;
                     t_minr := fmin (t_minr target) ratio;
                     t_ratio_list := t_ratio_list target ++ [ratio];
                     t_ratio := t_ratio target;
                     t_std := t_std target |}]> target_of).

(** The body of the last loop of [process_messages]. *)
Definition finish_step (baseline_ratio : Z) (acc : gmap string Totals)
    (item : string * Totals) : result (gmap string Totals) :=
  let '(name, r) := item in
  c ← PyStr.head name;
  if PyStr.ascii_eqb c "_" then Ok acc
  else
    ratio ← (if baseline_ratio =? 0 then Raise ZeroDivisionError
             else Ok (1 * float_of_Z (t_size r) / float_of_Z baseline_ratio)%float);
    ms ← meanstdv (t_ratio_list r);
    Ok (<[name := {| t_size := t_size r; t_maxr := t_maxr r; t_minr := t_minr r;
                     t_ratio_list := t_ratio_list r;
                     t_ratio := Some ratio; t_std := Some ms.2 |}]> acc).

(** The last loop of [process_messages], for one message type; reading the
    baseline's entry of the [defaultdict] creates it when it is missing.
    Under ["_num"] the totals of a type that has a message hold a number,
    which cannot be subscripted. *)
Definition finish (baseline : string) (tt : TypeTotals) : result TypeTotals :=
  if bool_decide (baseline = "_num") && bool_decide (is_Some (_num tt))
  then Raise TypeError else
  let totals :=
    match by_codec tt !! baseline with
    | Some _ => by_codec tt
    | None => <[baseline := Totals_default]> (by_codec tt)
    end in
  let baseline_ratio := t_size (default Totals_default (totals !! baseline)) in
  totals ← foldlM (finish_step baseline_ratio) totals (items totals);
  Ok {| by_codec := totals; _num := _num tt |}.

(** The body of the main loop of [process_messages]. *)
Definition process_step (n : Z) (acc : gmap string TypeTotals * Tester)
    (m : string * nat * string) : result (gmap string TypeTotals * Tester) :=
  let '(ttls, T) := acc in
  let '(message_type, message, host) := m in
  '(results, T) ← process_message T message message_type host;
  tt ← of_option (KeyError message_type) (ttls !! message_type);
  totals ← foldlM accumulate (by_codec tt) (items results);
  Ok (<[message_type := {| by_codec := totals; _num := Some n |}]> ttls, T).

Definition finish_type (baseline : string) (ttls : gmap string TypeTotals) (ty : string)
    : result (gmap string TypeTotals) :=
  tt ← of_option (KeyError ty) (ttls !! ty);
  tt ← finish baseline tt;
  Ok (<[ty := tt]> ttls).

(** [process_messages(messages)] *)
Definition process_messages (T : Tester) (messages : list (string * nat * string))
    : result (gmap string TypeTotals * Tester) :=
  match messages with
  | [] => Ok (∅, T)
  | _ =>
      let ttls : gmap string TypeTotals :=
        list_to_map ((fun ty => (ty, {| by_codec := ∅; _num := None |})) <$> msg_types) in
      '(ttls, T) ← foldlM (process_step (Z.of_nat (length messages))) (ttls, T) messages;
      ttls ← foldlM (finish_type (baseline (options T))) ttls msg_types;
      Ok (ttls, T)
  end.

End Harness.

Example init_ex :
  (c ← Connection_init "*.example.com/example\.org" ∅ false; Ok (c_patterns c, c_tlds c))
    = Ok ([FnPattern "*.example.com"; RePattern "example\.org"],
          ["example.com"; "example.org"]) ∧
  (c ← Connection_init "www.example.net" ∅ false; Ok (c_patterns c, c_tlds c))
    = Ok ([], []) ∧
  (c ← Connection_init "www.example.net" ∅ true; Ok (c_patterns c, c_tlds c))
    = Ok ([FnPattern "*www.example.net"], ["example.net"]) ∧
  (c ← Connection_init "*" ∅ true; Ok (c_tlds c)) = Ok [] ∧
  (c ← Connection_init "a\.b(" ∅ false; Ok (c_name c)) = Raise ReError ∧
  (c ← Connection_init "www.example.net/*[z-a]" ∅ true; Ok (c_name c)) = Raise ReError.
Proof. compute_done. Qed.

Example matches_ex :
  (c ← Connection_init "*.example.com" ∅ true; Ok (matches c "a.example.com")) = Ok true ∧
  (c ← Connection_init "example.org" ∅ true; Ok (matches c "example.org")) = Ok true ∧
  (c ← Connection_init "*.example.com" ∅ true; Ok (matches c "notexample.com")) = Ok true ∧
  (c ← Connection_init "*" ∅ true; Ok (matches c "foo.com")) = Ok false.
Proof. compute_done. Qed.

(** * Properties *)

(** ** Generalities *)

(** Concatenation of strings, which does not reduce by [simpl]. *)
Lemma app_cons (c : ascii) (s t : string) : String c s +:+ t = String c (s +:+ t).
Proof. reflexivity. Qed.

Lemma app_nil (t : string) : "" +:+ t = t.
Proof. reflexivity. Qed.

Ltac norm_app := rewrite ?app_cons, ?app_nil.

Lemma app_assoc_s (a b c : string) : (a +:+ b) +:+ c = a +:+ (b +:+ c).
Proof. induction a as [|x a IH]; norm_app; [done|]. by rewrite IH. Qed.

Lemma app_nil_r_s (a : string) : a +:+ "" = a.
Proof. induction a as [|x a IH]; norm_app; [done|]. by rewrite IH. Qed.

Lemma bind_Ok {A B} (m : result A) (k : A → result B) (b : B) :
  m ≫= k = Ok b ↔ ∃ a, m = Ok a ∧ k a = Ok b.
Proof.
  destruct m as [a|e]; simpl; split.
  - eauto.
  - by intros (a' & [= <-] & ?).
  - done.
  - by intros (? & ? & _).
Qed.

Lemma bind_Raise {A B} (m : result A) (k : A → result B) (e : exn) :
  m = Raise e → m ≫= k = Raise e.
Proof. by intros ->. Qed.

Lemma foldlM_app {A B} (f : B → A → result B) (b : B) (l1 l2 : list A) :
  foldlM f b (l1 ++ l2) = foldlM f b l1 ≫= fun b' => foldlM f b' l2.
Proof.
  revert b. induction l1 as [|x l1 IH]; intros b; simpl; [done|].
  destruct (f b x) as [b'|e]; simpl; [apply IH|done].
Qed.

(** An invariant of a loop that completes. *)
Lemma foldlM_ind {A B} (P : B → list A → Prop) (f : B → A → result B) (l : list A) :
  ∀ (rest seen : list A) (b b' : B),
    l = seen ++ rest →
    P b seen →
    (∀ b x b' seen rest, l = seen ++ x :: rest → P b seen → f b x = Ok b' → P b' (seen ++ [x])) →
    foldlM f b rest = Ok b' → P b' l.
Proof.
  induction rest as [|x rest IH]; intros seen b b' Hl HP Hstep Hrun; simpl in *.
  - simplify_eq. by rewrite app_nil_r.
  - apply bind_Ok in Hrun as (b1 & Hb1 & Hrun).
    apply (IH (seen ++ [x]) b1 b'); [by rewrite <- app_assoc| |done..].
    eapply Hstep; eauto.
Qed.

Section Enumeration.

Context `{PyLib}.

Lemma items_perm {A} (d : gmap string A) : items d ≡ₚ map_to_list d.
Proof. apply dict_order_perm. Qed.

Lemma items_NoDup {A} (d : gmap string A) : NoDup (items d).*1.
Proof. rewrite items_perm. apply NoDup_fst_map_to_list. Qed.

Lemma elem_of_items {A} (d : gmap string A) k v : (k, v) ∈ items d ↔ d !! k = Some v.
Proof. rewrite items_perm. apply elem_of_map_to_list. Qed.

Lemma items_empty {A} : items (∅ : gmap string A) = [].
Proof.
  apply Permutation_nil_r. rewrite items_perm. by rewrite map_to_list_empty.
Qed.

End Enumeration.

(** ** The statistics *)

(** The sample formulas, with the sums taken from left to right in binary64
    arithmetic. *)
Definition fsum (l : list float) : float := foldl (fun a x => (a + x)%float) 0%float l.

Definition sample_mean (l : list float) : float :=
  (fsum l / float_of_Z (Z.of_nat (length l)))%float.

(** The square root of the sum of the squared deviations from the mean,
    divided by [n - 1]. *)
Definition sample_stdev (l : list float) : float :=
  PrimFloat.sqrt
    (fsum ((fun x => ((x - sample_mean l) * (x - sample_mean l))%float) <$> l)
     / float_of_Z (Z.of_nat (length l) - 1))%float.

Lemma fdiv_Ok x y q : fdiv x y = Ok q → q = (x / y)%float ∧ PrimFloat.is_zero y = false.
Proof. unfold fdiv. destruct (PrimFloat.is_zero y); naive_solver. Qed.

Lemma square_Ok x y : square x = Ok y → y = (x * x)%float.
Proof. unfold square. case_match; naive_solver. Qed.

Lemma sum_squares_Ok (m : float) (l : list float) (a s : float) :
  foldlM (fun std item => sq ← square (item - m)%float; Ok (std + sq)%float) a l = Ok s →
  s = foldl (fun a x => (a + x)%float) a ((fun x => ((x - m) * (x - m))%float) <$> l).
Proof.
  revert a. induction l as [|x l IH]; intros a Hs; simpl in *; [by simplify_eq|].
  apply bind_Ok in Hs as (a' & Ha' & Hs).
  apply bind_Ok in Ha' as (sq & Hsq%square_Ok & [= <-]). subst sq. by apply IH.
Qed.

(** When [meanstdv] returns, it returns the sample mean and the sample
    standard deviation, and the list has at least two elements. *)
Lemma meanstdv_Ok (l : list float) (m s : float) :
  meanstdv l = Ok (m, s) →
  m = sample_mean l ∧ s = sample_stdev l ∧ (2 ≤ length l)%nat.
Proof.
  unfold meanstdv. intros Hrun.
  apply bind_Ok in Hrun as (mean & [-> Hn]%fdiv_Ok & Hrun).
  apply bind_Ok in Hrun as (std & Hstd%sum_squares_Ok & Hrun).
  apply bind_Ok in Hrun as (q & [-> Hn1]%fdiv_Ok & Hrun).
  apply bind_Ok in Hrun as (r & Hr & [= <- <-]).
  unfold fsqrt in Hr. case_match; simplify_eq.
  split_and!; [done| |].
  - done.
  - destruct l as [|x [|y l]]; simpl in *; [by vm_compute in Hn|by vm_compute in Hn1|lia].
Qed.

(** On at most one element, [meanstdv] raises. *)
Lemma meanstdv_short (l : list float) :
  (length l ≤ 1)%nat → ∃ e, meanstdv l = Raise e.
Proof.
  destruct l as [|x [|y l]]; simpl; [| |lia]; intros _.
  - by exists ZeroDivisionError.
  - unfold meanstdv. simpl.
    change (fdiv (0 + x) (float_of_Z 1)) with (Ok ((0 + x) / float_of_Z 1)%float). simpl.
    destruct (square _) as [sq|e]; simpl; eauto.
Qed.

(** ** Aggregation *)

(** A name under which a codec's results are aggregated: it is not empty
    and does not start with an underscore. *)
Definition is_codec (name : string) : bool :=
  match name with
  | String c _ => negb (PyStr.ascii_eqb c "_")
  | EmptyString => false
  end.

(** The size and the ratios accumulated so far under [name]; a missing
    entry counts as the default entry of the [defaultdict]. *)
Definition view (totals : gmap string Totals) (name : string) : Z * list float :=
  let t := default Totals_default (totals !! name) in (t_size t, t_ratio_list t).

(** The sizes and the ratios that the messages of type [ty] gave the codec
    [name], in the order of the messages. *)
Definition sizes_of (ty name : string) (rs : list (string * gmap string CodecResult))
    : list Z :=
  omap (fun '(ty', results) =>
          if bool_decide (ty' = ty) then r_size <$> results !! name else None) rs.

Definition ratios_of (ty name : string) (rs : list (string * gmap string CodecResult))
    : list float :=
  omap (fun '(ty', results) =>
          if bool_decide (ty' = ty) then results !! name ≫= r_ratio else None) rs.

Definition cumulative_size (ty name : string) (rs : list (string * gmap string CodecResult))
    : Z :=
  foldr Z.add 0 (sizes_of ty name rs).

Section Aggregation.

Context `{PyLib}.

(** The results of the messages, in order: what [process_message] returns
    for each of them, the tester being threaded through. *)
Fixpoint run_messages (T : Tester) (messages : list (string * nat * string))
    : result (list (string * gmap string CodecResult) * Tester) :=
  match messages with
  | [] => Ok ([], T)
  | (message_type, message, host) :: rest =>
      '(results, T) ← process_message T message message_type host;
      '(rs, T) ← run_messages T rest;
      Ok ((message_type, results) :: rs, T)
  end.

Lemma accumulate_fold (l : list (string * CodecResult)) :
  ∀ totals totals' : gmap string Totals,
    NoDup l.*1 →
    foldlM accumulate totals l = Ok totals' →
    (∀ name, is_Some (totals !! name) → is_codec name = true) →
    (∀ name, is_Some (totals' !! name) → is_codec name = true) ∧
    ∀ name, is_codec name = true →
      match lookup_key name l with
      | Some r =>
          ∃ ratio, r_ratio r = Some ratio ∧
            view totals' name = ((view totals name).1 + r_size r, (view totals name).2 ++ [ratio])
      | None => view totals' name = view totals name
      end.
Proof.
  induction l as [|[n r] l IH]; intros totals totals' Hnd Hrun Hkeys; simpl in *.
  { by simplify_eq. }
  apply NoDup_cons in Hnd as [Hn Hnd].
  apply bind_Ok in Hrun as (totals1 & Hstep & Hrun).
  unfold accumulate in Hstep.
  apply bind_Ok in Hstep as (c & Hc & Hstep).
  destruct n as [|c' n]; simplify_eq/=.
  assert (∀ name, lookup_key name l = None ∨ name ≠ String c n) as Hfresh.
  { intros name. destruct (decide (name = String c n)) as [->|]; [left|by right].
    clear -Hn. induction l as [|[k y] l IH]; simpl; [done|].
    case_bool_decide; [subst; set_solver|]. apply IH. set_solver. }
  destruct (PyStr.ascii_eqb c "_") eqn:Hmeta; simplify_eq/=.
  - destruct (IH _ _ Hnd Hrun Hkeys) as [Hk Hv]. split; [done|].
    intros name Hname. specialize (Hv name Hname).
    case_bool_decide as Heq; [|done].
    subst name. simpl in Hname. by rewrite Hmeta in Hname.
  - apply bind_Ok in Hstep as (ratio & Hratio & [= <-]).
    destruct (r_ratio r) as [ratio'|] eqn:Hr; simplify_eq/=.
    edestruct (IH _ _ Hnd Hrun) as [Hk Hv].
    { intros name. destruct (decide (name = String c n)) as [->|Hne].
      - intros _. simpl. by rewrite Hmeta.
      - rewrite lookup_insert_ne by done. apply Hkeys. }
    split; [done|]. intros name Hname. specialize (Hv name Hname).
    case_bool_decide as Heq.
    + subst name. exists ratio. split; [done|].
      destruct (Hfresh (String c n)) as [Hnone|]; [|done].
      rewrite Hnone in Hv. rewrite Hv. unfold view.
      by rewrite lookup_insert_eq.
    + destruct (lookup_key name l) as [r'|].
      * destruct Hv as (ratio0 & ? & Hv). exists ratio0. split; [done|].
        rewrite Hv. unfold view. by rewrite lookup_insert_ne.
      * rewrite Hv. unfold view. by rewrite lookup_insert_ne.
Qed.

Lemma lookup_key_spec {A} (l : list (string * A)) (name : string) :
  NoDup l.*1 →
  match lookup_key name l with
  | Some r => (name, r) ∈ l
  | None => name ∉ l.*1
  end.
Proof.
  induction l as [|[k y] l IH]; intros Hnd; simpl; [set_solver|].
  apply NoDup_cons in Hnd as [Hk Hnd]. specialize (IH Hnd).
  case_bool_decide; [subst; set_solver|].
  destruct (lookup_key name l); set_solver.
Qed.

Lemma lookup_key_items {A} (d : gmap string A) (name : string) :
  lookup_key name (items d) = d !! name.
Proof.
  pose proof (lookup_key_spec (items d) name (items_NoDup d)) as Hl.
  destruct (lookup_key name (items d)) as [r|].
  - symmetry. by apply elem_of_items.
  - destruct (d !! name) as [r|] eqn:Hd; [|done].
    apply elem_of_items in Hd. exfalso. apply Hl.
    apply list_elem_of_fmap. by exists (name, r).
Qed.

Lemma finish_fold (b : Z) (l : list (string * Totals)) :
  ∀ acc acc' : gmap string Totals,
    NoDup l.*1 →
    foldlM (finish_step b) acc l = Ok acc' →
    ∀ name,
      match lookup_key name l with
      | Some r =>
          if is_codec name then
            b ≠ 0 ∧ ∃ m s, meanstdv (t_ratio_list r) = Ok (m, s) ∧
              ∃ tot', acc' !! name = Some tot' ∧
                t_ratio tot' = Some (1 * float_of_Z (t_size r) / float_of_Z b)%float ∧
                t_std tot' = Some s
          else acc' !! name = acc !! name
      | None => acc' !! name = acc !! name
      end.
Proof.
  induction l as [|[n r] l IH]; intros acc acc' Hnd Hrun name; simpl in *.
  { by simplify_eq. }
  apply NoDup_cons in Hnd as [Hn Hnd].
  apply bind_Ok in Hrun as (acc1 & Hstep & Hrun).
  specialize (IH _ _ Hnd Hrun name).
  pose proof (lookup_key_spec l name Hnd) as Hl.
  unfold finish_step in Hstep.
  apply bind_Ok in Hstep as (c & Hc & Hstep).
  destruct n as [|c' n]; simplify_eq/=.
  destruct (PyStr.ascii_eqb c "_") eqn:Hmeta; simplify_eq/=.
  - case_bool_decide as Heq; [|done]. subst name. simpl. rewrite Hmeta. simpl.
    destruct (lookup_key (String c n) l); [|done].
    exfalso. apply Hn. apply list_elem_of_fmap. by eexists (_, _).
  - apply bind_Ok in Hstep as (ratio & Hratio & Hstep).
    apply bind_Ok in Hstep as ([m s] & Hms & [= <-]).
    destruct (b =? 0) eqn:Hb; simplify_eq/=. apply Z.eqb_neq in Hb.
    case_bool_decide as Heq.
    + subst name. simpl. rewrite Hmeta. simpl. split; [done|].
      exists m, s. split; [done|].
      destruct (lookup_key (String c n) l).
      { exfalso. apply Hn. apply list_elem_of_fmap. by eexists (_, _). }
      rewrite IH, lookup_insert_eq. eauto.
    + destruct (lookup_key name l); [destruct (is_codec name)|];
        rewrite ?IH; try done; by rewrite lookup_insert_ne.
Qed.

(** What [finish] makes of the totals of a message type. *)
Lemma finish_Ok (baseline : string) (tt tt' : TypeTotals) :
  finish baseline tt = Ok tt' →
  ∀ name tot', by_codec tt' !! name = Some tot' → is_codec name = true →
    (view (by_codec tt) baseline).1 ≠ 0 ∧
    t_ratio tot' = Some (1 * float_of_Z (view (by_codec tt) name).1
                         / float_of_Z (view (by_codec tt) baseline).1)%float ∧
    t_std tot' = Some (sample_stdev (view (by_codec tt) name).2) ∧
    (2 ≤ length (view (by_codec tt) name).2)%nat.
Proof.
  unfold finish. intros Hrun name tot' Htot' Hname.
  destruct (_ && _); [done|].
  set (totals := match by_codec tt !! baseline with
                 | Some _ => by_codec tt
                 | None => <[baseline:=Totals_default]> (by_codec tt)
                 end) in *.
  assert (∀ x, view totals x = view (by_codec tt) x) as Hview.
  { intros x. unfold totals, view. destruct (by_codec tt !! baseline) eqn:Hb; [done|].
    destruct (decide (x = baseline)) as [->|].
    - by rewrite lookup_insert_eq, Hb.
    - by rewrite lookup_insert_ne. }
  apply bind_Ok in Hrun as (acc' & Hfold & [= <-]). simpl in Htot'.
  pose proof (finish_fold _ _ _ _ (items_NoDup totals) Hfold name) as Hf.
  rewrite lookup_key_items, Hname in Hf.
  destruct (totals !! name) as [r|] eqn:Hr.
  - destruct Hf as (Hb & m & s & Hms & tot1 & Htot1 & Hratio & Hstd).
    simplify_eq. apply meanstdv_Ok in Hms as (_ & -> & Hlen).
    rewrite <- !Hview. unfold view at 1 2 3 4 5. rewrite Hr. simpl. done.
  - by rewrite Hf in Htot'.
Qed.

(** What the main loop of [process_messages] maintains: the totals of each
    message type describe the results seen so far. *)
Definition totals_describe (ttls : gmap string TypeTotals)
    (rs : list (string * gmap string CodecResult)) : Prop :=
  ∀ ty tt, ttls !! ty = Some tt →
    ty ∈ msg_types ∧
    (∀ name, is_Some (by_codec tt !! name) → is_codec name = true) ∧
    ∀ name, is_codec name = true →
      view (by_codec tt) name = (cumulative_size ty name rs, ratios_of ty name rs).

Lemma sizes_of_snoc ty name rs ty' results :
  sizes_of ty name (rs ++ [(ty', results)]) =
  sizes_of ty name rs ++
    (if bool_decide (ty' = ty) then option_to_list (r_size <$> results !! name) else []).
Proof.
  unfold sizes_of. rewrite omap_app. f_equal. simpl.
  case_bool_decide; [|done]. by destruct (results !! name).
Qed.

Lemma ratios_of_snoc ty name rs ty' results :
  ratios_of ty name (rs ++ [(ty', results)]) =
  ratios_of ty name rs ++
    (if bool_decide (ty' = ty) then option_to_list (results !! name ≫= r_ratio) else []).
Proof.
  unfold ratios_of. rewrite omap_app. f_equal. simpl.
  case_bool_decide; [|done]. by destruct (results !! name ≫= r_ratio).
Qed.

Lemma foldr_add_app (l1 l2 : list Z) :
  foldr Z.add 0 (l1 ++ l2) = foldr Z.add 0 l1 + foldr Z.add 0 l2.
Proof. induction l1; simpl; lia. Qed.

Lemma process_step_describe n ttls T m ttls' T' rs :
  totals_describe ttls rs →
  process_step n (ttls, T) m = Ok (ttls', T') →
  ∃ results, process_message T m.1.2 m.1.1 m.2 = Ok (results, T') ∧
    totals_describe ttls' (rs ++ [(m.1.1, results)]).
Proof.
  intros Hinv Hstep. destruct m as [[ty msg] host]. simpl in *.
  apply bind_Ok in Hstep as ([results T1] & Hpm & Hstep).
  apply bind_Ok in Hstep as (tt & Htt & Hstep).
  apply bind_Ok in Hstep as (totals & Hacc & [= <- <-]).
  exists results. split; [done|].
  destruct (ttls !! ty) as [tt0|] eqn:Hty; simplify_eq/=.
  destruct (Hinv _ _ Hty) as (Hmem & Hkeys & Hviews).
  destruct (accumulate_fold _ _ _ (items_NoDup results) Hacc Hkeys) as [Hkeys' Hviews'].
  intros ty' tt' Htt'. destruct (decide (ty' = ty)) as [->|Hne].
  - rewrite lookup_insert_eq in Htt'. simplify_eq/=. split_and!; [done..|].
    intros name Hname. specialize (Hviews' name Hname).
    rewrite lookup_key_items in Hviews'.
    unfold cumulative_size. rewrite sizes_of_snoc, ratios_of_snoc, foldr_add_app.
    rewrite bool_decide_eq_true_2 by done.
    pose proof (Hviews name Hname) as Hv0. unfold view, cumulative_size in Hv0.
    injection Hv0 as Hsz Hrl.
    destruct (results !! name) as [r|]; simpl.
    + destruct Hviews' as (ratio & -> & ->). simpl. rewrite Hsz, Hrl. f_equal. lia.
    + rewrite Hviews'. unfold view. rewrite Hsz, Hrl, !app_nil_r. f_equal. lia.
  - rewrite lookup_insert_ne in Htt' by done.
    destruct (Hinv _ _ Htt') as (? & ? & Hv). split_and!; [done..|].
    intros name Hname. unfold cumulative_size.
    rewrite sizes_of_snoc, ratios_of_snoc, bool_decide_eq_false_2 by done.
    rewrite !app_nil_r. by apply Hv.
Qed.

Lemma main_loop_describe n messages :
  ∀ ttls T ttls' T' rs0,
    totals_describe ttls rs0 →
    foldlM (process_step n) (ttls, T) messages = Ok (ttls', T') →
    ∃ rs, run_messages T messages = Ok (rs, T') ∧ rs.*1 = messages.*1.*1 ∧
      totals_describe ttls' (rs0 ++ rs).
Proof.
  induction messages as [|m messages IH]; intros ttls T ttls' T' rs0 Hinv Hrun; simpl in *.
  { simplify_eq. exists []. by rewrite app_nil_r. }
  apply bind_Ok in Hrun as ([ttls1 T1] & Hstep & Hrun).
  destruct (process_step_describe _ _ _ _ _ _ _ Hinv Hstep) as (results & Hpm & Hinv1).
  destruct (IH _ _ _ _ _ Hinv1 Hrun) as (rs & Hrs & Htys & Hinv2).
  exists ((m.1.1, results) :: rs). destruct m as [[ty msg] host]. simpl in *.
  rewrite Hpm. simpl. rewrite Hrs. simpl. split_and!; [done|by f_equal|].
  by rewrite <- app_assoc in Hinv2.
Qed.

Lemma initial_totals_describe :
  totals_describe
    (list_to_map ((fun ty => (ty, {| by_codec := ∅; _num := None |})) <$> msg_types)) [].
Proof.
  intros ty tt Hty. simpl in Hty.
  destruct (decide (ty = "req")) as [->|]; [|destruct (decide (ty = "res")) as [->|]].
  - rewrite lookup_insert_eq in Hty. simplify_eq/=.
    split_and!; [set_solver|by intros ? [? ?]|done].
  - rewrite lookup_insert_ne, lookup_insert_eq in Hty by done. simplify_eq/=.
    split_and!; [set_solver|by intros ? [? ?]|done].
  - by rewrite !lookup_insert_ne in Hty by done.
Qed.

(** What [process_messages] returns, in terms of the results of the
    messages. *)
Lemma process_messages_Ok T messages ttls T' :
  process_messages T messages = Ok (ttls, T') →
  ∃ rs, run_messages T messages = Ok (rs, T') ∧ rs.*1 = messages.*1.*1 ∧
    ∀ ty tt name tot,
      ttls !! ty = Some tt → by_codec tt !! name = Some tot → is_codec name = true →
      cumulative_size ty (baseline (options T')) rs ≠ 0 ∧
      t_ratio tot = Some (1 * float_of_Z (cumulative_size ty name rs)
                          / float_of_Z (cumulative_size ty (baseline (options T')) rs))%float ∧
      t_std tot = Some (sample_stdev (ratios_of ty name rs)) ∧
      (2 ≤ length (ratios_of ty name rs))%nat.
Proof.
  unfold process_messages. destruct messages as [|m messages].
  { intros [= <- <-]. exists []. split_and!; [done..|]. intros ???? Hty. by simplify_map_eq. }
  intros Hrun.
  apply bind_Ok in Hrun as ([ttls1 T1] & Hloop & Hrun).
  apply bind_Ok in Hrun as (ttls3 & Hfin & [= <- <-]).
  destruct (main_loop_describe _ _ _ _ _ _ _ initial_totals_describe Hloop)
    as (rs & Hrs & Htys & Hinv).
  exists rs. split_and!; [done..|]. simpl in Hinv.
  simpl in Hfin. apply bind_Ok in Hfin as (ttls2 & Hreq & Hres).
  apply bind_Ok in Hres as (ttls3' & Hres & [= <-]).
  unfold finish_type in Hreq, Hres.
  apply bind_Ok in Hreq as (tt_req & Htt_req & Hreq).
  apply bind_Ok in Hreq as (tt_req' & Hfreq & [= <-]).
  apply bind_Ok in Hres as (tt_res & Htt_res & Hres).
  apply bind_Ok in Hres as (tt_res' & Hfres & [= <-]).
  rewrite lookup_insert_ne in Htt_res by done.
  destruct (ttls1 !! "req") as [tq|] eqn:Hq; simplify_eq/=.
  destruct (ttls1 !! "res") as [ts|] eqn:Hs; simplify_eq/=.
  assert (∀ ty tt0 tt name tot,
            ttls1 !! ty = Some tt0 → finish (baseline (options T1)) tt0 = Ok tt →
            by_codec tt !! name = Some tot → is_codec name = true →
            cumulative_size ty (baseline (options T1)) rs ≠ 0 ∧
            t_ratio tot = Some (1 * float_of_Z (cumulative_size ty name rs)
                          / float_of_Z (cumulative_size ty (baseline (options T1)) rs))%float ∧
            t_std tot = Some (sample_stdev (ratios_of ty name rs)) ∧
            (2 ≤ length (ratios_of ty name rs))%nat) as Hmain.
  { intros ty tt0 tt name tot Hty Hf Htot Hname.
    destruct (Hinv _ _ Hty) as (_ & Hkeys & Hviews).
    destruct (finish_Ok _ _ _ Hf _ _ Htot Hname) as (Hb & Hratio & Hstd & Hlen).
    assert (is_codec (baseline (options T1)) = true) as Hbase.
    { apply Hkeys. unfold view in Hb.
      destruct (by_codec tt0 !! baseline (options T1)); [done|]. by simpl in Hb. }
    rewrite (Hviews _ Hname) in Hratio, Hstd, Hlen.
    rewrite (Hviews _ Hbase) in Hb, Hratio. done. }
  intros ty tt name tot Hty Htot Hname.
  destruct (decide (ty = "res")) as [->|Hnres].
  { rewrite lookup_insert_eq in Hty. simplify_eq. eapply Hmain; eauto. }
  rewrite lookup_insert_ne in Hty by done.
  destruct (decide (ty = "req")) as [->|Hnreq].
  { rewrite lookup_insert_eq in Hty. simplify_eq. eapply Hmain; eauto. }
  rewrite lookup_insert_ne in Hty by done.
  destruct (Hinv _ _ Hty) as (Hmem & _). set_solver.
Qed.

(** The options of the tester do not change. *)
Lemma get_compressors_options T : options (get_compressors T).2 = options T.
Proof. unfold get_compressors. by destruct (foldl _ _ _). Qed.

(** The three ways in which [get_connection] returns. *)
Lemma get_connection_Ok T host c T' :
  get_connection T host = Ok (c, T') →
  (T' = T ∧
   (lookup_key host (connections T) = Some c ∨
    lookup_key host (connections T) = None ∧
    ∃ i, list_find (fun c => matches c host = true) (dict_order (connections T)).*2
         = Some (i, c))) ∨
  (lookup_key host (connections T) = None ∧
   list_find (fun c => matches c host = true) (dict_order (connections T)).*2 = None ∧
   Connection_init host (get_compressors T).1 (opt_glob (options (get_compressors T).2))
   = Ok c ∧
   T' = set_connections (get_compressors T).2
          (setitem host c (connections (get_compressors T).2))).
Proof.
  unfold get_connection. destruct (lookup_key _ _) as [c0|] eqn:Hkey.
  { intros [= <- <-]. left. by eauto. }
  destruct (list_find _ _) as [[i c0]|] eqn:Hfind.
  { intros [= <- <-]. left. by eauto. }
  destruct (get_compressors T) as [compressors T1]. simpl.
  intros (conn & Hinit & [= <- <-])%bind_Ok. by right.
Qed.

Lemma get_connection_options T host c T' :
  get_connection T host = Ok (c, T') → options T' = options T.
Proof.
  intros [[-> _]|(_ & _ & _ & ->)]%get_connection_Ok; [done|].
  apply get_compressors_options.
Qed.

Lemma process_one_options msg host acc item acc' :
  process_one msg host acc item = Ok acc' → options acc'.2 = options acc.2.
Proof.
  destruct acc as [results T], item as [name pl]. unfold process_one. intros Hrun.
  apply bind_Ok in Hrun as (processor & _ & Hrun).
  apply bind_Ok in Hrun as ([[compressed st] σ] & _ & Hrun).
  unfold after_compress in Hrun.
  apply bind_Ok in Hrun as ([decompressed T1] & Hd & Hrun).
  apply bind_Ok in Hrun as ([decompressed' T2] & Hc & [= <-]). simpl.
  assert (options T1 = options T) as HT1.
  { unfold try_decompress in Hd.
    destruct (proc_decompress _ _ _) as [[??]|[]]; simplify_eq/=; try done.
    by case_bool_decide. }
  unfold check_roundtrip in Hc.
  destruct (truthy decompressed); simplify_eq/=; [|done].
  apply bind_Ok in Hc as (message & _ & Hc).
  apply bind_Ok in Hc as ([[??]?] & _ & [= <- <-]). done.
Qed.

Lemma process_message_options T msg ty host results T' :
  process_message T msg ty host = Ok (results, T') → options T' = options T.
Proof.
  unfold process_message. intros Hrun.
  apply bind_Ok in Hrun as ([connection T0] & Hgc%get_connection_options & Hrun).
  apply bind_Ok in Hrun as (procs & _ & Hrun).
  apply bind_Ok in Hrun as ([results1 T1] & Hloop & Hrun).
  apply bind_Ok in Hrun as (results2 & _ & [= <- <-]).
  rewrite <- Hgc.
  apply (foldlM_ind (fun acc _ => options acc.2 = options T0) (process_one msg host)
           procs procs [] (∅, T0) (results1, T1)); [done..| |done].
  intros b x b' seen rest _ Hb Hstep. by rewrite (process_one_options _ _ _ _ _ Hstep).
Qed.

Lemma run_messages_options messages :
  ∀ T rs T', run_messages T messages = Ok (rs, T') → options T' = options T.
Proof.
  induction messages as [|[[ty msg] host] messages IH]; intros T rs T' Hrun; simpl in *.
  { by simplify_eq. }
  apply bind_Ok in Hrun as ([results T1] & Hpm & Hrun).
  apply bind_Ok in Hrun as ([rs1 T2] & Hrs & [= <- <-]).
  rewrite (IH _ _ _ Hrs). by eapply process_message_options.
Qed.

(** After [finish], the baseline has an entry. *)
Lemma finish_baseline (baseline : string) (tt tt' : TypeTotals) :
  finish baseline tt = Ok tt' → is_codec baseline = true →
  is_Some (by_codec tt' !! baseline).
Proof.
  unfold finish. intros Hrun Hbase.
  destruct (_ && _); [done|].
  apply bind_Ok in Hrun as (acc' & Hfold & [= <-]). simpl.
  pose proof (finish_fold _ _ _ _ (items_NoDup _) Hfold baseline) as Hf.
  rewrite lookup_key_items, Hbase in Hf.
  destruct (by_codec tt !! baseline) as [t|] eqn:Hb.
  - rewrite Hb in Hf. destruct Hf as (_ & _ & _ & _ & tot' & -> & _). done.
  - rewrite lookup_insert_eq in Hf. destruct Hf as (_ & _ & _ & _ & tot' & -> & _). done.
Qed.

Lemma process_messages_baseline T messages ttls T' ty :
  process_messages T messages = Ok (ttls, T') →
  messages ≠ [] → ty ∈ msg_types → is_codec (baseline (options T')) = true →
  ∃ tt, ttls !! ty = Some tt ∧ is_Some (by_codec tt !! baseline (options T')).
Proof.
  unfold process_messages. destruct messages as [|m messages]; [done|].
  intros Hrun _ Hty Hbase.
  apply bind_Ok in Hrun as ([ttls1 T1] & Hloop & Hrun).
  apply bind_Ok in Hrun as (ttls3 & Hfin & [= <- <-]).
  simpl in Hfin. apply bind_Ok in Hfin as (ttls2 & Hreq & Hres).
  apply bind_Ok in Hres as (ttls3' & Hres & [= <-]).
  unfold finish_type in Hreq, Hres.
  apply bind_Ok in Hreq as (tt_req & Htt_req & Hreq).
  apply bind_Ok in Hreq as (tt_req' & Hfreq & [= <-]).
  apply bind_Ok in Hres as (tt_res & Htt_res & Hres).
  apply bind_Ok in Hres as (tt_res' & Hfres & [= <-]).
  assert (ty = "req" ∨ ty = "res") as [-> | ->] by set_solver.
  - exists tt_req'. rewrite lookup_insert_ne, lookup_insert_eq by done.
    split; [done|]. by eapply finish_baseline.
  - exists tt_res'. rewrite lookup_insert_eq. split; [done|]. by eapply finish_baseline.
Qed.

Lemma ratios_of_length ty name rs :
  (length (ratios_of ty name rs) ≤ length (filter (fun t => t = ty) rs.*1))%nat.
Proof.
  induction rs as [|[ty' results] rs IH]; simpl; [done|].
  rewrite filter_cons. simpl. case_bool_decide; case_decide; try done.
  destruct (results !! name ≫= r_ratio); simpl;
    [apply le_n_S|apply Nat.le_le_succ_r]; exact IH.
Qed.

End Aggregation.

(** A tester with two instances of the delta codec, and the traffic of two
    exchanges with one host. *)
Definition demo_options : Options :=
  {| verbose := 0; baseline := "simple"; multiplex := []; opt_glob := true;
     tsv := false; opt_prefix := "" |}.

Definition demo_request : headers :=
  list_to_map [(":method", "GET"); (":path", "/"); (":version", "HTTP/1.1");
               (":scheme", "http"); (":host", "example.com");
               ("te", "trailers"); ("cookie", "b=2; a=1");
               ("connection", "x-a  close"); ("x-a", "1")].

Definition demo_response : headers :=
  list_to_map [(":status", "200"); (":status-text", "OK"); (":version", "HTTP/1.1");
               ("date", "Sun, 06 Nov 1994 08:49:37 GMT"); ("content-type", "text/html")].

Definition demo_tester : Tester :=
  {| options := demo_options;
     codec_modules := {[ "simple" := (simple_module, []); "zsimple" := (simple_module, []) ]};
     connections := [];
     objects := [];
     dicts := {[ 1%nat := demo_request; 2%nat := demo_response;
                 3%nat := demo_request; 4%nat := demo_response ]};
     warned := {[ "http1_gzip" := true ]} |}.

Definition demo_messages : list (string * nat * string) :=
  [("req", 1%nat, "example.com"); ("res", 2%nat, "example.com");
   ("req", 3%nat, "www.example.com"); ("res", 4%nat, "www.example.com")].

Lemma demo_run_ok : is_ok (process_messages demo_tester demo_messages) = true.
Proof. vm_compute. reflexivity. Qed.

Lemma demo_pair_aborts :
  process_messages demo_tester (take 2 demo_messages) = Raise ZeroDivisionError.
Proof. vm_compute. reflexivity. Qed.



(** The figures of the specification: 250 bytes against a baseline of 1000
    give the ratio 0.25; over the ratios 0.2, 0.3, 0.25 the squared
    deviations are summed and divided by 2. *)
Example ratio_example : (1 * float_of_Z 250 / float_of_Z 1000)%float = 0.25%float.
Proof. vm_compute. reflexivity. Qed.

Example stdev_example :
  let l := [0x1.999999999999ap-3; 0x1.3333333333333p-2; 0.25]%float in
  meanstdv l = Ok (0.25%float, sample_stdev l) ∧
  sample_stdev l =
    PrimFloat.sqrt (((0x1.999999999999ap-3 - 0.25) * (0x1.999999999999ap-3 - 0.25)
                     + (0x1.3333333333333p-2 - 0.25) * (0x1.3333333333333p-2 - 0.25)
                     + (0.25 - 0.25) * (0.25 - 0.25)) / 2)%float.
Proof. vm_compute. split; reflexivity. Qed.



(** ** The delta codec: references on the receiving side *)

Definition nl : string := String PyStr.LF "".

Section Decompress.

Context `{PyLib}.



End Decompress.




(** ** The delta codec: the sending side *)

(** A metadata name starts with a colon. *)
Definition is_meta (name : string) : bool :=
  match name with
  | String c _ => PyStr.ascii_eqb c ":"
  | EmptyString => false
  end.

(** The two-digit year rule of [parse_date]. *)
Definition century (year : Z) : Z :=
  if year <? 100 then (if 68 <? year then year + 1900 else year + 2000) else year.

Lemma lookups_table_NoDup : NoDup lookups_table.*1 ∧ NoDup lookups_table.*2.
Proof. split; apply (bool_decide_unpack _); vm_compute; exact I. Qed.

Lemma lookups_spec (name tok : string) :
  lookups !! name = Some tok ↔ (name, tok) ∈ lookups_table.
Proof.
  unfold lookups. split.
  - apply elem_of_list_to_map_2.
  - apply elem_of_list_to_map_1, lookups_table_NoDup.
Qed.

Lemma lookups_tokens (name tok : string) :
  lookups !! name = Some tok →
  is_meta name = false ∧ is_meta tok = false ∧ tok ≠ "ref" ∧ tok ≠ "host" ∧
  PyStr.head tok ≠ Ok "!"%char ∧ name ≠ "" ∧ tok ≠ "".
Proof.
  intros Hin%lookups_spec. revert name tok Hin.
  assert (Forall (fun nt : string * string =>
            is_meta nt.1 = false ∧ is_meta nt.2 = false ∧ nt.2 ≠ "ref" ∧ nt.2 ≠ "host" ∧
            PyStr.head nt.2 ≠ Ok "!"%char ∧ nt.1 ≠ "" ∧ nt.2 ≠ "") lookups_table) as Hall.
  { apply (bool_decide_unpack _). vm_compute. exact I. }
  intros name tok Hin. by apply (proj1 (Forall_forall _ _) Hall (name, tok)).
Qed.

Lemma lookups_inj (n1 n2 tok : string) :
  lookups !! n1 = Some tok → lookups !! n2 = Some tok → n1 = n2.
Proof.
  intros H1%lookups_spec H2%lookups_spec.
  destruct lookups_table_NoDup as [_ Hnd].
  apply list_elem_of_lookup in H1 as [i Hi], H2 as [j Hj].
  assert (i = j) as ->.
  { eapply NoDup_lookup; [exact Hnd| |]; rewrite list_lookup_fmap; [by rewrite Hi|by rewrite Hj]. }
  congruence.
Qed.

#[local] Opaque lookups.

(** The cases of [hdr_name]. *)
Lemma hdr_name_Ok (name tok : string) :
  hdr_name name = Ok tok ↔
  name ≠ "" ∧
  (if is_meta name then tok = name
   else match lookups !! name with Some t => tok = t | None => tok = String "!" name end).
Proof.
  unfold hdr_name. destruct name as [|c name]; simpl; [naive_solver|].
  destruct (PyStr.ascii_eqb c ":").
  - naive_solver.
  - destruct (lookups !! String c name); simpl; naive_solver.
Qed.

Lemma hdr_name_is_Some (name : string) : name ≠ "" → ∃ tok, hdr_name name = Ok tok.
Proof.
  intros Hne. destruct name as [|c name]; [done|]. unfold hdr_name. simpl.
  destruct (PyStr.ascii_eqb c ":"); eauto.
Qed.

Lemma hdr_name_meta (name tok : string) :
  hdr_name name = Ok tok → is_meta tok = is_meta name.
Proof.
  intros [Hne Hcase]%hdr_name_Ok. destruct (is_meta name) eqn:Hm; [by subst|].
  destruct (lookups !! name) eqn:Hl; subst; [|done].
  by apply lookups_tokens in Hl as (_ & ? & _).
Qed.

Lemma hdr_name_inj (n1 n2 tok : string) :
  hdr_name n1 = Ok tok → hdr_name n2 = Ok tok → n1 = n2.
Proof.
  intros H1 H2.
  pose proof (hdr_name_meta _ _ H1) as Hm1. pose proof (hdr_name_meta _ _ H2) as Hm2.
  apply hdr_name_Ok in H1 as [_ H1], H2 as [_ H2].
  rewrite <- Hm1 in H1. rewrite <- Hm2 in H2.
  destruct (is_meta tok); [congruence|].
  destruct (lookups !! n1) as [t1|] eqn:Hl1, (lookups !! n2) as [t2|] eqn:Hl2; subst.
  - by eapply lookups_inj.
  - apply lookups_tokens in Hl1 as (_ & _ & _ & _ & Hbang & _). by simpl in Hbang.
  - apply lookups_tokens in Hl2 as (_ & _ & _ & _ & Hbang & _). by simpl in Hbang.
  - congruence.
Qed.

Lemma hdr_name_not_ref (name tok : string) : hdr_name name = Ok tok → tok ≠ "ref".
Proof.
  intros [Hne Hcase]%hdr_name_Ok. destruct (is_meta name) eqn:Hm.
  - subst. by intros ->.
  - destruct (lookups !! name) eqn:Hl; subst; [|done].
    by apply lookups_tokens in Hl as (_ & _ & ? & _).
Qed.

Lemma mapM_Ok {A B} (f : A → result B) (l : list A) (k : list B) :
  mapM f l = Ok k ↔ Forall2 (fun x y => f x = Ok y) l k.
Proof.
  revert k. induction l as [|x l IH]; intros k; simpl.
  - split; [intros [= <-]; constructor|by inversion 1].
  - split.
    + intros (y & Hy & Hk)%bind_Ok. apply bind_Ok in Hk as (k' & Hk' & [= <-]).
      constructor; [done|by apply IH].
    + inversion 1 as [|? y ? k' Hy Hk']; subst. rewrite Hy. simpl.
      apply IH in Hk'. by rewrite Hk'.
Qed.

Section Compress.

Context `{PyLib}.

(** What [compress] emits for the value of a date header. *)
Definition date_field (value : string) : string :=
  match parse_date value with
  | Ok t => PyStr.hex t
  | Raise _ => value
  end.

(** Whether [compress] replaces the header by a reference. *)
Definition is_ref (last : option headers) (name value : string) : bool :=
  negb (bool_decide (name ∈ date_hdrs)) && truthy last && negb (is_meta name)
  && bool_decide ((last ≫= (.!! name)) = Some value).

(** What [compress] emits for a header that it does not replace. *)
Definition field (name value : string) : string :=
  if bool_decide (name ∈ date_hdrs) then date_field value else value.

Lemma parse_date_Ok (value : string) (t : Z) :
  parse_date value = Ok t ↔
  Rx.DATE_match value = true ∧
  ∃ year rest, lib_parsedate value = Some (year, rest) ∧ timegm (century year, rest) = Some t.
Proof.
  unfold parse_date, century. destruct (Rx.DATE_match value); simpl; [|naive_solver].
  destruct (lib_parsedate value) as [[year rest]|]; [|naive_solver].
  split.
  - intros Ht. split; [done|]. exists year, rest. split; [done|].
    destruct (year <? 100); [destruct (68 <? year)|]; by destruct (timegm _); simplify_eq/=.
  - intros (_ & year' & rest' & [= <- <-] & Ht).
    destruct (year <? 100); [destruct (68 <? year)|]; by rewrite Ht.
Qed.

Lemma compress_step_Ok last hdrs refs name value hdrs' refs' :
  compress_step last (hdrs, refs) (name, value) = Ok (hdrs', refs') →
  ∃ tok, hdr_name name = Ok tok ∧
    if is_ref last name value then hdrs' = hdrs ∧ refs' = refs ++ [name]
    else hdrs' = <[tok := field name value]> hdrs ∧ refs' = refs.
Proof.
  unfold compress_step, is_ref, field, date_field.
  case_bool_decide as Hdate; simpl.
  - intros (tok & Htok & Hstep)%bind_Ok. exists tok. split; [done|].
    destruct (parse_date value); by simplify_eq.
  - intros (b & Hb & Hstep)%bind_Ok.
    destruct (truthy last) eqn:Htruthy; simpl in *.
    + apply bind_Ok in Hb as (c & Hc & [= <-]).
      destruct name as [|c' name]; simplify_eq/=.
      destruct (hdr_name_is_Some (String c name)) as [tok Htok]; [done|].
      exists tok. split; [done|].
      destruct (PyStr.ascii_eqb c ":"); simpl in *.
      * rewrite Htok in Hstep. by simplify_eq/=.
      * case_bool_decide; simpl in *; [by simplify_eq|].
        rewrite Htok in Hstep. by simplify_eq/=.
    + simplify_eq. apply bind_Ok in Hstep as (tok & Htok & [= <- <-]). eauto.
Qed.

(** The loop of [compress], when it completes. *)
Lemma compress_fold last (l : list (string * string)) hdrs refs :
  NoDup l.*1 →
  foldlM (compress_step last) (∅, []) l = Ok (hdrs, refs) →
  refs = (filter (fun nv => is_ref last nv.1 nv.2 = true) l).*1 ∧
  (∀ name value, (name, value) ∈ l →
     ∃ tok, hdr_name name = Ok tok ∧
       hdrs !! tok = if is_ref last name value then None else Some (field name value)) ∧
  (∀ k, (∀ name value, (name, value) ∈ l → hdr_name name ≠ Ok k) → hdrs !! k = None).
Proof.
  intros Hnd Hrun.
  apply (foldlM_ind
    (fun acc seen =>
       acc.2 = (filter (fun nv => is_ref last nv.1 nv.2 = true) seen).*1 ∧
       (∀ name value, (name, value) ∈ seen →
          ∃ tok, hdr_name name = Ok tok ∧
            acc.1 !! tok = if is_ref last name value then None else Some (field name value)) ∧
       (∀ k, (∀ name value, (name, value) ∈ seen → hdr_name name ≠ Ok k) → acc.1 !! k = None))
    (compress_step last) l l [] (∅, []) (hdrs, refs)); [done| | |done].
  { simpl. split_and!; [done|set_solver|done]. }
  clear hdrs refs Hrun.
  intros [hdrs refs] [name value] [hdrs' refs'] seen rest Hl (Hrefs & Hin & Hout) Hstep.
  simpl in *. subst l.
  assert (name ∉ seen.*1) as Hfresh.
  { rewrite fmap_app, fmap_cons in Hnd. apply NoDup_app in Hnd as (_ & Hnd & _).
    intros Hmem. eapply Hnd; [exact Hmem|]. left. }
  apply compress_step_Ok in Hstep as (tok & Htok & Hcase).
  assert (∀ n v t, (n, v) ∈ seen → hdr_name n = Ok t → t ≠ tok) as Hne.
  { intros n v t Hmem Ht ->. apply Hfresh.
    rewrite (hdr_name_inj _ _ _ Htok Ht). apply list_elem_of_fmap. by exists (n, v). }
  assert (hdrs !! tok = None) as Htok_none.
  { apply Hout. intros n v Hmem Hn. by eapply Hne. }
  rewrite filter_app, fmap_app, filter_cons, filter_nil. simpl.
  destruct (is_ref last name value) eqn:Href; destruct Hcase as [-> ->].
  - rewrite decide_True by done. simpl. split_and!.
    + by rewrite Hrefs.
    + intros n v [Hmem|Hmem%list_elem_of_singleton]%elem_of_app; [by apply Hin|].
      simplify_eq. exists tok. by rewrite Href.
    + intros k Hk. apply Hout. intros n v Hmem. apply (Hk n v). set_solver.
  - rewrite decide_False by done. simpl. rewrite app_nil_r. split_and!.
    + done.
    + intros n v [Hmem|Hmem%list_elem_of_singleton]%elem_of_app.
      * destruct (Hin n v Hmem) as (t & Ht & Hlook). exists t. split; [done|].
        rewrite lookup_insert_ne; [done|]. intros <-. by eapply Hne.
      * simplify_eq. exists tok. by rewrite Href, lookup_insert_eq.
    + intros k Hk. rewrite lookup_insert_ne.
      * apply Hout. intros n v Hmem. apply (Hk n v). set_solver.
      * intros <-. eapply (Hk name value); [set_solver|done].
Qed.

Lemma compress_step_total last acc name value :
  name ≠ "" → ∃ acc', compress_step last acc (name, value) = Ok acc'.
Proof.
  intros Hne. destruct acc as [hdrs refs].
  destruct (hdr_name_is_Some name Hne) as [tok Htok].
  unfold compress_step. rewrite Htok. simpl.
  destruct name as [|c name]; [done|]. simpl.
  case_bool_decide; [destruct (parse_date value); eauto|].
  destruct (truthy last); simpl; [|eauto].
  destruct (_ && _); simpl; eauto.
Qed.

Lemma foldlM_total {A B} (f : B → A → result B) (l : list A) :
  (∀ x b, x ∈ l → ∃ b', f b x = Ok b') → ∀ b, ∃ b', foldlM f b l = Ok b'.
Proof.
  induction l as [|x l IH]; intros Hf b; simpl; [eauto|].
  destruct (Hf x b) as [b1 ->]; [set_solver|]. simpl.
  apply IH. intros y b' Hy. apply Hf. set_solver.
Qed.

(** What [compress] hands to [format_http1]. *)
Lemma encode_headers_Ok last (stripped hdrs : headers) :
  encode_headers last stripped = Ok hdrs →
  (∀ name value, stripped !! name = Some value →
     ∃ tok, hdr_name name = Ok tok ∧
       hdrs !! tok = if is_ref last name value then None else Some (field name value)) ∧
  ∃ toks,
    Forall2 (fun name tok => hdr_name name = Ok tok)
      (filter (fun nv => is_ref last nv.1 nv.2 = true) (items stripped)).*1 toks ∧
    hdrs !! "ref" = match toks with [] => None | _ => Some (PyStr.join "," toks) end.
Proof.
  unfold encode_headers. intros Hrun.
  apply bind_Ok in Hrun as ([hdrs0 refs] & Hfold & Hrun).
  apply compress_fold in Hfold as (-> & Hin & Hout); [|apply items_NoDup].
  assert (hdrs0 !! "ref" = None) as Href0.
  { apply Hout. intros n v _ Hn. by apply hdr_name_not_ref in Hn. }
  destruct ((filter _ (items stripped)).*1) as [|r refs] eqn:Hrefs.
  - simplify_eq. split.
    + intros name value Hl. apply Hin. by apply elem_of_items.
    + exists []. split; [constructor|done].
  - apply bind_Ok in Hrun as (toks & Htoks%mapM_Ok & [= <-]). split.
    + intros name value Hl%elem_of_items. destruct (Hin _ _ Hl) as (tok & Htok & Hlook).
      exists tok. split; [done|]. rewrite lookup_insert_ne; [done|].
      intros <-. by apply hdr_name_not_ref in Htok.
    + exists toks. split; [done|]. rewrite lookup_insert_eq.
      inversion Htoks; by subst.
Qed.

Lemma mapM_hdr_name_total (names : list string) :
  Forall (fun name => name ≠ "") names → ∃ toks, mapM hdr_name names = Ok toks.
Proof.
  induction 1 as [|name names Hname _ [toks Htoks]]; [by exists []|].
  destruct (hdr_name_is_Some name Hname) as [tok Htok].
  exists (tok :: toks). simpl. rewrite Htok. simpl. by rewrite Htoks.
Qed.

Lemma encode_headers_total last (stripped : headers) :
  stripped !! "" = None → ∃ hdrs, encode_headers last stripped = Ok hdrs.
Proof.
  intros Hnames. unfold encode_headers.
  destruct (foldlM_total (compress_step last) (items stripped)) with (b := (∅ : headers, @nil string))
    as [[hdrs refs] Hfold].
  { intros [name value] acc Hin%elem_of_items. apply compress_step_total.
    intros ->. congruence. }
  rewrite Hfold. simpl.
  apply compress_fold in Hfold as (-> & Hin & _); [|apply items_NoDup].
  destruct (mapM_hdr_name_total
              (filter (fun nv => is_ref last nv.1 nv.2 = true) (items stripped)).*1)
    as [toks Htoks].
  { apply Forall_forall. intros name ([n v] & -> & Hmem%list_elem_of_filter)%list_elem_of_fmap.
    destruct Hmem as [_ Hmem%elem_of_items]. simpl. intros ->. congruence. }
  destruct (filter _ (items stripped)).*1 as [|r refs]; [eauto|].
  rewrite Htoks. simpl. eauto.
Qed.

Lemma encode_headers_names last (stripped hdrs : headers) :
  encode_headers last stripped = Ok hdrs → stripped !! "" = None.
Proof.
  intros (Hin & _)%encode_headers_Ok.
  destruct (stripped !! "") as [v|] eqn:Hv; [|done].
  destruct (Hin _ _ Hv) as (tok & [Hne _]%hdr_name_Ok & _). done.
Qed.

(** Metadata goes through unchanged. *)
Lemma encode_headers_meta last (stripped hdrs : headers) (k : string) :
  encode_headers last stripped = Ok hdrs → is_meta k = true → hdrs !! k = stripped !! k.
Proof.
  intros Hrun Hk.
  destruct (stripped !! k) as [v|] eqn:Hv.
  - apply encode_headers_Ok in Hrun as (Hin & _).
    destruct (Hin _ _ Hv) as (tok & [_ Htok]%hdr_name_Ok & Hlook).
    rewrite Hk in Htok. subst tok. rewrite Hlook.
    unfold is_ref, field. rewrite Hk. simpl. rewrite andb_false_r. simpl.
    rewrite bool_decide_eq_false_2; [done|].
    intros Hd. unfold date_hdrs in Hd.
    repeat (apply elem_of_cons in Hd as [->|Hd]; [done|]). by apply elem_of_nil in Hd.
  - unfold encode_headers in Hrun.
    apply bind_Ok in Hrun as ([hdrs0 refs] & Hfold & Hrun).
    apply compress_fold in Hfold as (_ & _ & Hout); [|apply items_NoDup].
    assert (hdrs0 !! k = None) as Hk0.
    { apply Hout. intros n v Hmem%elem_of_items Hn.
      pose proof (hdr_name_meta _ _ Hn) as Hm. rewrite Hk in Hm.
      apply hdr_name_Ok in Hn as [_ Hn]. rewrite <- Hm in Hn. congruence. }
    destruct refs; simplify_eq; [done|].
    apply bind_Ok in Hrun as (toks & _ & [= <-]).
    rewrite lookup_insert_ne; [done|]. by intros <-.
Qed.

(** *** Hop-by-hop stripping *)

(** The names that [strip_conn_headers] deletes. *)
Definition removed (hdrs : headers) : list string :=
  match hdrs !! "connection" with
  | Some v => "connection" :: hop_by_hop ++ (PyStr.strip <$> PyStr.split_ws v)
  | None => hop_by_hop
  end.

Lemma lookup_foldl_delete (l : list string) (m : headers) (k : string) :
  foldl (fun h hdr => delete hdr h) m l !! k = if bool_decide (k ∈ l) then None else m !! k.
Proof.
  revert m. induction l as [|x l IH]; intros m; simpl; [done|].
  rewrite IH. destruct (decide (k = x)) as [->|Hne].
  - rewrite lookup_delete_eq, (bool_decide_eq_true_2 (x ∈ x :: l)) by set_solver.
    by case_bool_decide.
  - rewrite lookup_delete_ne by done.
    case_bool_decide as Hl.
    + rewrite bool_decide_eq_true_2; [done|set_solver].
    + rewrite bool_decide_eq_false_2; [done|set_solver].
Qed.

Lemma strip_conn_headers_lookup (hdrs : headers) (k : string) :
  strip_conn_headers hdrs !! k = if bool_decide (k ∈ removed hdrs) then None else hdrs !! k.
Proof.
  unfold strip_conn_headers, removed.
  destruct (hdrs !! "connection") as [v|] eqn:Hc; rewrite lookup_foldl_delete.
  - destruct (decide (k = "connection")) as [->|Hne].
    + rewrite lookup_delete_eq, (bool_decide_eq_true_2 (_ ∈ _ :: _)) by set_solver.
      by case_bool_decide.
    + rewrite lookup_delete_ne by done. case_bool_decide as Hl.
      * rewrite bool_decide_eq_true_2; [done|set_solver].
      * rewrite bool_decide_eq_false_2; [done|set_solver].
  - done.
Qed.

Lemma strip_conn_headers_idemp (hdrs : headers) :
  strip_conn_headers (strip_conn_headers hdrs) = strip_conn_headers hdrs.
Proof.
  apply map_eq. intros k. rewrite (strip_conn_headers_lookup (strip_conn_headers hdrs)).
  assert (strip_conn_headers hdrs !! "connection" = None) as Hc.
  { rewrite strip_conn_headers_lookup. unfold removed.
    destruct (hdrs !! "connection") eqn:Hc; [|by case_bool_decide].
    rewrite bool_decide_eq_true_2; [done|set_solver]. }
  assert (removed (strip_conn_headers hdrs) = hop_by_hop) as ->.
  { unfold removed. by rewrite Hc. }
  case_bool_decide as Hk; [|done].
  rewrite strip_conn_headers_lookup, bool_decide_eq_true_2; [done|].
  unfold removed. destruct (hdrs !! "connection"); set_solver.
Qed.

(** *** [compress] *)

Lemma compress_Ok (σ : store) (self : DeltaProcessor) (l : nat) (host out : string)
    (self' : DeltaProcessor) (σ' : store) :
  compress σ self l host = Ok (out, self', σ') ↔
  ∃ in_headers hdrs,
    σ !! l = Some in_headers ∧
    σ' = <[l := strip_conn_headers in_headers]> σ ∧
    self' = {| last_c := Some l; last_d := last_d self |} ∧
    encode_headers (last_c self ≫= (σ' !!.)) (strip_conn_headers in_headers) = Ok hdrs ∧
    format_http1 hdrs nl ":" "host" = Ok out.
Proof.
  unfold compress. split.
  - intros (in_headers & Hin & Hrun)%bind_Ok.
    apply bind_Ok in Hrun as (hdrs & Hhdrs & Hrun).
    apply bind_Ok in Hrun as (out' & Hout & [= <- <- <-]).
    destruct (σ !! l) eqn:Hl; simplify_eq/=. eauto 10.
  - intros (in_headers & hdrs & -> & -> & -> & Hhdrs & Hout). simpl.
    rewrite Hhdrs. simpl. unfold nl in Hout. by rewrite Hout.
Qed.

Lemma format_http1_total (f1 f2 : headers) (d v h o1 : string) :
  (∀ k, is_meta k = true → f2 !! k = f1 !! k) →
  format_http1 f1 d v h = Ok o1 → ∃ o2, format_http1 f2 d v h = Ok o2.
Proof.
  intros Hmeta. unfold format_http1, getitem.
  rewrite !(Hmeta ":method"), !(Hmeta ":path"), !(Hmeta ":version"),
    !(Hmeta ":status"), !(Hmeta ":status-text") by done.
  intros ([top avoid] & Htop & _)%bind_Ok. rewrite Htop. simpl. eauto.
Qed.

(** *** Dates *)

(** Lower-case hexadecimal digits, and the sign of a negative number. *)
Definition lower_hex_char (c : ascii) : bool :=
  let n := N_of_ascii c in
  (((48 <=? n) && (n <=? 57)) || ((97 <=? n) && (n <=? 102)) || (n =? 45))%N.

Fixpoint all_chars (P : ascii → bool) (s : string) : bool :=
  match s with
  | EmptyString => true
  | String c t => P c && all_chars P t
  end.

Fixpoint of_pos_lower (p : positive) (rest : string) {struct p} :
  all_chars lower_hex_char rest = true →
  all_chars lower_hex_char (HexString.Raw.of_pos p rest) = true.
Proof.
  intros Hrest.
  do 4 try destruct p as [p|p|]; try (cbn; exact Hrest);
    cbn [HexString.Raw.of_pos]; apply of_pos_lower; cbn; exact Hrest.
Qed.

Lemma hex_lower (n : Z) : all_chars lower_hex_char (PyStr.hex n) = true.
Proof. destruct n as [|p|p]; simpl; [done|by apply of_pos_lower..]. Qed.

Lemma date_hdrs_lookups (name : string) :
  name ∈ date_hdrs → ∃ tok, lookups !! name = Some tok ∧ hdr_name name = Ok tok.
Proof.
  unfold date_hdrs. intros Hd.
  repeat (apply elem_of_cons in Hd as [->|Hd]; [eexists; split; vm_compute; reflexivity|]).
  by apply elem_of_nil in Hd.
Qed.

(** C7 (amended). For the value of a recognized date header
    ([last-modified], [date], [expires]), [compress] emits under the
    header's token: the seconds since the epoch in lower-case hexadecimal
    when [parse_date] accepts the value, that is when the value matches one
    of the three date patterns, the library's date parser returns a time
    tuple for it and the tuple converts to a time stamp, a year below 100
    counting as 1900 + year when above 68 and as 2000 + year otherwise; and
    the value itself, unchanged, in every other case (a value that matches
    none of the patterns, or one that matches but that the parser rejects).
    This step does not raise. *)
Theorem C7_date_headers (last : option headers) (name value : string) :
  name ∈ date_hdrs →
  (∃ tok, lookups !! name = Some tok ∧
     (∀ acc, compress_step last acc (name, value)
             = Ok (<[tok := date_field value]> acc.1, acc.2)) ∧
     (∀ stripped hdrs, encode_headers last stripped = Ok hdrs →
        stripped !! name = Some value → hdrs !! tok = Some (date_field value))) ∧
  (∀ t, parse_date value = Ok t ↔
        Rx.DATE_match value = true ∧
        ∃ year rest, lib_parsedate value = Some (year, rest) ∧
                     timegm (century year, rest) = Some t) ∧
  (∀ t, parse_date value = Ok t →
        date_field value = PyStr.hex t ∧ all_chars lower_hex_char (date_field value) = true) ∧
  ((∀ t, parse_date value ≠ Ok t) → date_field value = value) ∧
  (Rx.DATE_match value = false ∨ lib_parsedate value = None → ∀ t, parse_date value ≠ Ok t).
Proof.
  intros Hdate. split_and!.
  - destruct (date_hdrs_lookups name Hdate) as (tok & Hlook & Htok).
    exists tok. split_and!; [done| |].
    + intros [hdrs refs]. unfold compress_step, date_field.
      rewrite bool_decide_eq_true_2, Htok by done. simpl.
      by destruct (parse_date value).
    + intros stripped hdrs (Hin & _)%encode_headers_Ok Hval.
      destruct (Hin _ _ Hval) as (tok' & Htok' & Hl).
      assert (tok' = tok) as -> by congruence.
      rewrite Hl. unfold is_ref, field. by rewrite bool_decide_eq_true_2.
  - apply parse_date_Ok.
  - intros t Ht. unfold date_field. rewrite Ht. split; [done|apply hex_lower].
  - intros Hfail. unfold date_field. destruct (parse_date value) as [t|e]; [|done].
    by destruct (Hfail t).
  - intros Hcase t (Hm & year & rest & Hp & _)%parse_date_Ok. destruct Hcase; congruence.
Qed.

(** *** References *)

(** C2 (amended). When two identical messages are compressed one after the
    other on the same state, the second compression succeeds when the first
    does, and in the dictionary that it serialises every header of the
    stripped message that is neither metadata nor a recognized date header
    has its token in the comma-joined [ref] entry and has no entry of its
    own.  A recognized date header is never referenced: it is emitted again
    under its token, as hexadecimal seconds or as the literal value. *)
Theorem C2_repeated_headers (σ : store) (self : DeltaProcessor) (l1 l2 : nat)
    (M : headers) (host out1 : string) (self1 : DeltaProcessor) (σ1 : store) :
  σ !! l1 = Some M → σ !! l2 = Some M →
  compress σ self l1 host = Ok (out1, self1, σ1) →
  ∃ out2 self2 σ2 hdrs toks,
    compress σ1 self1 l2 host = Ok (out2, self2, σ2) ∧
    encode_headers (Some (strip_conn_headers M)) (strip_conn_headers M) = Ok hdrs ∧
    format_http1 hdrs nl ":" "host" = Ok out2 ∧
    hdrs !! "ref" = match toks with [] => None | _ => Some (PyStr.join "," toks) end ∧
    ∀ name value,
      strip_conn_headers M !! name = Some value → is_meta name = false →
      ∃ tok, hdr_name name = Ok tok ∧
        if bool_decide (name ∈ date_hdrs)
        then hdrs !! tok = Some (date_field value) ∧ tok ∉ toks
        else tok ∈ toks ∧ hdrs !! tok = None.
Proof.
  intros Hl1 Hl2 Hfirst.
  apply compress_Ok in Hfirst as (M1 & hdrs1 & HM1 & -> & -> & Henc1 & Hfmt1).
  simplify_eq. set (M' := strip_conn_headers M) in *.
  assert (∃ M2, <[l1:=M']> σ !! l2 = Some M2 ∧ strip_conn_headers M2 = M') as (M2 & HM2 & Hs2).
  { destruct (decide (l1 = l2)) as [->|Hne].
    - exists M'. rewrite lookup_insert_eq. split; [done|apply strip_conn_headers_idemp].
    - exists M. by rewrite lookup_insert_ne. }
  assert ((<[l2:=M']> (<[l1:=M']> σ) : store) !! l1 = Some M') as Hlast.
  { destruct (decide (l1 = l2)) as [->|Hne].
    - by rewrite lookup_insert_eq.
    - by rewrite lookup_insert_ne, lookup_insert_eq. }
  destruct (encode_headers_total (Some M') M') as [hdrs Henc].
  { by eapply encode_headers_names. }
  destruct (format_http1_total hdrs1 hdrs nl ":" "host" out1) as [out2 Hfmt]; [|done|].
  { intros k Hk. by rewrite (encode_headers_meta _ _ _ k Henc), (encode_headers_meta _ _ _ k Henc1). }
  pose proof Henc as (Hin & toks & Htoks & Href)%encode_headers_Ok.
  exists out2, {| last_c := Some l2; last_d := last_d self |}, (<[l2:=M']> (<[l1:=M']> σ)), hdrs, toks.
  split_and!; [|done..|].
  { apply compress_Ok. exists M2, hdrs. rewrite Hs2. simpl. rewrite Hlast. done. }
  intros name value Hval Hmeta.
  destruct (Hin _ _ Hval) as (tok & Htok & Hlook). exists tok. split; [done|].
  assert (truthy (Some M') = true) as Htruthy.
  { simpl. apply bool_decide_eq_true_2. intros Hempty. by rewrite Hempty in Hval. }
  assert (∀ n t, hdr_name n = Ok t → t ∈ toks ↔
            ∃ v, (n, v) ∈ items M' ∧ is_ref (Some M') n v = true) as Hmem.
  { intros n t Hn. split.
    - intros Ht. apply list_elem_of_lookup in Ht as [i Hi].
      destruct (Forall2_lookup_r _ _ _ _ _ Htoks Hi) as (n' & Hn' & Hnt).
      rewrite (hdr_name_inj _ _ _ Hn Hnt).
      apply list_elem_of_lookup_2, list_elem_of_fmap in Hn' as ([n'' v] & -> & Hf).
      apply list_elem_of_filter in Hf as [Hf1 Hf2]. eauto.
    - intros (v & Hv & Hr).
      assert (n ∈ (filter (fun nv => is_ref (Some M') nv.1 nv.2 = true) (items M')).*1) as Hnin.
      { apply list_elem_of_fmap. exists (n, v). split; [done|]. by apply list_elem_of_filter. }
      apply list_elem_of_lookup in Hnin as [i Hi].
      destruct (Forall2_lookup_l _ _ _ _ _ Htoks Hi) as (t' & Ht' & Hnt').
      assert (t' = t) as -> by congruence. by eapply list_elem_of_lookup_2. }
  case_bool_decide as Hdate.
  - unfold is_ref, field in Hlook. rewrite bool_decide_eq_true_2 in Hlook by done.
    simpl in Hlook. split; [done|].
    intros (v & Hv & Hr)%(Hmem name tok Htok). unfold is_ref in Hr.
    by rewrite bool_decide_eq_true_2 in Hr.
  - assert (is_ref (Some M') name value = true) as Hr.
    { unfold is_ref. rewrite Htruthy, Hmeta, (bool_decide_eq_false_2 _ Hdate). simpl.
      by apply bool_decide_eq_true_2. }
    rewrite Hr in Hlook. split; [|done].
    apply (Hmem name tok Htok). exists value. split; [by apply elem_of_items|done].
Qed.

End Compress.

Lemma C7_witness :
  "date" ∈ date_hdrs ∧
  ∀ acc, compress_step None acc ("date", "Sunday, 06-Nov-94 08:49:37 GMT")
         = Ok (<["d" := "2ebc98a1"]> acc.1, acc.2).
Proof.
  assert ("date" ∈ date_hdrs) as Hd by compute_done.
  split; [exact Hd|].
  destruct (C7_date_headers None "date" "Sunday, 06-Nov-94 08:49:37 GMT" Hd)
    as [(tok & Htok & Hstep & _) _].
  assert (tok = "d") as -> by (vm_compute in Htok; congruence).
  assert (date_field "Sunday, 06-Nov-94 08:49:37 GMT" = "2ebc98a1") as Hf by compute_done.
  intros acc. rewrite Hstep, Hf. reflexivity.
Defined.

(** A value that matches the first date pattern but names no month: it is
    emitted as it stands, not as hexadecimal seconds. *)
Lemma C7_counterexample :
  Rx.DATE_match "Sun, 06 Foo 1994 08:49:37 GMT" = true ∧
  Rx.match_seq Rx.rfc1123 "Sun, 06 Foo 1994 08:49:37 GMT" = [""] ∧
  parse_date "Sun, 06 Foo 1994 08:49:37 GMT" = Raise ValueError ∧
  compress_step None (∅, []) ("date", "Sun, 06 Foo 1994 08:49:37 GMT")
    = Ok ({[ "d" := "Sun, 06 Foo 1994 08:49:37 GMT" ]}, []).
Proof.
  split_and!; first [compute_done | apply (bool_decide_unpack _); vm_compute; exact I].
Qed.

(** Two-digit years: 94 and 69 fall into the 1900s, 68 into the 2000s. *)
Example two_digit_years :
  date_field "Sunday, 06-Nov-94 08:49:37 GMT" = PyStr.hex 784111777 ∧
  date_field "Sunday, 06-Nov-69 08:49:37 GMT" = PyStr.hex (-4806623) ∧
  date_field "Sunday, 06-Nov-68 08:49:37 GMT" = PyStr.hex 3119417377.
Proof. compute_done. Qed.

(** A response with an [expires] header whose value is not a date. *)
Definition c2_message : headers :=
  list_to_map [(":status", "200"); (":status-text", "OK"); (":version", "HTTP/1.1");
               ("expires", "0"); ("x-a", "1")].

Definition c2_store : store := {[ 1%nat := c2_message; 2%nat := c2_message ]}.

Definition c2_first : string :=
  "HTTP/1.1 200 OK" +:+ nl +:+ "!x-a:1" +:+ nl +:+ "x:0" +:+ nl +:+ nl.

Definition c2_second : string :=
  "HTTP/1.1 200 OK" +:+ nl +:+ "ref:!x-a" +:+ nl +:+ "x:0" +:+ nl +:+ nl.

Lemma c2_first_run :
  compress c2_store Processor_init 1 "h"
  = Ok (c2_first, {| last_c := Some 1%nat; last_d := None |}, c2_store).
Proof. compute_done. Qed.

Lemma C2_witness :
  ∃ out2 self2 σ2 hdrs toks,
    compress c2_store {| last_c := Some 1%nat; last_d := None |} 2 "h" = Ok (out2, self2, σ2) ∧
    encode_headers (Some (strip_conn_headers c2_message)) (strip_conn_headers c2_message)
      = Ok hdrs ∧
    format_http1 hdrs nl ":" "host" = Ok out2 ∧
    hdrs !! "ref" = match toks with [] => None | _ => Some (PyStr.join "," toks) end ∧
    ∀ name value,
      strip_conn_headers c2_message !! name = Some value → is_meta name = false →
      ∃ tok, hdr_name name = Ok tok ∧
        if bool_decide (name ∈ date_hdrs)
        then hdrs !! tok = Some (date_field value) ∧ tok ∉ toks
        else tok ∈ toks ∧ hdrs !! tok = None.
Proof.
  refine (C2_repeated_headers c2_store Processor_init 1 2 c2_message "h" c2_first
            {| last_c := Some 1%nat; last_d := None |} c2_store _ _ c2_first_run).
  - compute_done.
  - compute_done.
Defined.

(** The second of two identical messages: [expires], a recognized date
    header that is repeated, is not in the [ref] line, and its value is
    emitted again. *)
Lemma C2_counterexample :
  compress c2_store Processor_init 1 "h"
    = Ok (c2_first, {| last_c := Some 1%nat; last_d := None |}, c2_store) ∧
  compress c2_store {| last_c := Some 1%nat; last_d := None |} 2 "h"
    = Ok (c2_second, {| last_c := Some 2%nat; last_d := None |}, c2_store) ∧
  PyStr.split PyStr.LF c2_second = ["HTTP/1.1 200 OK"; "ref:!x-a"; "x:0"; ""; ""].
Proof. compute_done. Qed.

(** ** Host routing *)

(** The trailing two labels of a host name, joined by a dot. *)
Definition trailing_two_labels (host : string) : option string :=
  match reverse (PyStr.split "." host) with
  | l1 :: l2 :: _ => Some (l2 +:+ "." +:+ l1)
  | _ => None
  end.

Lemma endswith_spec (p s : string) :
  PyStr.endswith p s = true ↔ ∃ pre, s = pre +:+ p.
Proof.
  induction s as [|c s IH]; simpl.
  - rewrite orb_false_r, bool_decide_eq_true. split.
    + intros <-. by exists "".
    + intros ([|??] & Hpre); simpl in *; [done|discriminate].
  - rewrite orb_true_iff, bool_decide_eq_true, IH. split.
    + intros [<-|[pre ->]]; [by exists ""|by exists (String c pre)].
    + intros ([|c' pre] & Hpre); simpl in *; [by left|].
      injection Hpre as -> ->. right. by exists pre.
Qed.

(** The pattern that [Connection.__init__] compiles for an alternative of
    the name, if it compiles one. *)
Definition alt_pattern (glob : bool) (s : string) : option pattern :=
  if PyStr.startswith "*" s then Some (FnPattern s)
  else if has_escape s then Some (RePattern s)
  else if glob then Some (FnPattern (String "*" s))
  else None.

(** The suffix that it derives from the alternative, if it derives one. *)
Definition alt_suffix (glob : bool) (s : string) : option string :=
  if PyStr.startswith "*" s then domain_group (PyStr.tail s)
  else if has_escape s then domain_group (unescape s)
  else if glob then domain_group s
  else None.

(** A text without dot and without line feed. *)
Definition dotless (l : string) : bool :=
  all_chars (fun c => negb (PyStr.ascii_eqb c ".") && negb (PyStr.ascii_eqb c PyStr.LF)) l.

Lemma dotless_cons (c : ascii) (l : string) :
  dotless (String c l) = true →
  PyStr.ascii_eqb c "." = false ∧ PyStr.ascii_eqb c PyStr.LF = false ∧ dotless l = true.
Proof.
  unfold dotless. simpl. intros [[H1 H2]%andb_true_iff H3]%andb_true_iff.
  by rewrite negb_true_iff in H1, H2.
Qed.

Lemma span_label_dotless (l rest : string) :
  dotless l = true → rest = "" ∨ (∃ r, rest = String "." r) →
  span_label (l +:+ rest) = (l, rest).
Proof.
  intros Hl Hrest. induction l as [|c l IH].
  - rewrite app_nil. by destruct Hrest as [->|[r ->]].
  - apply dotless_cons in Hl as (Hdot & _ & Hl). rewrite app_cons. simpl.
    rewrite Hdot, (IH Hl). done.
Qed.

Lemma two_labels_dotless (a b rest : string) :
  a ≠ "" → b ≠ "" → dotless a = true → dotless b = true →
  rest = "" ∨ (∃ r, rest = String "." r) →
  two_labels (a +:+ String "." (b +:+ rest)) = Some (a +:+ "." +:+ b).
Proof.
  intros Ha Hb Hda Hdb Hrest. unfold two_labels.
  rewrite (span_label_dotless a) by eauto.
  rewrite (span_label_dotless b rest) by done.
  destruct a as [|ca a]; [done|]. destruct b as [|cb b]; [done|]. done.
Qed.

Lemma two_labels_single (b : string) : dotless b = true → two_labels b = None.
Proof.
  intros Hb. unfold two_labels.
  pose proof (span_label_dotless b "" Hb (or_introl eq_refl)) as Hs.
  rewrite app_nil_r_s in Hs. rewrite Hs. by destruct b.
Qed.

Lemma after_prefix_single (b : string) : dotless b = true → after_prefix b = None.
Proof.
  induction b as [|c b IH]; [done|].
  intros (Hdot & Hlf & Hb)%dotless_cons. simpl. by rewrite Hlf, (IH Hb), Hdot.
Qed.

Lemma after_prefix_label (l s : string) :
  dotless l = true → after_prefix (l +:+ String "." s) = domain_group s.
Proof.
  intros Hl. induction l as [|c l IH].
  - rewrite app_nil. simpl. unfold domain_group. by destruct (after_prefix s).
  - apply dotless_cons in Hl as (Hdot & Hlf & Hl). rewrite app_cons. simpl.
    rewrite Hlf, (IH Hl), Hdot. by destruct (domain_group s).
Qed.

(** The suffix taken from a name made of labels separated by dots: its
    last two labels. *)
Lemma domain_group_labels (pre : list string) (a b : string) :
  Forall (fun l => dotless l = true) (pre ++ [a; b]) → a ≠ "" → b ≠ "" →
  domain_group (PyStr.join "." (pre ++ [a; b])) = Some (a +:+ "." +:+ b).
Proof.
  intros Hall Ha Hb. induction pre as [|p pre IH].
  - apply Forall_cons in Hall as [Hda [Hdb _]%Forall_cons].
    change (PyStr.join "." ([] ++ [a; b])) with (a +:+ "." +:+ b).
    unfold domain_group.
    change (a +:+ "." +:+ b) with (a +:+ String "." b) at 1 2.
    rewrite (after_prefix_label a b Hda). unfold domain_group.
    rewrite (after_prefix_single b Hdb), (two_labels_single b Hdb).
    pose proof (two_labels_dotless a b "" Ha Hb Hda Hdb (or_introl eq_refl)) as Htwo.
    by rewrite app_nil_r_s in Htwo.
  - apply Forall_cons in Hall as [Hp Hall]. specialize (IH Hall).
    assert (PyStr.join "." ((p :: pre) ++ [a; b])
            = p +:+ String "." (PyStr.join "." (pre ++ [a; b]))) as ->.
    { simpl. by destruct (pre ++ [a; b]) eqn:Hl; [destruct pre|]. }
    unfold domain_group at 1. by rewrite (after_prefix_label p _ Hp), IH.
Qed.

Section Routing.

Context `{PyLib}.

Lemma matches_true (c : Connection) (host : string) :
  matches c host = true ↔
  (∃ tld, tld ∈ c_tlds c ∧ PyStr.endswith tld host = true) ∨ c_name c = host.
Proof.
  unfold matches.
  assert (existsb pattern_is_True (filter (fun x => pattern_match x host) (c_patterns c))
          = false) as ->.
  { induction (filter _ _); simpl; done. }
  destruct (existsb _ _) eqn:Hex.
  - split; [intros _|done]. left.
    apply existsb_exists in Hex as (b & Hb & Htrue).
    apply list_elem_of_In, list_elem_of_fmap in Hb as (tld & -> & Htld).
    exists tld. split; [done|]. by destruct (PyStr.endswith tld host).
  - unfold PyStr.str_eqb. rewrite bool_decide_eq_true. split; [by right|].
    intros [(tld & Htld & Hends)|?]; [|done].
    exfalso. apply not_true_iff_false in Hex. apply Hex.
    apply existsb_exists. exists true. split; [|done].
    apply list_elem_of_In, list_elem_of_fmap. by exists tld.
Qed.

(** Whether the pattern of an alternative compiles. *)
Definition alt_ok (glob : bool) (s : string) : bool :=
  match alt_pattern glob s with
  | Some x => compiles x
  | None => true
  end.

Lemma init_step_cases (glob : bool) (ps : list pattern) (ts : list string) (s : string) :
  init_step glob (ps, ts) s =
  if alt_ok glob s
  then Ok (ps ++ option_to_list (alt_pattern glob s),
           ts ++ option_to_list (alt_suffix glob s))
  else Raise ReError.
Proof.
  unfold init_step, alt_ok, alt_pattern, alt_suffix, re_compile.
  destruct (PyStr.startswith "*" s); [by destruct (compiles _)|].
  destruct (has_escape s); [by destruct (compiles _)|].
  destruct glob; [by destruct (compiles _)|]. simpl. by rewrite !app_nil_r.
Qed.

Lemma init_fold (glob : bool) (alts : list string) :
  ∀ ps ts,
    foldlM (init_step glob) (ps, ts) alts =
    if forallb (alt_ok glob) alts
    then Ok (ps ++ omap (alt_pattern glob) alts, ts ++ omap (alt_suffix glob) alts)
    else Raise ReError.
Proof.
  induction alts as [|s alts IH]; intros ps ts.
  - simpl. by rewrite !app_nil_r.
  - change (foldlM (init_step glob) (ps, ts) (s :: alts))
      with (init_step glob (ps, ts) s ≫= fun b => foldlM (init_step glob) b alts).
    rewrite init_step_cases. cbn [forallb]. destruct (alt_ok glob s); [|done].
    change (Ok ?x ≫= ?f) with (f x). cbv beta. rewrite IH. cbn [andb].
    destruct (forallb _ _); [|done].
    rewrite <- !app_assoc. cbn [omap list_omap].
    by destruct (alt_pattern glob s), (alt_suffix glob s).
Qed.

(** [Connection.__init__] returns when the pattern of every alternative
    of the name compiles, and raises [re.error] otherwise. *)
Lemma Connection_init_cases (name : string) (compressors : gmap string (nat * nat))
    (glob : bool) :
  Connection_init name compressors glob =
  if forallb (alt_ok glob) (PyStr.split "/" name)
  then Ok {| c_name := name; c_compressors := compressors; c_glob := glob;
             c_patterns := omap (alt_pattern glob) (PyStr.split "/" name);
             c_tlds := omap (alt_suffix glob) (PyStr.split "/" name) |}
  else Raise ReError.
Proof.
  unfold Connection_init. rewrite init_fold. by destruct (forallb _ _).
Qed.

Lemma Connection_init_Ok (name : string) (compressors : gmap string (nat * nat))
    (glob : bool) (c : Connection) :
  Connection_init name compressors glob = Ok c →
  c = {| c_name := name; c_compressors := compressors; c_glob := glob;
         c_patterns := omap (alt_pattern glob) (PyStr.split "/" name);
         c_tlds := omap (alt_suffix glob) (PyStr.split "/" name) |}.
Proof. rewrite Connection_init_cases. destruct (forallb _ _); congruence. Qed.

(** C3 (amended). [matches(connection, host)] is true exactly when [host]
    equals the connection's name or ends, as a string, with one of the
    connection's suffixes; the compiled patterns have no part in it.  The
    suffixes of a connection that [Connection.__init__] returns are those
    of the alternatives of its name (the parts between slashes): of a
    wildcard alternative (the text after the star) and of an alternative
    with an escaped character (the escapes replaced by dots) whether or
    not domain-multiplexing is enabled, of a plain alternative only when it
    is enabled.  The suffix of a text made of labels separated by dots is
    its last two labels.  With connections [*.example.com] and
    [example.org], host [a.example.com] matches the first and
    [example.org] the second. *)
Theorem C3_matches :
  (∀ (c : Connection) (host : string),
     matches c host = true ↔
     c_name c = host ∨ ∃ tld pre, tld ∈ c_tlds c ∧ host = pre +:+ tld) ∧
  (∀ name compressors glob c,
     Connection_init name compressors glob = Ok c →
     c_name c = name ∧
     ∀ tld, tld ∈ c_tlds c ↔
       ∃ s, s ∈ PyStr.split "/" name ∧
         if PyStr.startswith "*" s then domain_group (PyStr.tail s) = Some tld
         else if has_escape s then domain_group (unescape s) = Some tld
         else glob = true ∧ domain_group s = Some tld) ∧
  (∀ (pre : list string) (a b : string),
     Forall (fun l => dotless l = true) (pre ++ [a; b]) → a ≠ "" → b ≠ "" →
     domain_group (PyStr.join "." (pre ++ [a; b])) = Some (a +:+ "." +:+ b)) ∧
  (∀ compressors glob c1 c2,
     Connection_init "*.example.com" compressors glob = Ok c1 →
     Connection_init "example.org" compressors glob = Ok c2 →
     c_tlds c1 = ["example.com"] ∧
     matches c1 "a.example.com" = true ∧
     matches c2 "example.org" = true ∧
     matches c1 "example.org" = false ∧
     c_tlds c2 = (if glob then ["example.org"] else [])).
Proof.
  split_and!.
  - intros c host. rewrite matches_true. split.
    + intros [(tld & Htld & [pre ->]%endswith_spec)|Hname]; [right|by left].
      by exists tld, pre.
    + intros [Hname|(tld & pre & Htld & ->)]; [by right|left].
      exists tld. split; [done|]. apply endswith_spec. by exists pre.
  - intros name compressors glob c ->%Connection_init_Ok. cbn [c_name c_tlds].
    split; [done|].
    intros tld. rewrite list_elem_of_omap. unfold alt_suffix.
    split; intros (s & Hs & Hcase); exists s; (split; [done|]).
    + destruct (PyStr.startswith "*" s); [done|].
      destruct (has_escape s); [done|]. destruct glob; [by split|done].
    + destruct (PyStr.startswith "*" s); [done|].
      destruct (has_escape s); [done|]. by destruct Hcase as [-> ?].
  - apply domain_group_labels.
  - intros compressors glob c1 c2 H1%Connection_init_Ok H2%Connection_init_Ok.
    assert (c_tlds c1 = ["example.com"]) as Ht1 by (subst c1; by vm_compute).
    assert (c_tlds c2 = if glob then ["example.org"] else []) as Ht2
      by (subst c2; destruct glob; by vm_compute).
    assert (c_name c1 = "*.example.com") as Hn1 by (by subst c1).
    assert (c_name c2 = "example.org") as Hn2 by (by subst c2).
    clear H1 H2. split_and!; [done| | | |done].
    + apply matches_true. left. exists "example.com". rewrite Ht1.
      split; [set_solver|by vm_compute].
    + apply matches_true. by right.
    + apply not_true_iff_false. intros [(tld & Htld & Hends)|Hname]%matches_true.
      * rewrite Ht1 in Htld. apply list_elem_of_singleton in Htld as ->.
        by vm_compute in Hends.
      * by rewrite Hn1 in Hname.
Qed.

End Routing.

(** With the connection [*.example.com], the host [notexample.com] is
    accepted: it is not the connection's name, the pattern does not match
    it, and its trailing two labels are not [example.com]; it merely ends
    with that string.  The same holds with domain-multiplexing disabled. *)
Lemma C3_counterexample :
  (c ← Connection_init "*.example.com" ∅ true;
   Ok (matches c "notexample.com", bool_decide (c_name c = "notexample.com"),
       c_patterns c, c_tlds c))
  = Ok (true, false, [FnPattern "*.example.com"], ["example.com"]) ∧
  (c ← Connection_init "*.example.com" ∅ false; Ok (matches c "notexample.com")) = Ok true ∧
  pattern_match (FnPattern "*.example.com") "notexample.com" = false ∧
  trailing_two_labels "notexample.com" = Some "notexample.com".
Proof.
  split_and!; first [compute_done | apply (bool_decide_unpack _); vm_compute; exact I].
Qed.

(** The connection of a name whose only alternative has an escaped
    character: the suffix is derived with domain-multiplexing disabled. *)
Definition c3_connection : Connection :=
  {| c_name := "www\.example\.org"; c_compressors := ∅; c_glob := false;
     c_patterns := [RePattern "www\.example\.org"]; c_tlds := ["example.org"] |}.

Lemma c3_connection_init : Connection_init "www\.example\.org" ∅ false = Ok c3_connection.
Proof. rewrite Connection_init_cases. by vm_compute. Qed.

Lemma C3_witness :
  (matches c3_connection "img.example.org" = true ↔
   c_name c3_connection = "img.example.org" ∨
   ∃ tld pre, tld ∈ c_tlds c3_connection ∧ "img.example.org" = pre +:+ tld) ∧
  c_name c3_connection = "www\.example\.org" ∧
  (∀ tld, tld ∈ c_tlds c3_connection ↔
     ∃ s, s ∈ PyStr.split "/" "www\.example\.org" ∧
       if PyStr.startswith "*" s then domain_group (PyStr.tail s) = Some tld
       else if has_escape s then domain_group (unescape s) = Some tld
       else false = true ∧ domain_group s = Some tld).
Proof.
  destruct C3_matches as (Hmatch & Hinit & _).
  split; [exact (Hmatch c3_connection "img.example.org")|].
  exact (Hinit "www\.example\.org" ∅ false c3_connection c3_connection_init).
Defined.

(** ** The connection registry *)

(** Every processor that a registered connection refers to exists. *)
Definition well_formed (T : Tester) : Prop :=
  ∀ key c name a b,
    (key, c) ∈ connections T → c_compressors c !! name = Some (a, b) →
    (a < length (objects T))%nat ∧ (b < length (objects T))%nat.

(** The two processor objects that [get_compressors] makes for a codec. *)
Definition new_procs (opts : Options) (item : string * (CodecModule * list string))
    : list ProcObj :=
  [ {| codec := item.2.1; state := Processor item.2.1 opts true item.2.2 |};
    {| codec := item.2.1; state := Processor item.2.1 opts false item.2.2 |} ].

Lemma setitem_fresh {A} (key : string) (x : A) (d : list (string * A)) :
  lookup_key key d = None → setitem key x d = d ++ [(key, x)].
Proof.
  induction d as [|[k y] d IH]; simpl; [done|].
  case_bool_decide; [done|]. intros Hd. by rewrite IH.
Qed.

Lemma lookup_key_Some {A} (key : string) (x : A) (d : list (string * A)) :
  lookup_key key d = Some x → (key, x) ∈ d.
Proof.
  induction d as [|[k y] d IH]; simpl; [done|].
  case_bool_decide; [intros [= ->]; subst; left|right; auto].
Qed.

Lemma compressors_fold (opts : Options) (l : list (string * (CodecModule * list string))) :
  ∀ comp0 objs0 comp objs,
    NoDup l.*1 →
    foldl (compressors_step opts) (comp0, objs0) l = (comp, objs) →
    objs = objs0 ++ (l ≫= new_procs opts) ∧
    (∀ i item, l !! i = Some item →
       comp !! item.1 = Some (length objs0 + 2 * i, S (length objs0 + 2 * i))%nat) ∧
    (∀ name, name ∉ l.*1 → comp !! name = comp0 !! name).
Proof.
  induction l as [|[name [module params]] l IH]; intros comp0 objs0 comp objs Hnd Hrun;
    simpl in *.
  { simplify_eq. rewrite app_nil_r. split_and!; [done| |done]. by intros ? ? ?. }
  apply NoDup_cons in Hnd as [Hname Hnd].
  destruct (IH _ _ _ _ Hnd Hrun) as (-> & Hidx & Hother).
  split_and!.
  - rewrite <- app_assoc. done.
  - intros [|i] item Hi; simpl in *.
    + simplify_eq. simpl. rewrite Hother by done. rewrite lookup_insert_eq.
      do 2 f_equal; lia.
    + rewrite (Hidx i item Hi), length_app. simpl. do 2 f_equal; lia.
  - intros name' Hname'. rewrite Hother by set_solver.
    rewrite lookup_insert_ne; [done|set_solver].
Qed.

Lemma lookup_new_procs (opts : Options) (l : list (string * (CodecModule * list string)))
    (i : nat) (item : string * (CodecModule * list string)) :
  l !! i = Some item →
  (l ≫= new_procs opts) !! (2 * i)%nat
    = Some {| codec := item.2.1; state := Processor item.2.1 opts true item.2.2 |} ∧
  (l ≫= new_procs opts) !! S (2 * i)
    = Some {| codec := item.2.1; state := Processor item.2.1 opts false item.2.2 |}.
Proof.
  revert i. induction l as [|x l IH]; intros i Hi; [done|].
  destruct i as [|i]; simpl in *.
  - by simplify_eq.
  - replace (i + S (i + 0))%nat with (S (2 * i)) by lia. simpl. by apply IH.
Qed.

Section Registry.

Context `{PyLib}.

(** What [get_compressors] returns. *)
Lemma get_compressors_spec (T : Tester) :
  ∃ compressors objs,
    get_compressors T = (compressors, set_objects T (objects T ++ objs)) ∧
    (∀ name, is_Some (compressors !! name) ↔ is_Some (codec_modules T !! name)) ∧
    (∀ name a b, compressors !! name = Some (a, b) →
       ∃ i module params,
         a = (length (objects T) + 2 * i)%nat ∧ b = S a ∧
         items (codec_modules T) !! i = Some (name, (module, params)) ∧
         codec_modules T !! name = Some (module, params) ∧
         (objects T ++ objs) !! a
           = Some {| codec := module; state := Processor module (options T) true params |} ∧
         (objects T ++ objs) !! b
           = Some {| codec := module; state := Processor module (options T) false params |}).
Proof.
  unfold get_compressors.
  destruct (foldl _ _ _) as [compressors objs'] eqn:Hfold.
  apply compressors_fold in Hfold as (-> & Hidx & Hother); [|apply items_NoDup].
  exists compressors, (items (codec_modules T) ≫= new_procs (options T)).
  split_and!; [done| |].
  - intros name. destruct (codec_modules T !! name) as [mp|] eqn:Hm.
    + apply elem_of_items, list_elem_of_lookup in Hm as [i Hi].
      pose proof (Hidx _ _ Hi) as Hx. simpl in Hx. rewrite Hx. split; eauto.
    + rewrite Hother, lookup_empty; [done|].
      intros ([n mp] & -> & Hin%elem_of_items)%list_elem_of_fmap. simpl in *. congruence.
  - intros name a b Hab.
    destruct (codec_modules T !! name) as [[module params]|] eqn:Hm.
    + pose proof Hm as Hm'. apply elem_of_items, list_elem_of_lookup in Hm' as [i Hi].
      pose proof (Hidx _ _ Hi) as Hx. simpl in Hx. rewrite Hx in Hab. simplify_eq/=.
      destruct (lookup_new_procs (options T) _ _ _ Hi) as [Ha Hb].
      exists i, module, params. split_and!; [done..| |].
      * rewrite lookup_app_r by lia.
        replace (length (objects T) + (i + (i + 0)) - length (objects T))%nat
          with (2 * i)%nat by lia. done.
      * rewrite lookup_app_r by lia.
        replace (S (length (objects T) + (i + (i + 0))) - length (objects T))%nat
          with (S (2 * i))%nat by lia. done.
    + rewrite Hother, lookup_empty in Hab; [done|].
      intros ([n mp] & -> & Hin%elem_of_items)%list_elem_of_fmap. simpl in *. congruence.
Qed.

(** C6 (amended). [get_connection(host)] returns the connection keyed by
    [host] when there is one; otherwise the first connection, in the order
    in which the connections dictionary is enumerated, whose [matches]
    holds; otherwise it makes new processor objects, a request and a
    response processor for each configured codec, that no connection
    registered before refers to, and a new connection with them, which it
    registers under [host] and returns, unless one of the patterns that
    [Connection.__init__] makes from the alternatives of [host] does not
    compile: then it raises [re.error] and registers nothing.  The order of
    enumeration is the dictionary's, which need not be the order of
    registration. *)
Theorem C6_get_connection (T : Tester) (host : string) :
  (∀ c, lookup_key host (connections T) = Some c → get_connection T host = Ok (c, T)) ∧
  (∀ i c,
     lookup_key host (connections T) = None →
     (dict_order (connections T)).*2 !! i = Some c →
     matches c host = true →
     (∀ j c', (j < i)%nat → (dict_order (connections T)).*2 !! j = Some c' →
              matches c' host = false) →
     get_connection T host = Ok (c, T)) ∧
  (lookup_key host (connections T) = None →
   (∀ key c, (key, c) ∈ connections T → matches c host = false) →
   if forallb (alt_ok (opt_glob (options T))) (PyStr.split "/" host)
   then
     ∃ T' conn,
       get_connection T host = Ok (conn, T') ∧
       Connection_init host (c_compressors conn) (opt_glob (options T)) = Ok conn ∧
       connections T' = connections T ++ [(host, conn)] ∧
       (∀ i, (i < length (objects T))%nat → objects T' !! i = objects T !! i) ∧
       (∀ name, is_Some (c_compressors conn !! name) ↔ is_Some (codec_modules T !! name)) ∧
       (∀ name a b, c_compressors conn !! name = Some (a, b) →
          (length (objects T) ≤ a)%nat ∧ b = S a ∧
          ∃ module params,
            codec_modules T !! name = Some (module, params) ∧
            objects T' !! a
              = Some {| codec := module; state := Processor module (options T) true params |} ∧
            objects T' !! b
              = Some {| codec := module;
                        state := Processor module (options T) false params |}) ∧
       (∀ n1 n2 a1 b1 a2 b2,
          n1 ≠ n2 → c_compressors conn !! n1 = Some (a1, b1) →
          c_compressors conn !! n2 = Some (a2, b2) →
          a1 ≠ a2 ∧ a1 ≠ b2 ∧ b1 ≠ a2 ∧ b1 ≠ b2) ∧
       (well_formed T →
        well_formed T' ∧
        ∀ key c n' a' b' name a b,
          (key, c) ∈ connections T → c_compressors c !! n' = Some (a', b') →
          c_compressors conn !! name = Some (a, b) →
          a' ≠ a ∧ a' ≠ b ∧ b' ≠ a ∧ b' ≠ b)
   else get_connection T host = Raise ReError).
Proof.
  split_and!.
  - intros c Hc. unfold get_connection. by rewrite Hc.
  - intros i c Hnone Hi Hm Hfirst. unfold get_connection. rewrite Hnone.
    assert (list_find (fun c => matches c host = true) (dict_order (connections T)).*2
            = Some (i, c)) as ->; [|done].
    apply list_find_Some. split_and!; [done..|].
    intros j c' Hj Hlt. rewrite (Hfirst j c' Hlt Hj). done.
  - intros Hnone Hno. unfold get_connection. rewrite Hnone.
    assert (list_find (fun c => matches c host = true) (dict_order (connections T)).*2
            = None) as ->.
    { apply list_find_None, Forall_forall.
      intros c ([key c'] & -> & Hin)%list_elem_of_fmap.
      rewrite dict_order_perm in Hin. simpl. rewrite (Hno _ _ Hin). done. }
    destruct (get_compressors_spec T) as (compressors & objs & -> & Hdom & Hnew).
    cbn [options set_objects]. rewrite Connection_init_cases.
    destruct (forallb _ _) eqn:Hok; [|done].
    eexists _, _. split; [reflexivity|]. cbn [c_compressors].
    rewrite Connection_init_cases, Hok. simpl.
    assert (∀ name a b, compressors !! name = Some (a, b) →
              (length (objects T) ≤ a)%nat ∧ b = S a) as Hfresh.
    { intros name a b (i & ? & ? & -> & -> & _)%Hnew. lia. }
    split_and!; [done|by apply setitem_fresh| |done| | |].
    + intros i Hi. by rewrite lookup_app_l.
    + intros name a b Hab. destruct (Hfresh _ _ _ Hab) as [? ->].
      split_and!; [done..|].
      destruct (Hnew _ _ _ Hab) as (i & module & params & _ & _ & _ & ? & ? & ?). eauto.
    + intros n1 n2 a1 b1 a2 b2 Hne H1 H2.
      destruct (Hnew _ _ _ H1) as (i1 & m1 & p1 & -> & -> & Hi1 & _).
      destruct (Hnew _ _ _ H2) as (i2 & m2 & p2 & -> & -> & Hi2 & _).
      assert (i1 ≠ i2) by (intros ->; congruence). lia.
    + intros Hwf. split.
      * intros key c name a b Hin Hab. simpl in *. rewrite length_app.
        rewrite setitem_fresh in Hin by done.
        apply elem_of_app in Hin as [Hin|Hin%list_elem_of_singleton].
        -- destruct (Hwf _ _ _ _ _ Hin Hab). lia.
        -- simplify_eq. simpl in Hab.
           destruct (Hnew _ _ _ Hab) as (i & m & p & -> & -> & _ & _ & _ & Hb).
           apply lookup_lt_Some in Hb. rewrite length_app in Hb. lia.
      * intros key c n' a' b' name a b Hin Hab' Hab.
        destruct (Hwf _ _ _ _ _ Hin Hab'). destruct (Hfresh _ _ _ Hab). lia.
Qed.

End Registry.

Lemma C6_witness :
  ∃ T' conn,
    get_connection demo_tester "example.com" = Ok (conn, T') ∧
    connections T' = [("example.com", conn)] ∧
    ∀ name, is_Some (c_compressors conn !! name) ↔ is_Some (codec_modules demo_tester !! name).
Proof.
  pose proof (proj2 (proj2 (C6_get_connection demo_tester "example.com")) eq_refl)
    as Hnew.
  change (forallb (alt_ok (opt_glob (options demo_tester))) (PyStr.split "/" "example.com"))
    with true in Hnew.
  destruct Hnew as (T' & conn & Hget & _ & Hconns & _ & Hdom & _).
  - intros key c Hin. apply elem_of_nil in Hin. destruct Hin.
  - exists T', conn. split; [exact Hget|]. split; [exact Hconns|exact Hdom].
Defined.

(** A tester whose connections were declared as
    [-m www.example.com -m img.example.com]. *)
Definition c6_options : Options :=
  {| verbose := 0; baseline := "simple";
     multiplex := ["www.example.com"; "img.example.com"];
     opt_glob := true; tsv := false; opt_prefix := "" |}.

Definition c6_blank : Tester :=
  {| options := c6_options;
     codec_modules := {[ "simple" := (simple_module, []) ]};
     connections := []; objects := []; dicts := ∅; warned := ∅ |}.

(** Both connections match the host [api.example.com], which is the key of
    neither.  The dictionary enumerates [img.example.com] before
    [www.example.com] (their hashes end in 3 and in 7), so the connection
    returned is the one registered second. *)
Lemma C6_counterexample :
  (c6_tester ← init_connections c6_blank;
   '(c, _) ← get_connection c6_tester "api.example.com";
   Ok ((connections c6_tester).*1, (dict_order (connections c6_tester)).*1,
       lookup_key "api.example.com" (connections c6_tester) ≫= (fun _ => Some true),
       (fun kc => matches kc.2 "api.example.com") <$> connections c6_tester,
       c_name c))
  = Ok (["www.example.com"; "img.example.com"], ["img.example.com"; "www.example.com"],
        None, [true; true], "img.example.com") ∧
  Py27.string_hash "www.example.com" mod 8 = 7 ∧
  Py27.string_hash "img.example.com" mod 8 = 3.
Proof.
  split_and!; first [compute_done | apply (bool_decide_unpack _); vm_compute; exact I].
Qed.

(** ** Where the hop-by-hop headers are removed *)

Section Stripping.
Context `{PyLib}.

Lemma get_compressors_dicts (T : Tester) : dicts (get_compressors T).2 = dicts T.
Proof. unfold get_compressors. by destruct (foldl _ _ _). Qed.

Lemma get_connection_dicts (T : Tester) (host : string) (c : Connection) (T' : Tester) :
  get_connection T host = Ok (c, T') → dicts T' = dicts T.
Proof.
  intros [[-> _]|(_ & _ & _ & ->)]%get_connection_Ok; [done|].
  apply get_compressors_dicts.
Qed.

(** C4 (amended). The harness does not remove the hop-by-hop headers:
    [process_message] resolves the connection, which leaves the message
    dictionaries as they are, and each iteration of its loop hands the
    message, as it then is, to the [compress] of the codec.  It is the
    [compress] of the delta codec that removes them, in place, by calling
    [strip_conn_headers] on the message it is given: after the call the
    message holds no [transfer-encoding], [te], [keep-alive], [trailers] or
    [connection] header and no header named by a whitespace-separated word
    of the value that [connection] had, every other header is as before,
    and the output is encoded from the message so stripped. *)
Theorem C4_hop_by_hop :
  (∀ T host c T', get_connection T host = Ok (c, T') → dicts T' = dicts T) ∧
  (∀ msg host results T name pl processor,
     objects T !! pl = Some processor →
     process_one msg host (results, T) (name, pl) =
       proc_compress (codec processor) (dicts T) (state processor) msg host
         ≫= after_compress T msg name pl results (codec processor)) ∧
  (∀ σ self l host out self' σ' in_headers,
     σ !! l = Some in_headers →
     compress σ self l host = Ok (out, self', σ') →
     σ' = <[l := strip_conn_headers in_headers]> σ ∧
     ∃ hdrs,
       encode_headers (last_c self ≫= (σ' !!.)) (strip_conn_headers in_headers) = Ok hdrs ∧
       format_http1 hdrs nl ":" "host" = Ok out) ∧
  (∀ hdrs k,
     strip_conn_headers hdrs !! k
     = if bool_decide (k ∈ removed hdrs) then None else hdrs !! k) ∧
  (∀ hdrs k,
     k ∈ removed hdrs ↔
     k ∈ ["transfer-encoding"; "te"; "keep-alive"; "trailers"] ∨
     ∃ v, hdrs !! "connection" = Some v ∧
          (k = "connection" ∨ k ∈ PyStr.strip <$> PyStr.split_ws v)).
Proof.
  split_and!.
  - apply get_connection_dicts.
  - intros msg host results T name pl processor Hp. unfold process_one.
    rewrite Hp. reflexivity.
  - intros σ self l host out self' σ' in_headers Hl Hrun.
    apply compress_Ok in Hrun as (in_headers' & hdrs & Hl' & -> & _ & Hhdrs & Hout).
    assert (in_headers' = in_headers) as -> by congruence. eauto.
  - apply strip_conn_headers_lookup.
  - intros hdrs k. unfold removed, hop_by_hop.
    destruct (hdrs !! "connection") as [v|].
    + rewrite elem_of_cons, elem_of_app. split.
      * intros [->|[Hk|Hk]]; [right|left|right]; eauto.
      * intros [Hk|(v' & [= <-] & [->|Hk])]; auto.
    + split; [auto|]. intros [Hk|(v' & [=] & _)]. exact Hk.
Qed.

End Stripping.

(** The request of the demonstration carries [te] and a [connection] header
    that names [x-a]: [compress] deletes the three of them from the message
    and encodes the rest. *)
Definition c4_stripped : headers :=
  list_to_map [(":method", "GET"); (":path", "/"); (":version", "HTTP/1.1");
               (":scheme", "http"); (":host", "example.com"); ("cookie", "b=2; a=1")].

Definition c4_out : string :=
  "GET / HTTP/1.1" +:+ nl +:+ "c:b=2; a=1" +:+ nl +:+ "host:example.com" +:+ nl +:+ nl.

Lemma c4_run :
  compress (dicts demo_tester) Processor_init 1 "example.com"
  = Ok (c4_out, {| last_c := Some 1%nat; last_d := None |},
        <[1%nat := c4_stripped]> (dicts demo_tester)).
Proof. compute_done. Qed.

Lemma C4_witness :
  <[1%nat := c4_stripped]> (dicts demo_tester)
  = <[1%nat := strip_conn_headers demo_request]> (dicts demo_tester) ∧
  ∃ hdrs,
    encode_headers None (strip_conn_headers demo_request) = Ok hdrs ∧
    format_http1 hdrs nl ":" "host" = Ok c4_out.
Proof.
  refine (proj1 (proj2 (proj2 C4_hop_by_hop))
            (dicts demo_tester) Processor_init 1%nat "example.com" c4_out
            {| last_c := Some 1%nat; last_d := None |}
            (<[1%nat := c4_stripped]> (dicts demo_tester)) demo_request _ c4_run).
  compute_done.
Defined.

(** A codec that leaves its input alone and has no [decompress]. *)
Definition keeping_module : CodecModule := {|
  proc := unit;
  Processor := fun _ _ _ => tt;
  proc_compress := fun σ st l host => Ok ("", st, σ);
  proc_decompress := fun st compressed => Raise NotImplementedError;
|}.

Definition keeping_tester : Tester :=
  {| options := demo_options;
     codec_modules := {[ "keep" := (keeping_module, []) ]};
     connections := [];
     objects := [];
     dicts := {[ 1%nat := demo_request ]};
     warned := ∅ |}.

(** The message that the harness hands to the first codec is the message it
    was given, hop-by-hop headers included; the delta codec removes them in
    its [compress], and the harness never does: with a codec that leaves its
    input alone, they are still there when [process_message] returns. *)
Lemma C4_counterexample :
  demo_request !! "te" = Some "trailers" ∧
  demo_request !! "connection" = Some "x-a  close" ∧
  (r ← get_connection demo_tester "example.com"; Ok (dicts r.2 !! 1%nat))
    = Ok (Some demo_request) ∧
  (r ← process_message keeping_tester 1 "req" "example.com"; Ok (dicts r.2))
    = Ok {[ 1%nat := demo_request ]} ∧
  compress (dicts demo_tester) Processor_init 1 "example.com"
    = Ok (c4_out, {| last_c := Some 1%nat; last_d := None |},
          <[1%nat := c4_stripped]> (dicts demo_tester)) ∧
  c4_stripped = strip_conn_headers demo_request ∧
  c4_stripped !! "te" = None ∧
  c4_stripped !! "connection" = None ∧
  c4_stripped !! "x-a" = None.
Proof.
  split_and!; first [compute_done | apply (bool_decide_unpack _); vm_compute; exact I].
Qed.

(** ** What the round-trip check does to its arguments *)

Section Verification.
Context `{PyLib}.

(** The loop of [compare_headers] over [a_hdr] deletes from [b_hdr] the
    keys it meets. *)
Lemma compare_fold (l : list (string * string)) :
  ∀ output b_hdr output' b_hdr',
    foldlM compare_step (output, b_hdr) l = Ok (output', b_hdr') →
    ∀ k, b_hdr' !! k = if bool_decide (k ∈ l.*1) then None else b_hdr !! k.
Proof.
  induction l as [|[key val] l IH]; intros output b_hdr output' b_hdr' Hrun k; simpl in Hrun.
  - simplify_eq. by rewrite bool_decide_eq_false_2 by set_solver.
  - apply bind_Ok in Hrun as ([output1 b1] & Hstep & Hrun).
    rewrite (IH _ _ _ _ Hrun k). clear IH Hrun.
    assert (∀ k', b1 !! k' = if bool_decide (k' = key) then None else b_hdr !! k') as Hb1.
    { intros k'. unfold compare_step in Hstep. case_bool_decide as Hv.
      - apply bind_Ok in Hstep as (? & _ & [= <- <-]).
        case_bool_decide as Hk; [subst; apply lookup_delete_eq|by apply lookup_delete_ne].
      - destruct (b_hdr !! key) as [bval|] eqn:Hkey; simplify_eq/=.
        + case_bool_decide as Hk; [subst; apply lookup_delete_eq|by apply lookup_delete_ne].
        + case_bool_decide as Hk; [by subst|done]. }
    rewrite Hb1. rewrite fmap_cons. simpl.
    rewrite (bool_decide_ext (k ∈ key :: l.*1) (k = key ∨ k ∈ l.*1)) by apply elem_of_cons.
    repeat case_bool_decide; naive_solver.
Qed.

Lemma normalize_cookie_lookup (d_hdr : headers) (k : string) :
  normalize_cookie d_hdr !! k
  = if bool_decide (k = "cookie")
    then (fun v => PyStr.join "; " (PyStr.sorted (PyStr.lstrip_char " " <$> PyStr.split ";" v)))
           <$> d_hdr !! "cookie"
    else d_hdr !! k.
Proof.
  unfold normalize_cookie. case_bool_decide as Hk.
  - subst. destruct (d_hdr !! "cookie") as [v|] eqn:Hc; simpl.
    + by rewrite lookup_insert_eq.
    + done.
  - destruct (d_hdr !! "cookie"); [by rewrite lookup_insert_ne|done].
Qed.

Lemma compare_headers_Ok (a_hdr b_hdr : headers) (cmp : string) (a' b' : headers) :
  compare_headers a_hdr b_hdr = Ok (cmp, a', b') →
  a' = normalize_cookie a_hdr ∧
  ∀ k, b' !! k = if bool_decide (is_Some (a_hdr !! k)) then None
                 else normalize_cookie b_hdr !! k.
Proof.
  unfold compare_headers. intros ([output b1] & Hfold & [= <- <- <-])%bind_Ok.
  split; [done|]. intros k. rewrite (compare_fold _ _ _ _ _ Hfold k).
  rewrite (bool_decide_ext (k ∈ (items (normalize_cookie a_hdr)).*1) (is_Some (a_hdr !! k)));
    [done|].
  rewrite list_elem_of_fmap. split.
  - intros ([k' v] & -> & Hin). apply elem_of_items in Hin. simpl.
    rewrite normalize_cookie_lookup in Hin. case_bool_decide; [|by eauto].
    subst. destruct (a_hdr !! "cookie"); [by eauto|done].
  - intros [v Hv].
    assert (is_Some (normalize_cookie a_hdr !! k)) as [v' Hv'].
    { rewrite normalize_cookie_lookup. case_bool_decide; [|by eauto].
      subst. rewrite Hv. by eauto. }
    exists (k, v'). split; [done|]. by apply elem_of_items.
Qed.

Lemma process_one_Ok msg host results T name pl results' T' :
  process_one msg host (results, T) (name, pl) = Ok (results', T') →
  ∃ processor compressed st σ,
    objects T !! pl = Some processor ∧
    proc_compress (codec processor) (dicts T) (state processor) msg host
      = Ok (compressed, st, σ) ∧
    match proc_decompress (codec processor) st compressed with
    | Ok (d, _) =>
        if bool_decide (d ≠ ∅) then
          ∃ message cmp b',
            σ !! msg = Some message ∧
            compare_headers message d = Ok (cmp, normalize_cookie message, b') ∧
            dicts T' = <[msg := normalize_cookie message]> σ ∧
            r_decompressed <$> results' !! name = Some (Some b')
        else dicts T' = σ ∧ r_decompressed <$> results' !! name = Some (Some d)
    | Raise _ => dicts T' = σ ∧ r_decompressed <$> results' !! name = Some None
    end.
Proof.
  unfold process_one. intros (processor & Hp & Hrun)%bind_Ok.
  destruct (objects T !! pl) as [p|] eqn:Hpl; simplify_eq/=.
  apply bind_Ok in Hrun as ([[compressed st] σ] & Hc & Hrun).
  exists processor, compressed, st, σ. split_and!; [done..|].
  unfold after_compress in Hrun.
  apply bind_Ok in Hrun as ([decompressed T1] & Hd & Hrun).
  apply bind_Ok in Hrun as ([decompressed' T2] & Hr & [= <- <-]).
  rewrite lookup_insert_eq. simpl.
  unfold try_decompress in Hd.
  destruct (proc_decompress (codec processor) st compressed) as [[d st']|e].
  - simplify_eq/=. unfold check_roundtrip in Hr. simpl in Hr.
    case_bool_decide as Hne.
    + apply bind_Ok in Hr as (message & Hm & Hr). simpl in Hm.
      destruct (σ !! msg) as [m|] eqn:Hmsg; simplify_eq/=.
      apply bind_Ok in Hr as ([[cmp a'] b'] & Hcmp & [= <- <-]).
      pose proof (compare_headers_Ok _ _ _ _ _ Hcmp) as [-> _].
      exists message, cmp, b'. done.
    + by simplify_eq/=.
  - destruct e; simplify_eq/=.
    unfold check_roundtrip in Hr. simpl in Hr. simplify_eq/=.
    split; [|done]. by case_bool_decide.
Qed.

(** C10. [compare_headers] changes both dictionaries it is given: when it
    returns, the first holds its [cookie] value split at [;], the pieces
    stripped of leading spaces, sorted and joined by ["; "], and is
    otherwise as before; the second has lost every key that the first
    holds, and holds its other keys with the same rewriting of [cookie].
    In the loop of [process_message], a codec whose [decompress] returns a
    non-empty dictionary leaves the message so rewritten in the store and
    the dictionary so emptied in its result; the next iteration calls
    [compress] on the store that the previous one left. *)
Theorem C10_compare_headers_mutates :
  (∀ a_hdr b_hdr cmp a' b',
     compare_headers a_hdr b_hdr = Ok (cmp, a', b') →
     a' = normalize_cookie a_hdr ∧
     ∀ k, b' !! k = if bool_decide (is_Some (a_hdr !! k)) then None
                    else normalize_cookie b_hdr !! k) ∧
  (∀ d_hdr k,
     normalize_cookie d_hdr !! k
     = if bool_decide (k = "cookie")
       then (fun v => PyStr.join "; "
                        (PyStr.sorted (PyStr.lstrip_char " " <$> PyStr.split ";" v)))
              <$> d_hdr !! "cookie"
       else d_hdr !! k) ∧
  (∀ msg host results T name pl results' T',
     process_one msg host (results, T) (name, pl) = Ok (results', T') →
     ∃ processor compressed st σ,
       objects T !! pl = Some processor ∧
       proc_compress (codec processor) (dicts T) (state processor) msg host
         = Ok (compressed, st, σ) ∧
       match proc_decompress (codec processor) st compressed with
       | Ok (d, _) =>
           if bool_decide (d ≠ ∅) then
             ∃ message cmp b',
               σ !! msg = Some message ∧
               compare_headers message d = Ok (cmp, normalize_cookie message, b') ∧
               dicts T' = <[msg := normalize_cookie message]> σ ∧
               r_decompressed <$> results' !! name = Some (Some b')
           else dicts T' = σ ∧ r_decompressed <$> results' !! name = Some (Some d)
       | Raise _ => dicts T' = σ ∧ r_decompressed <$> results' !! name = Some None
       end) ∧
  (∀ msg host acc item rest,
     foldlM (process_one msg host) acc (item :: rest)
     = process_one msg host acc item ≫= fun acc' => foldlM (process_one msg host) acc' rest).
Proof.
  split_and!.
  - apply compare_headers_Ok.
  - apply normalize_cookie_lookup.
  - apply process_one_Ok.
  - reflexivity.
Qed.

End Verification.

(** The request of the demonstration, as the first codec leaves it, checked
    against its own decoding: the cookie of the message is reordered and
    the decoded dictionary is emptied. *)
Definition c10_message : headers := <["cookie" := "a=1; b=2"]> c4_stripped.

Lemma c10_compare : compare_headers c4_stripped c4_stripped = Ok ("", c10_message, ∅).
Proof. compute_done. Qed.

Definition c10_out : string :=
  "GET / HTTP/1.1" +:+ nl +:+ "c:a=1; b=2" +:+ nl +:+ "host:example.com" +:+ nl +:+ nl.

(** With two instances of the delta codec, the second one compresses the
    message that the check of the first one has rewritten. *)
Lemma C10_witness :
  (c10_message = normalize_cookie c4_stripped ∧
   ∀ k, (∅ : headers) !! k
        = if bool_decide (is_Some (c4_stripped !! k)) then None
          else normalize_cookie c4_stripped !! k) ∧
  (r ← process_message demo_tester 1 "req" "example.com";
   Ok ((fun name => (name, r_compressed <$> r.1 !! name, r_decompressed <$> r.1 !! name))
         <$> (items (codec_modules demo_tester)).*1,
       dicts r.2 !! 1%nat))
  = Ok ([("simple", Some c4_out, Some (Some ∅)); ("zsimple", Some c10_out, Some (Some ∅))],
        Some c10_message).
Proof.
  split.
  - exact (proj1 C10_compare_headers_mutates c4_stripped c4_stripped "" c10_message ∅
             c10_compare).
  - compute_done.
Defined.

(** ** The round trip on a fresh pair of states *)

(** *** Strings *)

Lemma lstrip_idemp (s : string) : PyStr.lstrip (PyStr.lstrip s) = PyStr.lstrip s.
Proof.
  induction s as [|c t IH]; simpl; [done|].
  destruct (PyStr.is_space c) eqn:Hc; [done|]. simpl. by rewrite Hc.
Qed.

Lemma rstrip_idemp (s : string) : PyStr.rstrip (PyStr.rstrip s) = PyStr.rstrip s.
Proof.
  induction s as [|c t IH]; simpl; [done|].
  destruct (PyStr.rstrip t) as [|c' r] eqn:Hr.
  - destruct (PyStr.is_space c) eqn:Hc; simpl; [done|]. by rewrite Hc.
  - change (PyStr.rstrip (String c (String c' r)))
      with (match PyStr.rstrip (String c' r) with
            | EmptyString => if PyStr.is_space c then EmptyString else String c EmptyString
            | r0 => String c r0
            end).
    by rewrite IH.
Qed.

Lemma lstrip_rstrip (s : string) : PyStr.lstrip (PyStr.rstrip s) = PyStr.rstrip (PyStr.lstrip s).
Proof.
  induction s as [|c t IH]; simpl; [done|].
  destruct (PyStr.is_space c) eqn:Hc.
  - rewrite <- IH. destruct (PyStr.rstrip t) as [|c' r]; simpl; by rewrite ?Hc.
  - simpl. destruct (PyStr.rstrip t) as [|c' r]; simpl; by rewrite Hc.
Qed.

Lemma strip_rstrip (s : string) : PyStr.strip (PyStr.rstrip s) = PyStr.strip s.
Proof. unfold PyStr.strip. by rewrite lstrip_rstrip, rstrip_idemp. Qed.

Lemma strip_lstrip (s : string) : PyStr.strip (PyStr.lstrip s) = PyStr.strip s.
Proof. unfold PyStr.strip. by rewrite lstrip_idemp. Qed.

Lemma strip_idemp (s : string) : PyStr.strip (PyStr.strip s) = PyStr.strip s.
Proof. unfold PyStr.strip at 2. by rewrite strip_rstrip, strip_lstrip. Qed.

Lemma rstrip_app (s t : string) :
  PyStr.rstrip (s +:+ t)
  = match PyStr.rstrip t with EmptyString => PyStr.rstrip s | r => s +:+ r end.
Proof.
  induction s as [|c s IH]; norm_app; simpl.
  - by destruct (PyStr.rstrip t).
  - rewrite IH. destruct (PyStr.rstrip t) as [|c' r]; [done|].
    by destruct s.
Qed.

(** [c in s] for a character *)
Fixpoint occurs (c : ascii) (s : string) : bool :=
  match s with
  | EmptyString => false
  | String c' t => PyStr.ascii_eqb c' c || occurs c t
  end.

Lemma occurs_app (c : ascii) (s t : string) :
  occurs c (s +:+ t) = occurs c s || occurs c t.
Proof. induction s as [|c' s IH]; norm_app; simpl; [done|]. by rewrite IH, orb_assoc. Qed.

Lemma occurs_rstrip (c : ascii) (s : string) :
  occurs c s = false → occurs c (PyStr.rstrip s) = false.
Proof.
  induction s as [|c' s IH]; simpl; [done|].
  intros [Hc Hs]%orb_false_iff. specialize (IH Hs).
  destruct (PyStr.rstrip s) as [|c'' r]; simpl in *.
  - destruct (PyStr.is_space c'); simpl; [done|]. by rewrite Hc.
  - by rewrite Hc, IH.
Qed.

Lemma occurs_lstrip (c : ascii) (s : string) :
  occurs c s = false → occurs c (PyStr.lstrip s) = false.
Proof.
  induction s as [|c' s IH]; simpl; [done|].
  intros [Hc Hs]%orb_false_iff.
  destruct (PyStr.is_space c'); [by apply IH|]. simpl. by rewrite Hc, Hs.
Qed.

Lemma split_nonempty (sep : ascii) (s : string) : PyStr.split sep s ≠ [].
Proof.
  destruct s as [|c t]; simpl; [done|].
  destruct (PyStr.ascii_eqb c sep); [done|]. by destruct (PyStr.split sep t).
Qed.

Lemma split_none (sep : ascii) (s : string) : occurs sep s = false → PyStr.split sep s = [s].
Proof.
  induction s as [|c t IH]; simpl; [done|].
  intros [Hc Ht]%orb_false_iff. by rewrite Hc, IH.
Qed.

Lemma split_app (sep : ascii) (a b : string) :
  occurs sep a = false →
  PyStr.split sep (a +:+ String sep b) = a :: PyStr.split sep b.
Proof.
  induction a as [|c a IH]; norm_app; simpl.
  - intros _. unfold PyStr.ascii_eqb. by rewrite bool_decide_eq_true_2.
  - intros [Hc Ha]%orb_false_iff. by rewrite Hc, IH.
Qed.

Lemma split1_app (sep : ascii) (a b : string) :
  occurs sep a = false → PyStr.split1 sep (a +:+ String sep b) = Some (a, b).
Proof.
  induction a as [|c a IH]; norm_app; simpl.
  - intros _. unfold PyStr.ascii_eqb. by rewrite bool_decide_eq_true_2.
  - intros [Hc Ha]%orb_false_iff. by rewrite Hc, IH.
Qed.

Lemma split1_rstrip (sep : ascii) (s a b : string) :
  PyStr.is_space sep = false →
  PyStr.split1 sep s = Some (a, b) →
  PyStr.split1 sep (PyStr.rstrip s) = Some (a, PyStr.rstrip b).
Proof.
  intros Hsep. revert a. induction s as [|c t IH]; intros a; simpl; [done|].
  destruct (PyStr.ascii_eqb c sep) eqn:Hc.
  - intros [= <- <-]. apply bool_decide_eq_true_1 in Hc as ->.
    destruct (PyStr.rstrip t) as [|c' r]; rewrite ?Hsep; simpl;
      unfold PyStr.ascii_eqb; by rewrite bool_decide_eq_true_2.
  - destruct (PyStr.split1 sep t) as [[a' b']|] eqn:Ht; [|done].
    intros [= <- <-]. specialize (IH a' eq_refl).
    destruct (PyStr.rstrip t) as [|c' r]; [done|].
    simpl in *. rewrite Hc. by rewrite IH.
Qed.

(** A word: not empty and free of white space. *)
Definition is_word (s : string) : bool :=
  negb (bool_decide (s = "")) && all_chars (fun c => negb (PyStr.is_space c)) s.

Lemma span_word_app (w r : string) :
  all_chars (fun c => negb (PyStr.is_space c)) w = true →
  PyStr.span_word (w +:+ String " " r) = (w, String " " r).
Proof.
  induction w as [|c w IH]; norm_app; simpl; [done|].
  intros [Hc Hw]%andb_true_iff. apply negb_true_iff in Hc. by rewrite Hc, IH.
Qed.

Lemma lstrip_word (w r : string) : is_word w = true → PyStr.lstrip (w +:+ r) = w +:+ r.
Proof.
  destruct w as [|c w]; [done|]. unfold is_word. norm_app. simpl.
  intros [Hc _]%andb_true_iff. apply negb_true_iff in Hc. by rewrite Hc.
Qed.

Lemma word_nonempty (w r : string) : is_word w = true → w +:+ r ≠ "".
Proof. by destruct w. Qed.

(** The three fields of a start line. *)
Lemma split_ws2_top (a b c : string) :
  is_word a = true → is_word b = true → PyStr.lstrip c ≠ "" →
  PyStr.split_ws2 (a +:+ " " +:+ b +:+ " " +:+ c) = [a; b; PyStr.lstrip c].
Proof.
  intros Ha Hb Hc. unfold PyStr.split_ws2.
  rewrite lstrip_word by done.
  pose proof (word_nonempty a (" " +:+ b +:+ " " +:+ c) Ha) as Hne.
  destruct (a +:+ " " +:+ b +:+ " " +:+ c) as [|x rest] eqn:Heq; [done|].
  rewrite <- Heq. clear Heq Hne x rest.
  apply andb_true_iff in Ha as [_ Ha'].
  change (a +:+ " " +:+ b +:+ " " +:+ c) with (a +:+ String " " (b +:+ " " +:+ c)).
  rewrite (span_word_app a _ Ha').
  change (PyStr.lstrip (String " " (b +:+ " " +:+ c))) with (PyStr.lstrip (b +:+ " " +:+ c)).
  rewrite lstrip_word by done.
  pose proof (word_nonempty b (" " +:+ c) Hb) as Hne.
  destruct (b +:+ " " +:+ c) as [|x rest] eqn:Heq; [done|].
  rewrite <- Heq. clear Heq Hne x rest.
  apply andb_true_iff in Hb as [_ Hb'].
  change (b +:+ " " +:+ c) with (b +:+ String " " c).
  rewrite (span_word_app b _ Hb').
  change (PyStr.lstrip (String " " c)) with (PyStr.lstrip c).
  by destruct (PyStr.lstrip c).
Qed.

Lemma all_chars_impl (P Q : ascii → bool) (s : string) :
  (∀ c, P c = true → Q c = true) → all_chars P s = true → all_chars Q s = true.
Proof.
  intros HPQ. induction s as [|x s IH]; simpl; [done|].
  intros [Hx Hs]%andb_true_iff. by rewrite (HPQ x Hx), IH.
Qed.

Lemma all_chars_occurs (P : ascii → bool) (c : ascii) (s : string) :
  all_chars P s = true → P c = false → occurs c s = false.
Proof.
  intros Hs Hc. induction s as [|x s IH]; simpl in *; [done|].
  apply andb_true_iff in Hs as [Hx Hs]. rewrite (IH Hs), orb_false_r.
  unfold PyStr.ascii_eqb. apply bool_decide_eq_false_2. intros ->. congruence.
Qed.

Lemma strip_no_space (s : string) :
  all_chars (fun c => negb (PyStr.is_space c)) s = true → PyStr.strip s = s.
Proof.
  intros Hs. unfold PyStr.strip.
  assert (PyStr.lstrip s = s) as ->.
  { destruct s as [|x s]; simpl in *; [done|].
    apply andb_true_iff in Hs as [Hx _]. apply negb_true_iff in Hx. by rewrite Hx. }
  induction s as [|x s IH]; simpl in *; [done|].
  apply andb_true_iff in Hs as [Hx Hs]. apply negb_true_iff in Hx.
  rewrite (IH Hs). destruct s; [by rewrite Hx|done].
Qed.

Lemma concat_app (l k : list string) :
  PyStr.concat (l ++ k) = PyStr.concat l +:+ PyStr.concat k.
Proof.
  unfold PyStr.concat. induction l as [|x l IH]; simpl; [done|].
  by rewrite IH, app_assoc_s.
Qed.

(** *** The lines of a message *)

(** A header line of the delta format. *)
Definition header_line (k p : string) : string := k +:+ String ":" p.

(** The name under which [format_http1] writes a key. *)
Definition wire_key (k : string) : string := if bool_decide (k = ":host") then "host" else k.

(** The lines of a header: one per piece of its value. *)
Definition lines_of (kv : string * string) : list string :=
  header_line kv.1 <$> PyStr.split PyStr.NUL kv.2.

(** Lines, each ended by a line feed. *)
Definition render (ls : list string) : string :=
  PyStr.concat ((fun l => l +:+ nl) <$> ls).

Lemma render_app (l k : list string) : render (l ++ k) = render l +:+ render k.
Proof. unfold render. by rewrite fmap_app, concat_app. Qed.

Lemma render_cons (x : string) (l : list string) : render (x :: l) = x +:+ String PyStr.LF (render l).
Proof. unfold render, nl. simpl. by rewrite app_assoc_s. Qed.

Lemma render_split (init : list string) (last : string) :
  Forall (fun l => occurs PyStr.LF l = false) init →
  occurs PyStr.LF last = false →
  PyStr.split PyStr.LF (render init +:+ last) = init ++ [last].
Proof.
  intros Hinit Hlast. induction Hinit as [|l init Hl _ IH]; simpl.
  - rewrite app_nil. by apply split_none.
  - rewrite render_cons, app_assoc_s. norm_app. rewrite split_app by done. by rewrite IH.
Qed.

(** [message.strip().split("\n")] on a message in the delta format: the
    lines, the last one without its trailing white space. *)
Lemma strip_render (init : list string) (last : string) :
  PyStr.lstrip (render (init ++ [last]) +:+ nl) = render (init ++ [last]) +:+ nl →
  Forall (fun l => occurs PyStr.LF l = false) init →
  occurs PyStr.LF last = false →
  PyStr.rstrip last ≠ "" →
  PyStr.split PyStr.LF (PyStr.strip (render (init ++ [last]) +:+ nl))
  = init ++ [PyStr.rstrip last].
Proof.
  intros Hl Hinit Hlast Hne. unfold PyStr.strip. rewrite Hl.
  rewrite render_app, render_cons. unfold render at 2. simpl.
  change (PyStr.concat []) with "".
  rewrite !app_assoc_s. norm_app.
  rewrite rstrip_app.
  change (String PyStr.LF "" +:+ nl) with (String PyStr.LF nl).
  rewrite (rstrip_app last (String PyStr.LF nl)).
  change (PyStr.rstrip (String PyStr.LF nl)) with "".
  destruct (PyStr.rstrip last) as [|c r] eqn:Hr; [done|].
  rewrite <- Hr. apply render_split; [done|]. by apply occurs_rstrip.
Qed.

(** *** [parse_http1]: the header lines *)

Lemma header_line_nonempty (k p : string) : header_line k p ≠ "".
Proof. unfold header_line. by destruct k. Qed.

Lemma join_cons_app (sep a b : string) (ps : list string) :
  PyStr.join sep ((a +:+ b) :: ps) = a +:+ PyStr.join sep (b :: ps).
Proof. destruct ps as [|p ps]; simpl; [done|]. by rewrite app_assoc_s. Qed.

Lemma join_foldl (sep x : string) (ps : list string) :
  foldl (fun a p => a +:+ sep +:+ p) x ps = PyStr.join sep (x :: ps).
Proof.
  revert x. induction ps as [|p ps IH]; intros x; simpl; [done|].
  rewrite IH. rewrite join_cons_app. f_equal. by rewrite join_cons_app.
Qed.

(** What [parse_http1] makes of a value that was written as header lines. *)
Definition reparse (v : string) : string :=
  PyStr.join (String PyStr.NUL "") (PyStr.strip <$> PyStr.split PyStr.NUL v).

Lemma parse_lines_more (k : string) (ps rest : list string) (acc : string) (out : headers) :
  occurs ":" k = false → PyStr.lower k = k →
  parse_lines ((header_line k <$> ps) ++ rest) (<[k := acc]> out)
  = parse_lines rest
      (<[k := foldl (fun a p => a +:+ String PyStr.NUL "" +:+ p) acc (PyStr.strip <$> ps)]> out).
Proof.
  intros Hk Hlow. revert acc. induction ps as [|p ps IH]; intros acc; simpl; [done|].
  rewrite bool_decide_eq_false_2 by apply header_line_nonempty.
  unfold header_line at 1. rewrite split1_app by done. rewrite Hlow.
  rewrite lookup_insert_eq, insert_insert_eq. apply IH.
Qed.

Lemma parse_lines_header (kv : string * string) (rest : list string) (out : headers) :
  occurs ":" kv.1 = false → PyStr.lower kv.1 = kv.1 → out !! kv.1 = None →
  parse_lines (lines_of kv ++ rest) out = parse_lines rest (<[kv.1 := reparse kv.2]> out).
Proof.
  destruct kv as [k v]. simpl. intros Hk Hlow Hout. unfold lines_of, reparse. simpl.
  pose proof (split_nonempty PyStr.NUL v) as Hne.
  destruct (PyStr.split PyStr.NUL v) as [|p ps]; [done|]. simpl.
  rewrite bool_decide_eq_false_2 by apply header_line_nonempty.
  unfold header_line at 1. rewrite split1_app by done. rewrite Hlow, Hout.
  rewrite parse_lines_more by done. by rewrite join_foldl.
Qed.

(** A dictionary filled from a list of pairs. *)
Definition fill {A} (key : A → string) (val : A → string) (out : headers) (l : list A)
    : headers :=
  foldl (fun o x => <[key x := val x]> o) out l.

Lemma fill_lookup_out {A} (key val : A → string) (l : list A) (out : headers) (k : string) :
  k ∉ key <$> l → fill key val out l !! k = out !! k.
Proof.
  revert out. induction l as [|x l IH]; intros out Hk; simpl; [done|].
  rewrite fmap_cons, not_elem_of_cons in Hk. destruct Hk as [Hx Hl].
  unfold fill in *. simpl. rewrite IH by done. by rewrite lookup_insert_ne.
Qed.

Lemma fill_lookup_in {A} (key val : A → string) (l : list A) (out : headers) (x : A) :
  NoDup (key <$> l) → x ∈ l → fill key val out l !! key x = Some (val x).
Proof.
  revert out. induction l as [|y l IH]; intros out Hnd Hx; [by apply elem_of_nil in Hx|].
  rewrite fmap_cons in Hnd. apply NoDup_cons in Hnd as [Hy Hnd].
  unfold fill in *. simpl. apply elem_of_cons in Hx as [->|Hx].
  - pose proof (fill_lookup_out key val l (<[key y := val y]> out) (key y) Hy) as Hl.
    unfold fill in Hl. rewrite Hl. apply lookup_insert_eq.
  - by apply IH.
Qed.

Lemma fill_lookup_Some {A} (key val : A → string) (l : list A) (k w : string) :
  NoDup (key <$> l) →
  fill key val ∅ l !! k = Some w ↔ ∃ x, x ∈ l ∧ key x = k ∧ val x = w.
Proof.
  intros Hnd. split.
  - intros Hk. destruct (decide (k ∈ key <$> l)) as [Hin|Hout].
    + apply list_elem_of_fmap in Hin as (x & -> & Hx).
      rewrite fill_lookup_in in Hk by done. exists x. naive_solver.
    + rewrite fill_lookup_out in Hk by done. by rewrite lookup_empty in Hk.
  - intros (x & Hx & <- & <-). by apply fill_lookup_in.
Qed.

Lemma parse_lines_headers (kvs : list (string * string)) (rest : list string) (out : headers) :
  NoDup kvs.*1 →
  Forall (fun kv => occurs ":" kv.1 = false ∧ PyStr.lower kv.1 = kv.1 ∧ out !! kv.1 = None) kvs →
  parse_lines (mjoin (lines_of <$> kvs) ++ rest) out
  = parse_lines rest (fill fst (fun kv => reparse kv.2) out kvs).
Proof.
  revert out. induction kvs as [|kv kvs IH]; intros out Hnd Hall; simpl; [done|].
  rewrite fmap_cons in Hnd. apply NoDup_cons in Hnd as [Hkv Hnd].
  apply Forall_cons in Hall as [(Hc & Hlow & Hout) Hall].
  rewrite <- app_assoc. rewrite parse_lines_header by done.
  unfold fill. simpl. apply IH; [done|].
  apply Forall_forall. intros kv' Hin.
  pose proof (proj1 (Forall_forall _ _) Hall kv' Hin) as (Hc' & Hlow' & Hout').
  split_and!; [done..|]. rewrite lookup_insert_ne; [done|].
  intros Heq. apply Hkv. rewrite Heq. apply list_elem_of_fmap. by exists kv'.
Qed.

(** The last line has lost its trailing white space. *)
Lemma parse_lines_rstrip (ls : list string) (l : string) (out : headers) :
  occurs ":" l = true →
  parse_lines (ls ++ [PyStr.rstrip l]) out = parse_lines (ls ++ [l]) out.
Proof.
  intros Hl. revert out. induction ls as [|x ls IH]; intros out; simpl.
  - assert (∃ a b, PyStr.split1 ":" l = Some (a, b)) as (a & b & Hab).
    { clear out. induction l as [|c l IHl]; simpl in *; [done|].
      destruct (PyStr.ascii_eqb c ":"); [by eauto|].
      destruct (IHl Hl) as (a & b & ->). by eauto. }
    pose proof (split1_rstrip ":" l a b eq_refl Hab) as Hab'.
    rewrite Hab, Hab'.
    assert (l ≠ "") as Hne by (by destruct l).
    assert (PyStr.rstrip l ≠ "") as Hne'.
    { intros Heq. by rewrite Heq in Hab'. }
    rewrite !bool_decide_eq_false_2 by done.
    by rewrite strip_rstrip.
  - case_bool_decide; [done|]. destruct (PyStr.split1 ":" x) as [[a b]|]; [|done].
    apply IH.
Qed.

Section RoundTrip.
Context `{PyLib}.

(** The headers that [format_http1] writes as lines. *)
Definition wire (avoid_list : list string) (frame : headers) : list (string * string) :=
  (fun kv => (wire_key kv.1, kv.2))
    <$> filter (fun kv => kv.1 ∉ avoid_list) (items frame).


Definition req_avoid : list string := [":method"; ":path"; ":version"; ":scheme"].
Definition res_avoid : list string := [":version"; ":status"; ":status-text"].

Lemma format_line_render (avoid_list : list string) (kv : string * string) :
  PyStr.concat (format_line avoid_list nl ":" "host" kv)
  = if bool_decide (kv.1 ∈ avoid_list) then "" else render (lines_of (wire_key kv.1, kv.2)).
Proof.
  destruct kv as [k v]. unfold format_line, lines_of, wire_key. simpl.
  case_bool_decide; [done|].
  generalize (if bool_decide (k = ":host") then "host" else k). intros k'.
  induction (PyStr.split PyStr.NUL v) as [|p ps IH]; [done|].
  rewrite !fmap_cons. simpl. rewrite render_cons.
  change (PyStr.concat (k' :: ":" :: p :: nl :: ?l)) with (k' +:+ ":" +:+ p +:+ nl +:+ PyStr.concat l).
  rewrite IH. unfold header_line, nl. norm_app. by rewrite app_assoc_s.
Qed.

Lemma format_lines_render (avoid_list : list string) (l : list (string * string)) :
  PyStr.concat (mjoin (format_line avoid_list nl ":" "host" <$> l))
  = render (mjoin (lines_of <$> ((fun kv => (wire_key kv.1, kv.2))
                                   <$> filter (fun kv => kv.1 ∉ avoid_list) l))).
Proof.
  induction l as [|kv l IH]; [done|].
  rewrite fmap_cons. simpl. rewrite concat_app, format_line_render, IH.
  rewrite filter_cons. case_bool_decide as Hin.
  - rewrite decide_False by (intros Hn; by apply Hn). by rewrite app_nil.
  - rewrite decide_True by done. rewrite !fmap_cons. simpl. by rewrite render_app.
Qed.

Lemma format_http1_request (frame : headers) (m p v : string) :
  frame !! ":method" = Some m → frame !! ":path" = Some p → frame !! ":version" = Some v →
  format_http1 frame nl ":" "host"
  = Ok (render ((m +:+ " " +:+ p +:+ " " +:+ v) :: mjoin (lines_of <$> wire req_avoid frame))
        +:+ nl).
Proof.
  intros Hm Hp Hv. unfold format_http1, getitem. rewrite Hm, Hp, Hv. simpl.
  f_equal. rewrite concat_app, format_lines_render. fold req_avoid.
  change (PyStr.concat [nl]) with (nl +:+ ""). rewrite !app_nil_r_s.
  rewrite render_cons. unfold wire, nl. rewrite !app_assoc_s. by norm_app.
Qed.

Lemma format_http1_response (frame : headers) (v s t : string) :
  frame !! ":method" = None →
  frame !! ":version" = Some v → frame !! ":status" = Some s → frame !! ":status-text" = Some t →
  format_http1 frame nl ":" "host"
  = Ok (render ((v +:+ " " +:+ s +:+ " " +:+ t) :: mjoin (lines_of <$> wire res_avoid frame))
        +:+ nl).
Proof.
  intros Hm Hv Hs Ht. unfold format_http1, getitem. rewrite Hm, Hv, Hs, Ht. simpl.
  f_equal. rewrite concat_app, format_lines_render. fold res_avoid.
  change (PyStr.concat [nl]) with (nl +:+ ""). rewrite !app_nil_r_s.
  rewrite render_cons. unfold wire, nl. rewrite !app_assoc_s. by norm_app.
Qed.

Lemma last_cases {A} (l : list A) : l = [] ∨ ∃ init last, l = init ++ [last].
Proof. induction l using rev_ind; [by left|right; eauto]. Qed.

Lemma word_occurs (c : ascii) (w : string) :
  PyStr.is_space c = true → is_word w = true → occurs c w = false.
Proof.
  intros Hc [_ Hw]%andb_true_iff. induction w as [|x w IH]; simpl in *; [done|].
  apply andb_true_iff in Hw as [Hx Hw]. rewrite IH by done.
  unfold PyStr.ascii_eqb. rewrite bool_decide_eq_false_2; [done|].
  intros ->. by rewrite Hc in Hx.
Qed.

Lemma occurs_split (c sep : ascii) (v : string) :
  occurs c v = false → Forall (fun p => occurs c p = false) (PyStr.split sep v).
Proof.
  induction v as [|x v IH]; simpl.
  - intros _. by repeat constructor.
  - intros [Hx Hv]%orb_false_iff. specialize (IH Hv).
    destruct (PyStr.ascii_eqb x sep).
    + by constructor.
    + destruct (PyStr.split sep v) as [|w ws]; [by repeat constructor; simpl; rewrite Hx|].
      apply Forall_cons in IH as [Hw Hws]. constructor; [|done]. simpl. by rewrite Hx.
Qed.

Lemma strip_nonempty (c : string) :
  PyStr.strip c ≠ "" →
  PyStr.lstrip c ≠ "" ∧ PyStr.rstrip c ≠ "" ∧ PyStr.lstrip (PyStr.rstrip c) ≠ "".
Proof.
  intros Hc. split_and!.
  - intros Heq. apply Hc. unfold PyStr.strip. by rewrite Heq.
  - intros Heq. apply Hc. unfold PyStr.strip. by rewrite <- lstrip_rstrip, Heq.
  - by rewrite lstrip_rstrip.
Qed.

Lemma rstrip_occurs (c : ascii) (l : string) :
  PyStr.is_space c = false → occurs c l = true → PyStr.rstrip l ≠ "".
Proof.
  intros Hc. induction l as [|x l IH]; simpl; [done|].
  intros Hx. destruct (PyStr.rstrip l) as [|z r]; [|done].
  apply orb_true_iff in Hx as [Hx|Hx]; [|by destruct (IH Hx)].
  apply bool_decide_eq_true_1 in Hx as ->. by rewrite Hc.
Qed.

Lemma rstrip_top (a b c : string) :
  PyStr.rstrip c ≠ "" →
  PyStr.rstrip (a +:+ " " +:+ b +:+ " " +:+ c) = a +:+ " " +:+ b +:+ " " +:+ PyStr.rstrip c.
Proof.
  intros Hc.
  assert (∀ x y, PyStr.rstrip y ≠ "" → PyStr.rstrip (x +:+ y) = x +:+ PyStr.rstrip y) as Happ.
  { intros x y Hy. rewrite rstrip_app. by destruct (PyStr.rstrip y). }
  assert (∀ x y, y ≠ "" → x +:+ y ≠ "") as Hne.
  { intros x y Hy. destruct x; [done|]. by norm_app. }
  rewrite Happ; [f_equal|]; (rewrite Happ; [f_equal|]); try (rewrite Happ; [f_equal|]);
    try (rewrite Happ; [f_equal|]); auto 10.
Qed.

(** The fields of the start line, whether or not it is the last line. *)
Lemma top_line_fields (a b c first : string) :
  is_word a = true → is_word b = true → PyStr.strip c ≠ "" →
  first = a +:+ " " +:+ b +:+ " " +:+ c
  ∨ first = PyStr.rstrip (a +:+ " " +:+ b +:+ " " +:+ c) →
  ∃ f2, PyStr.split_ws2 first = [a; b; f2] ∧ PyStr.strip f2 = PyStr.strip c.
Proof.
  intros Ha Hb Hc Hfirst. destruct (strip_nonempty c Hc) as (Hl & Hr & Hlr).
  destruct Hfirst as [->| ->].
  - exists (PyStr.lstrip c). split; [by apply split_ws2_top|apply strip_lstrip].
  - rewrite rstrip_top by done. exists (PyStr.lstrip (PyStr.rstrip c)).
    split; [by apply split_ws2_top|]. by rewrite strip_lstrip, strip_rstrip.
Qed.

Lemma occurs_header_line (c : ascii) (k p : string) :
  occurs c (header_line k p) = occurs c k || (PyStr.ascii_eqb ":" c || occurs c p).
Proof. unfold header_line. by rewrite occurs_app. Qed.

Lemma lines_of_nonempty (kv : string * string) : lines_of kv ≠ [].
Proof.
  unfold lines_of. pose proof (split_nonempty PyStr.NUL kv.2).
  by destruct (PyStr.split PyStr.NUL kv.2).
Qed.

(** The lines of a message in the delta format, as [parse_http1] sees
    them. *)
Lemma parse_message (a b c : string) (kvs : list (string * string)) :
  is_word a = true → is_word b = true → PyStr.strip c ≠ "" → occurs PyStr.LF c = false →
  NoDup kvs.*1 →
  Forall (fun kv => occurs ":" kv.1 = false ∧ occurs PyStr.LF kv.1 = false ∧
                    PyStr.lower kv.1 = kv.1 ∧ occurs PyStr.LF kv.2 = false) kvs →
  ∃ first lines f2,
    PyStr.split PyStr.LF
      (PyStr.strip (render ((a +:+ " " +:+ b +:+ " " +:+ c) :: mjoin (lines_of <$> kvs))
                    +:+ nl))
    = first :: lines ∧
    PyStr.split_ws2 first = [a; b; f2] ∧ PyStr.strip f2 = PyStr.strip c ∧
    parse_lines lines ∅ = Ok (fill fst (fun kv => reparse kv.2) ∅ kvs).
Proof.
  intros Ha Hb Hc Hlf Hnd Hall.
  set (top := a +:+ " " +:+ b +:+ " " +:+ c).
  assert (occurs PyStr.LF top = false) as Htop.
  { unfold top. rewrite !occurs_app, Hlf.
    by rewrite (word_occurs PyStr.LF a eq_refl Ha), (word_occurs PyStr.LF b eq_refl Hb). }
  assert (Forall (fun l => occurs PyStr.LF l = false ∧ occurs ":" l = true)
            (mjoin (lines_of <$> kvs))) as Hlines.
  { clear Hnd. induction Hall as [|[k v] kvs (Hk1 & Hk2 & _ & Hv) _ IH]; [constructor|].
    rewrite fmap_cons. simpl in *. apply Forall_app. split; [|done].
    unfold lines_of. simpl. apply Forall_fmap.
    eapply Forall_impl; [apply (occurs_split _ PyStr.NUL _ Hv)|].
    intros p Hp. simpl. rewrite !occurs_header_line, Hk2, Hp. split; [done|].
    by rewrite orb_true_r. }
  assert (∀ rest, PyStr.lstrip (render (top :: rest) +:+ nl) = render (top :: rest) +:+ nl)
    as Hlstrip.
  { intros rest. rewrite render_cons. unfold top. rewrite !app_assoc_s.
    by apply lstrip_word. }
  assert (parse_lines (mjoin (lines_of <$> kvs)) ∅
          = Ok (fill fst (fun kv => reparse kv.2) ∅ kvs)) as Hparse.
  { rewrite <- (app_nil_r (mjoin _)). rewrite parse_lines_headers; [done..|].
    eapply Forall_impl; [exact Hall|]. intros kv (? & _ & ? & _). by rewrite lookup_empty. }
  destruct (last_cases (mjoin (lines_of <$> kvs))) as [Hnil|(init & last & Hlast)].
  - destruct (top_line_fields a b c (PyStr.rstrip top) Ha Hb Hc) as (f2 & Hf & Hf2);
      [by right|].
    exists (PyStr.rstrip top), [], f2. rewrite Hnil in Hparse |- *.
    split_and!; [|done..].
    apply (strip_render [] top); [apply (Hlstrip [])|constructor|done|].
    unfold top. rewrite rstrip_top by (by apply strip_nonempty).
    destruct a; [done|]. by norm_app.
  - destruct (top_line_fields a b c top Ha Hb Hc) as (f2 & Hf & Hf2); [by left|].
    rewrite Hlast in Hlines. apply Forall_app in Hlines as [Hinit Hl].
    apply Forall_singleton in Hl as [Hl1 Hl2].
    exists top, (init ++ [PyStr.rstrip last]), f2. rewrite Hlast in Hparse |- *.
    split_and!; [|done..|].
    + apply (strip_render (top :: init) last).
      * apply (Hlstrip (init ++ [last])).
      * constructor; [done|]. eapply Forall_impl; [exact Hinit|]. by intros l [? _].
      * done.
      * by apply (rstrip_occurs ":").
    + by rewrite parse_lines_rstrip.
Qed.

(** *** The sending side on a fresh state *)

Lemma encode_headers_fresh (stripped hdrs : headers) :
  encode_headers None stripped = Ok hdrs →
  ∀ k w, hdrs !! k = Some w ↔
         ∃ name value, stripped !! name = Some value ∧ hdr_name name = Ok k ∧
                       w = field name value.
Proof.
  unfold encode_headers. intros ([hdrs0 refs] & Hfold & Hrun)%bind_Ok.
  apply compress_fold in Hfold as (-> & Hin & Hout); [|apply items_NoDup].
  assert (filter (fun nv : string * string => is_ref None nv.1 nv.2 = true) (items stripped) = [])
    as Hnone.
  { clear. induction (items stripped) as [|[n v] l IH]; [done|].
    rewrite filter_cons, decide_False; [exact IH|].
    unfold is_ref. simpl. by rewrite andb_false_r. }
  rewrite Hnone in Hrun. simpl in Hrun. injection Hrun as <-.
  intros k w. split.
  - intros Hk.
    destruct (decide (Exists (fun nv : string * string => hdr_name nv.1 = Ok k) (items stripped)))
      as [Hex|Hnex].
    + apply Exists_exists in Hex as ([n v] & Hnv & Hname). simpl in Hname.
      destruct (Hin n v Hnv) as (tok & Htok & Hlook).
      assert (tok = k) as -> by congruence.
      exists n, v. split; [by apply elem_of_items|]. split; [done|].
      unfold is_ref in Hlook. simpl in Hlook. rewrite andb_false_r in Hlook. simpl in Hlook.
      congruence.
    + rewrite Hout in Hk; [done|]. intros n v Hnv Hname. apply Hnex.
      apply Exists_exists. by exists (n, v).
  - intros (n & v & Hnv%elem_of_items & Hname & ->).
    destruct (Hin n v Hnv) as (tok & Htok & Hlook).
    assert (tok = k) as -> by congruence. rewrite Hlook.
    unfold is_ref. simpl. by rewrite andb_false_r.
Qed.

(** *** Names and tokens *)

(** The name under which [decompress] files a key of the parsed message. *)
Definition name_of (k : string) : result string :=
  c ← PyStr.head k;
  if PyStr.ascii_eqb c ":" then Ok k
  else if PyStr.ascii_eqb c "!" then Ok (PyStr.tail k)
  else getitem rev_lookups k.

Lemma rev_lookups_spec (name tok : string) :
  lookups !! name = Some tok → rev_lookups !! tok = Some name.
Proof.
  intros Hl. unfold rev_lookups. apply elem_of_list_to_map_1.
  - rewrite <- list_fmap_compose.
    apply NoDup_fmap_2_strong.
    + intros [n1 t1] [n2 t2] H1%elem_of_items H2%elem_of_items Heq. simpl in *. subst.
      f_equal. by eapply lookups_inj.
    + eapply NoDup_fmap_1. apply items_NoDup.
  - apply list_elem_of_fmap. exists (name, tok). split; [done|]. by apply elem_of_items.
Qed.

Lemma name_of_hdr_name (n k : string) : hdr_name n = Ok k → name_of k = Ok n.
Proof.
  intros Hk. pose proof (hdr_name_meta _ _ Hk) as Hmeta.
  apply hdr_name_Ok in Hk as [Hne Hcase].
  destruct (is_meta n) eqn:Hn.
  - subst k. unfold name_of. destruct n as [|c n]; [done|]. simpl in *. by rewrite Hn.
  - destruct (lookups !! n) as [tok|] eqn:Hl; subst k.
    + pose proof (lookups_tokens _ _ Hl) as (_ & Ht & _ & _ & Hbang & _ & Hne').
      unfold name_of. destruct tok as [|c tok]; [done|]. simpl in *. rewrite Ht.
      destruct (PyStr.ascii_eqb c "!") eqn:Hc.
      { apply bool_decide_eq_true_1 in Hc as ->. done. }
      unfold getitem. by rewrite (rev_lookups_spec _ _ Hl).
    + unfold name_of. simpl. done.
Qed.

(** What [decompress] makes of the value of a header. *)
Definition received (name w : string) : string :=
  if bool_decide (name ∈ date_hdrs) then decode_date w else w.

Lemma decompress_step_Ok (hdrs out : headers) (n k v : string) :
  hdr_name n = Ok k → hdrs !! k = Some v →
  decompress_step hdrs out k = Ok (<[n := received n v]> out).
Proof.
  intros Hk Hv. pose proof (hdr_name_not_ref _ _ Hk) as Href.
  pose proof (hdr_name_meta _ _ Hk) as Hmeta.
  unfold decompress_step, getitem. rewrite bool_decide_eq_false_2 by done. rewrite Hv.
  apply hdr_name_Ok in Hk as [Hne Hcase]. unfold received.
  destruct (is_meta n) eqn:Hn.
  - subst k. destruct n as [|c n]; [done|]. simpl in *. rewrite Hn.
    rewrite bool_decide_eq_false_2; [done|].
    apply bool_decide_eq_true_1 in Hn as ->. unfold date_hdrs. set_solver.
  - destruct (lookups !! n) as [tok|] eqn:Hl; subst k.
    + pose proof (lookups_tokens _ _ Hl) as (_ & Ht & _ & _ & Hbang & _ & Hne').
      destruct tok as [|c tok]; [done|]. simpl in *. rewrite Ht.
      destruct (PyStr.ascii_eqb c "!") eqn:Hc.
      { apply bool_decide_eq_true_1 in Hc as ->. done. }
      unfold getitem. rewrite (rev_lookups_spec _ _ Hl). simpl. by case_bool_decide.
    + simpl. rewrite bool_decide_eq_false_2; [done|].
      intros Hd. apply date_hdrs_lookups in Hd as (tok & Htok & _). congruence.
Qed.

Lemma foldlM_fill {A} (f : headers → A → result headers) (key val : A → string)
    (l : list A) (out : headers) :
  (∀ x o, x ∈ l → f o x = Ok (<[key x := val x]> o)) →
  foldlM f out l = Ok (fill key val out l).
Proof.
  revert out. induction l as [|x l IH]; intros out Hf; simpl; [done|].
  rewrite Hf by set_solver. simpl. apply IH. intros y o Hy. apply Hf. set_solver.
Qed.

(** The first loop of [decompress], on a dictionary whose keys are the
    tokens of header names. *)
Lemma decode_headers_spec (parsed : headers) :
  (∀ k, is_Some (parsed !! k) → ∃ n, hdr_name n = Ok k) →
  ∃ d, decode_headers parsed = Ok d ∧
    ∀ n x, d !! n = Some x ↔
           ∃ k v, parsed !! k = Some v ∧ hdr_name n = Ok k ∧ x = received n v.
Proof.
  intros Hkeys.
  set (key := fun k : string => match name_of k with Ok n => n | Raise _ => "" end).
  set (val := fun k : string => received (key k) (default "" (parsed !! k))).
  assert (∀ k n, hdr_name n = Ok k → key k = n) as Hkey.
  { intros k n Hk. unfold key. by rewrite (name_of_hdr_name _ _ Hk). }
  exists (fill key val ∅ (items parsed).*1). split.
  - unfold decode_headers. apply foldlM_fill.
    intros k o ([k' v] & -> & Hkv%elem_of_items)%list_elem_of_fmap. simpl.
    destruct (Hkeys k') as [n Hn]; [by eauto|].
    rewrite (decompress_step_Ok _ _ n k' v) by done.
    unfold val. rewrite Hkv. simpl. by rewrite (Hkey _ _ Hn).
  - intros n x. rewrite fill_lookup_Some.
    + split.
      * intros (k & ([k' v] & -> & Hkv%elem_of_items)%list_elem_of_fmap & <- & <-). simpl.
        destruct (Hkeys k') as [n Hn]; [by eauto|].
        exists k', v. unfold val. rewrite Hkv, (Hkey _ _ Hn). done.
      * intros (k & v & Hkv & Hn & ->). exists k. split_and!.
        -- apply list_elem_of_fmap. exists (k, v). split; [done|]. by apply elem_of_items.
        -- by apply Hkey.
        -- unfold val. by rewrite Hkv, (Hkey _ _ Hn).
    + apply NoDup_fmap_2_strong; [|apply items_NoDup].
      intros k1 k2 ([k1' v1] & -> & H1%elem_of_items)%list_elem_of_fmap
        ([k2' v2] & -> & H2%elem_of_items)%list_elem_of_fmap Heq. simpl in *.
      destruct (Hkeys k1') as [n1 Hn1]; [by eauto|].
      destruct (Hkeys k2') as [n2 Hn2]; [by eauto|].
      rewrite (Hkey _ _ Hn1), (Hkey _ _ Hn2) in Heq. congruence.
Qed.

(** *** Well-formed messages *)

(** A header name that survives the line format. *)
Definition name_ok (name : string) : Prop :=
  name ≠ "" ∧ occurs ":" name = false ∧ occurs PyStr.LF name = false ∧
  PyStr.lower name = name.

(** The value that [compare_headers] compares. *)
Definition cookie_norm (v : string) : string :=
  PyStr.join "; " (PyStr.sorted (PyStr.lstrip_char " " <$> PyStr.split ";" v)).

Definition compared (name v : string) : string :=
  if bool_decide (name = "cookie") then cookie_norm v else v.

(** A header value that the codec gives back: what is sent for it has no
    line feed, and what is received for it compares equal to it. *)
Definition value_ok (name value : string) : Prop :=
  occurs PyStr.LF (field name value) = false ∧
  PyStr.strip (compared name (received name (reparse (field name value))))
  = PyStr.strip (compared name value).

Global Instance name_ok_dec (name : string) : Decision (name_ok name).
Proof. unfold name_ok. apply _. Defined.

Global Instance value_ok_dec (name value : string) : Decision (value_ok name value).
Proof. unfold value_ok. apply _. Defined.

Definition request_ok (M : headers) : Prop :=
  (∃ m, M !! ":method" = Some m ∧ is_word m = true) ∧
  (∃ p, M !! ":path" = Some p ∧ is_word p = true) ∧
  (∃ v, M !! ":version" = Some v ∧ occurs PyStr.LF v = false ∧ PyStr.strip v ≠ "") ∧
  (∃ s, M !! ":scheme" = Some s ∧ PyStr.strip s = "http") ∧
  (∃ h, M !! ":host" = Some h ∧ value_ok ":host" h) ∧
  map_Forall (fun name _ => is_meta name = true →
                             name ∈ [":method"; ":path"; ":version"; ":scheme"; ":host"]) M ∧
  map_Forall (fun name value => is_meta name = false → name_ok name ∧ value_ok name value) M.

Definition response_ok (M : headers) : Prop :=
  (∃ v, M !! ":version" = Some v ∧ is_word v = true) ∧
  (∃ s, M !! ":status" = Some s ∧ is_word s = true) ∧
  (∃ t, M !! ":status-text" = Some t ∧ occurs PyStr.LF t = false ∧ PyStr.strip t ≠ "") ∧
  map_Forall (fun name _ => is_meta name = true →
                             name ∈ [":version"; ":status"; ":status-text"]) M ∧
  map_Forall (fun name value => is_meta name = false → name_ok name ∧ value_ok name value) M.

Lemma meta_not_date (n : string) : is_meta n = true → n ∉ date_hdrs.
Proof.
  intros Hn Hd. unfold date_hdrs in Hd.
  repeat (apply elem_of_cons in Hd as [->|Hd]; [done|]). by apply elem_of_nil in Hd.
Qed.

Lemma field_meta (n v : string) : is_meta n = true → field n v = v.
Proof. intros Hn. unfold field. by rewrite bool_decide_eq_false_2 by by apply meta_not_date. Qed.

Lemma received_meta (n v : string) : is_meta n = true → received n v = v.
Proof.
  intros Hn. unfold received. by rewrite bool_decide_eq_false_2 by by apply meta_not_date.
Qed.

Lemma compared_meta (n v : string) : is_meta n = true → compared n v = v.
Proof. intros Hn. unfold compared. rewrite bool_decide_eq_false_2; [done|]. by intros ->. Qed.

Lemma hdr_name_of_meta (n : string) : is_meta n = true → hdr_name n = Ok n.
Proof. intros Hn. apply hdr_name_Ok. rewrite Hn. split; [|done]. by intros ->. Qed.

Lemma meta_token (n k : string) : hdr_name n = Ok k → is_meta k = true → n = k.
Proof.
  intros Hk Hm. pose proof (hdr_name_meta _ _ Hk) as Hmeta. rewrite Hm in Hmeta.
  apply hdr_name_Ok in Hk as [_ Hcase]. by rewrite <- Hmeta in Hcase.
Qed.

(** The token of a header name that is not metadata. *)
Lemma token_ok (n k : string) :
  is_meta n = false → name_ok n → hdr_name n = Ok k →
  occurs ":" k = false ∧ occurs PyStr.LF k = false ∧ PyStr.lower k = k ∧
  k ≠ "host" ∧ is_meta k = false.
Proof.
  intros Hn (Hne & Hc & Hlf & Hlow) Hk.
  apply hdr_name_Ok in Hk as [_ Hcase]. rewrite Hn in Hcase.
  destruct (lookups !! n) as [tok|] eqn:Hl; subst k.
  - apply lookups_spec in Hl.
    assert (Forall (fun nt : string * string =>
              occurs ":" nt.2 = false ∧ occurs PyStr.LF nt.2 = false ∧
              PyStr.lower nt.2 = nt.2 ∧ nt.2 ≠ "host" ∧ is_meta nt.2 = false)
              lookups_table) as Hall.
    { apply (bool_decide_unpack _). vm_compute. exact I. }
    by apply (proj1 (Forall_forall _ _) Hall (n, tok)).
  - simpl. rewrite Hc, Hlf, Hlow. done.
Qed.

(** *** The lines that are written *)

Lemma elem_of_wire (avoid_list : list string) (frame : headers) (k' w : string) :
  (k', w) ∈ wire avoid_list frame ↔
  ∃ k, frame !! k = Some w ∧ k ∉ avoid_list ∧ k' = wire_key k.
Proof.
  unfold wire. rewrite list_elem_of_fmap. split.
  - intros ([k v] & [= -> ->] & [Hk Hin%elem_of_items]%list_elem_of_filter). eauto.
  - intros (k & Hk & Hav & ->). exists (k, w). split; [done|].
    apply list_elem_of_filter. split; [done|]. by apply elem_of_items.
Qed.

Lemma wire_NoDup (avoid_list : list string) (frame : headers) :
  frame !! "host" = None → NoDup (wire avoid_list frame).*1.
Proof.
  intros Hhost. unfold wire. rewrite <- list_fmap_compose.
  apply NoDup_fmap_2_strong.
  - intros [k1 v1] [k2 v2] [_ H1%elem_of_items]%list_elem_of_filter
      [_ H2%elem_of_items]%list_elem_of_filter. simpl. unfold wire_key.
    repeat case_bool_decide; intros Heq; subst; congruence.
  - apply NoDup_filter. eapply NoDup_fmap_1. apply items_NoDup.
Qed.

Lemma parsed_lines_spec (avoid_list : list string) (frame : headers) (k' w' : string) :
  frame !! "host" = None →
  fill fst (fun kv => reparse kv.2) ∅ (wire avoid_list frame) !! k' = Some w' ↔
  ∃ k w, frame !! k = Some w ∧ k ∉ avoid_list ∧ k' = wire_key k ∧ w' = reparse w.
Proof.
  intros Hhost. rewrite fill_lookup_Some by by apply wire_NoDup. split.
  - intros ([k w] & (k0 & Hk0 & Hav & ->)%elem_of_wire & <- & <-). simpl. eauto 10.
  - intros (k & w & Hk & Hav & -> & ->). exists (wire_key k, w).
    split; [|done]. apply elem_of_wire. eauto.
Qed.

(** The lines written for a well-formed message can be read back. *)
Lemma wire_ok (avoid_list : list string) (M hdrs : headers) :
  encode_headers None M = Ok hdrs →
  (∀ name value, M !! name = Some value → is_meta name = false →
                 name_ok name ∧ value_ok name value) →
  (∀ name value, M !! name = Some value → is_meta name = true →
                 name ∈ avoid_list ∨ (name = ":host" ∧ value_ok ":host" value)) →
  hdrs !! "host" = None ∧
  Forall (fun kv => occurs ":" kv.1 = false ∧ occurs PyStr.LF kv.1 = false ∧
                    PyStr.lower kv.1 = kv.1 ∧ occurs PyStr.LF kv.2 = false)
         (wire avoid_list hdrs).
Proof.
  intros Henc Hhdr Hmeta. pose proof (encode_headers_fresh _ _ Henc) as Hh.
  split.
  - destruct (hdrs !! "host") as [w|] eqn:Hw; [|done].
    apply Hh in Hw as (n & v & Hnv & Hk & _).
    pose proof (hdr_name_meta _ _ Hk) as Hm. simpl in Hm.
    destruct (Hhdr n v Hnv) as [Hok _]; [done|].
    by destruct (token_ok n "host" (eq_sym Hm) Hok Hk) as (_ & _ & _ & ? & _).
  - apply Forall_forall. intros [k' w] (k & Hk & Hav & ->)%elem_of_wire. simpl.
    apply Hh in Hk as (n & v & Hnv & Hk & ->).
    destruct (is_meta n) eqn:Hn.
    + pose proof (hdr_name_of_meta n Hn) as Hk'. assert (k = n) as -> by congruence.
      destruct (Hmeta n v Hnv Hn) as [Hin|[-> [Hlf _]]]; [done|].
      split_and!; [done..|exact Hlf].
    + destruct (Hhdr n v Hnv Hn) as [Hok [Hlf _]].
      destruct (token_ok n k Hn Hok Hk) as (Hc & Hl & Hlow & Hhost & Hmk).
      unfold wire_key. rewrite bool_decide_eq_false_2 by (by intros ->). done.
Qed.

(** *** The check of a decoded message *)

Lemma compare_fold_same (l : list (string * string)) (output : list string) :
  NoDup l.*1 →
  ∀ b_hdr,
    (∀ k v, (k, v) ∈ l →
       ∃ x, b_hdr !! k = Some x ∧ (k = ":version" ∨ PyStr.strip v = PyStr.strip x)) →
    ∃ b_hdr', foldlM compare_step (output, b_hdr) l = Ok (output, b_hdr').
Proof.
  induction l as [|[k v] l IH]; intros Hnd b_hdr Hall; [simpl; by eauto|].
  change (foldlM compare_step (output, b_hdr) ((k, v) :: l))
    with (compare_step (output, b_hdr) (k, v) ≫= fun b' => foldlM compare_step b' l).
  rewrite fmap_cons in Hnd. apply NoDup_cons in Hnd as [Hk Hnd].
  destruct (Hall k v) as (x & Hx & Hcmp); [set_solver|].
  assert (compare_step (output, b_hdr) (k, v) = Ok (output, delete k b_hdr)) as ->.
  { unfold compare_step, getitem. rewrite Hx. simpl. case_bool_decide as Hv; [done|].
    destruct Hcmp as [->|Hcmp]; [set_solver|].
    by rewrite bool_decide_eq_false_2 by (by intros ?). }
  simpl. apply IH; [done|]. intros k' v' Hin.
  destruct (Hall k' v') as (x' & Hx' & Hcmp'); [set_solver|].
  exists x'. split; [|done]. rewrite lookup_delete_ne; [done|].
  intros ->. apply Hk. apply list_elem_of_fmap. by exists (k', v').
Qed.

Lemma normalize_cookie_compared (d_hdr : headers) (k : string) :
  normalize_cookie d_hdr !! k = compared k <$> d_hdr !! k.
Proof.
  rewrite normalize_cookie_lookup. unfold compared, cookie_norm.
  case_bool_decide; [by subst|]. by destruct (d_hdr !! k).
Qed.

Lemma compare_headers_same (a_hdr b_hdr : headers) :
  (∀ n v, a_hdr !! n = Some v →
     ∃ x, b_hdr !! n = Some x ∧
          (n = ":version" ∨ PyStr.strip (compared n v) = PyStr.strip (compared n x))) →
  (∀ n, is_Some (b_hdr !! n) → is_Some (a_hdr !! n)) →
  compare_headers a_hdr b_hdr = Ok ("", normalize_cookie a_hdr, ∅).
Proof.
  intros Hab Hba.
  destruct (compare_fold_same (items (normalize_cookie a_hdr)) [] (items_NoDup _)
              (normalize_cookie b_hdr)) as [b' Hfold].
  { intros k v Hkv%elem_of_items. rewrite normalize_cookie_compared in Hkv.
    destruct (a_hdr !! k) as [v0|] eqn:Hv0; [|done]. injection Hkv as <-.
    destruct (Hab k v0 Hv0) as (x & Hx & Hcmp).
    exists (compared k x). rewrite normalize_cookie_compared, Hx. done. }
  assert (b' = ∅) as ->.
  { apply map_eq. intros k. rewrite lookup_empty.
    rewrite (compare_fold _ _ _ _ _ Hfold k).
    case_bool_decide as Hin; [done|].
    rewrite normalize_cookie_compared.
    destruct (b_hdr !! k) as [x|] eqn:Hx; [|done].
    destruct (Hba k) as [v Hv]; [by eauto|].
    exfalso. apply Hin. apply list_elem_of_fmap. exists (k, compared k v).
    split; [done|]. apply elem_of_items. by rewrite normalize_cookie_compared, Hv. }
  unfold compare_headers. rewrite Hfold. simpl. by rewrite items_empty.
Qed.

(** A parsed message whose metadata are [metas] and whose other keys are
    the tokens of the headers of [M] decodes to a dictionary that
    [compare_headers] finds equal to [M]. *)
Lemma decode_and_compare (M parsed : headers) (metas : list (string * string)) :
  (∀ name value, M !! name = Some value → is_meta name = false →
                 name_ok name ∧ value_ok name value) →
  (∀ k v, parsed !! k = Some v ↔
          (k, v) ∈ metas ∨
          ∃ n value, M !! n = Some value ∧ is_meta n = false ∧ hdr_name n = Ok k ∧
                     v = reparse (field n value)) →
  (∀ k v, (k, v) ∈ metas →
          is_meta k = true ∧
          ∃ v0, M !! k = Some v0 ∧ (k = ":version" ∨ PyStr.strip v0 = PyStr.strip v)) →
  (∀ n, is_Some (M !! n) → is_meta n = true → n ∈ metas.*1) →
  ∃ d, decode_headers parsed = Ok d ∧
       compare_headers M d = Ok ("", normalize_cookie M, ∅).
Proof.
  intros Hhdr Hparsed Hmetas Hall.
  destruct (decode_headers_spec parsed) as (d & Hd & Hlook).
  { intros k [v [Hkv|(n & value & _ & _ & Hk & _)]%Hparsed]; [|by eauto].
    destruct (Hmetas k v Hkv) as [Hm _]. exists k. by apply hdr_name_of_meta. }
  assert (∀ n v, M !! n = Some v →
            ∃ x, d !! n = Some x ∧
                 (n = ":version" ∨ PyStr.strip (compared n v) = PyStr.strip (compared n x)))
    as Hab.
  { intros n v0 Hn. destruct (is_meta n) eqn:Hm.
    - assert (n ∈ metas.*1) as Hin by (apply Hall; eauto).
      apply list_elem_of_fmap in Hin as ([k v] & -> & Hkv). simpl in *.
      destruct (Hmetas k v Hkv) as (_ & v0' & Hv0' & Hcmp).
      assert (v0' = v0) as -> by congruence.
      exists v. split.
      + apply Hlook. exists k, v. split; [apply Hparsed; by left|].
        split; [by apply hdr_name_of_meta|]. by rewrite received_meta.
      + by rewrite !compared_meta.
    - destruct (Hhdr n v0 Hn Hm) as [(Hne & _) [_ Hval]].
      destruct (hdr_name_is_Some n Hne) as [k Hk].
      exists (received n (reparse (field n v0))). split; [|by right].
      apply Hlook. exists k, (reparse (field n v0)). split; [|done].
      apply Hparsed. right. eauto 10. }
  exists d. split; [done|]. apply compare_headers_same; [done|].
  intros n [x (k & v & Hkv & Hk & _)%Hlook].
  apply Hparsed in Hkv as [Hkv|(n' & value & Hn' & _ & Hk' & _)].
  - destruct (Hmetas k v Hkv) as (Hm & v0 & Hv0 & _).
    rewrite (meta_token _ _ Hk Hm). by eauto.
  - rewrite (hdr_name_inj _ _ _ Hk Hk'). by eauto.
Qed.

(** *** Requests and responses *)

Lemma request_parsed (M hdrs : headers) :
  request_ok M → encode_headers None M = Ok hdrs →
  ∃ out parsed metas,
    format_http1 hdrs nl ":" "host" = Ok out ∧ parse_http1 out = Ok parsed ∧
    (∀ k v, parsed !! k = Some v ↔
            (k, v) ∈ metas ∨
            ∃ n value, M !! n = Some value ∧ is_meta n = false ∧ hdr_name n = Ok k ∧
                       v = reparse (field n value)) ∧
    (∀ k v, (k, v) ∈ metas →
            is_meta k = true ∧
            ∃ v0, M !! k = Some v0 ∧ (k = ":version" ∨ PyStr.strip v0 = PyStr.strip v)) ∧
    (∀ n, is_Some (M !! n) → is_meta n = true → n ∈ metas.*1).
Proof.
  intros ((m & Hm & Hwm) & (p & Hp & Hwp) & (v & Hv & Hvlf & Hvne) & (s & Hs & Hsch) &
          (h & Hh & Hhok) & Hmeta & Hhdr) Henc.
  pose proof (encode_headers_fresh _ _ Henc) as Hfresh.
  pose proof (encode_headers_meta _ _ _ ":method" Henc eq_refl) as Hm'.
  pose proof (encode_headers_meta _ _ _ ":path" Henc eq_refl) as Hp'.
  pose proof (encode_headers_meta _ _ _ ":version" Henc eq_refl) as Hv'.
  pose proof (encode_headers_meta _ _ _ ":host" Henc eq_refl) as Hh'.
  rewrite Hm in Hm'. rewrite Hp in Hp'. rewrite Hv in Hv'. rewrite Hh in Hh'.
  destruct (wire_ok req_avoid M hdrs Henc Hhdr) as [Hhost Hwire].
  { intros name value Hn Hmn.
    pose proof (Hmeta name value Hn Hmn) as Hin. unfold req_avoid.
    do 4 (apply elem_of_cons in Hin as [->|Hin]; [left; set_solver|]).
    apply elem_of_cons in Hin as [->|Hin]; [|by apply elem_of_nil in Hin].
    right. split; [done|]. congruence. }
  destruct (parse_message m p v (wire req_avoid hdrs) Hwm Hwp Hvne Hvlf
              (wire_NoDup _ _ Hhost) Hwire)
    as (first & lines & f2 & Hsplit & Hws & Hf2 & Hpl).
  set (out0 := fill fst (fun kv : string * string => reparse kv.2) ∅ (wire req_avoid hdrs))
    in *.
  assert (∀ k' w', out0 !! k' = Some w' ↔
            ∃ k w, hdrs !! k = Some w ∧ k ∉ req_avoid ∧ k' = wire_key k ∧ w' = reparse w)
    as Hout0 by (intros; by apply parsed_lines_spec).
  assert (out0 !! "host" = Some (reparse h)) as Hhost0.
  { apply Hout0. exists ":host", h. split_and!; [done| |done..].
    unfold req_avoid. set_solver. }
  eexists _, (delete "host"
               (<[":host" := reparse h]>
                 (<[":version" := PyStr.strip f2]>
                   (<[":path" := p]> (<[":method" := m]> (<[":scheme" := "http"]> out0)))))),
    [(":scheme", "http"); (":method", m); (":path", p); (":version", PyStr.strip f2);
     (":host", reparse h)].
  split; [by apply format_http1_request|].
  split.
  { unfold parse_http1. rewrite Hsplit, Hws, Hpl.
    change (Ok out0 ≫= ?f) with (f out0). cbv beta. rewrite Hhost0. reflexivity. }
  split; [|split].
  - intros k w. split.
    + intros [Hk Hw]%lookup_delete_Some.
      repeat (apply lookup_insert_Some in Hw as [[<- <-]|[? Hw]]; [left; set_solver|]).
      right. apply Hout0 in Hw as (k0 & w0 & Hk0 & Hav & -> & ->).
      apply Hfresh in Hk0 as (n & value & Hn & Hk0 & ->).
      destruct (is_meta n) eqn:Hmn.
      * exfalso. pose proof (hdr_name_of_meta n Hmn) as Hk0'.
        assert (k0 = n) as -> by congruence.
        pose proof (Hmeta n value Hn Hmn) as Hin. unfold req_avoid in Hav.
        do 4 (apply elem_of_cons in Hin as [->|Hin]; [set_solver|]).
        apply elem_of_cons in Hin as [->|Hin]; [|by apply elem_of_nil in Hin].
        by apply Hk.
      * destruct (Hhdr n value Hn Hmn) as [Hok _].
        destruct (token_ok n k0 Hmn Hok Hk0) as (_ & _ & _ & _ & Hmk).
        exists n, value. split_and!; [done..| |done].
        unfold wire_key. by rewrite bool_decide_eq_false_2 by (by intros ->).
    + intros [Hin|(n & value & Hn & Hmn & Hk & ->)].
      * repeat (apply elem_of_cons in Hin as [[= -> ->]|Hin];
                  [rewrite lookup_delete_ne by done;
                   rewrite ?lookup_insert_ne by done; by rewrite lookup_insert_eq|]).
        by apply elem_of_nil in Hin.
      * destruct (Hhdr n value Hn Hmn) as [Hok _].
        destruct (token_ok n k Hmn Hok Hk) as (_ & _ & _ & Hnh & Hmk).
        rewrite lookup_delete_ne by done.
        rewrite !lookup_insert_ne by (by intros <-).
        apply Hout0. exists k, (field n value). split_and!.
        -- apply Hfresh. eauto.
        -- unfold req_avoid. intros Hin.
           repeat (apply elem_of_cons in Hin as [->|Hin]; [done|]). by apply elem_of_nil in Hin.
        -- unfold wire_key. by rewrite bool_decide_eq_false_2 by (by intros ->).
        -- done.
  - intros k w Hin.
    repeat (apply elem_of_cons in Hin as [[= -> ->]|Hin]; [split; [done|]|]).
    + exists s. split; [done|]. right. by rewrite Hsch.
    + exists m. split; [done|]. by right.
    + exists p. split; [done|]. by right.
    + exists v. split; [done|]. by left.
    + exists h. split; [done|]. right. destruct Hhok as [_ Hval].
      by rewrite !compared_meta, received_meta, field_meta in Hval.
    + by apply elem_of_nil in Hin.
  - intros n [value Hn] Hmn. pose proof (Hmeta n value Hn Hmn) as Hin. set_solver.
Qed.

Lemma response_parsed (M hdrs : headers) :
  response_ok M → encode_headers None M = Ok hdrs →
  ∃ out parsed metas,
    format_http1 hdrs nl ":" "host" = Ok out ∧ parse_http1 out = Ok parsed ∧
    (∀ k v, parsed !! k = Some v ↔
            (k, v) ∈ metas ∨
            ∃ n value, M !! n = Some value ∧ is_meta n = false ∧ hdr_name n = Ok k ∧
                       v = reparse (field n value)) ∧
    (∀ k v, (k, v) ∈ metas →
            is_meta k = true ∧
            ∃ v0, M !! k = Some v0 ∧ (k = ":version" ∨ PyStr.strip v0 = PyStr.strip v)) ∧
    (∀ n, is_Some (M !! n) → is_meta n = true → n ∈ metas.*1).
Proof.
  intros ((v & Hv & Hwv) & (s & Hs & Hws) & (t & Ht & Htlf & Htne) & Hmeta & Hhdr) Henc.
  pose proof (encode_headers_fresh _ _ Henc) as Hfresh.
  pose proof (encode_headers_meta _ _ _ ":method" Henc eq_refl) as Hm'.
  pose proof (encode_headers_meta _ _ _ ":version" Henc eq_refl) as Hv'.
  pose proof (encode_headers_meta _ _ _ ":status" Henc eq_refl) as Hs'.
  pose proof (encode_headers_meta _ _ _ ":status-text" Henc eq_refl) as Ht'.
  rewrite Hv in Hv'. rewrite Hs in Hs'. rewrite Ht in Ht'.
  assert (M !! ":method" = None) as Hnm.
  { destruct (M !! ":method") as [x|] eqn:Hx; [|done].
    assert (":method" ∈ [":version"; ":status"; ":status-text"]) as Hin
      by (by apply (Hmeta ":method" x)).
    repeat (apply elem_of_cons in Hin as [?|Hin]; [done|]). by apply elem_of_nil in Hin. }
  rewrite Hnm in Hm'.
  assert (∀ name value, M !! name = Some value → is_meta name = true → name ∈ res_avoid)
    as Hmeta'.
  { intros name value Hn Hmn. by apply (Hmeta name value). }
  destruct (wire_ok res_avoid M hdrs Henc Hhdr) as [Hhost Hwire].
  { intros name value Hn Hmn. left. by eapply Hmeta'. }
  destruct (parse_message v s t (wire res_avoid hdrs) Hwv Hws Htne Htlf
              (wire_NoDup _ _ Hhost) Hwire)
    as (first & lines & f2 & Hsplit & Hsw & Hf2 & Hpl).
  set (out0 := fill fst (fun kv : string * string => reparse kv.2) ∅ (wire res_avoid hdrs))
    in *.
  assert (∀ k' w', out0 !! k' = Some w' ↔
            ∃ k w, hdrs !! k = Some w ∧ k ∉ res_avoid ∧ k' = wire_key k ∧ w' = reparse w)
    as Hout0 by (intros; by apply parsed_lines_spec).
  assert (∀ k0 w0, hdrs !! k0 = Some w0 → k0 ∉ res_avoid →
            ∃ n value, M !! n = Some value ∧ is_meta n = false ∧ hdr_name n = Ok k0 ∧
                       w0 = field n value ∧ wire_key k0 = k0 ∧ k0 ≠ "host" ∧
                       is_meta k0 = false) as Hplain.
  { intros k0 w0 Hk0 Hav. apply Hfresh in Hk0 as (n & value & Hn & Hk0 & ->).
    destruct (is_meta n) eqn:Hmn.
    - exfalso. pose proof (hdr_name_of_meta n Hmn) as Hk0'.
      assert (k0 = n) as -> by congruence. apply Hav. by eapply Hmeta'.
    - destruct (Hhdr n value Hn Hmn) as [Hok _].
      destruct (token_ok n k0 Hmn Hok Hk0) as (_ & _ & _ & Hnh & Hmk).
      exists n, value. split_and!; [done..| |done|done].
      unfold wire_key. by rewrite bool_decide_eq_false_2 by (by intros ->). }
  assert (out0 !! "host" = None) as Hhost0.
  { destruct (out0 !! "host") as [w|] eqn:Hw; [|done].
    apply Hout0 in Hw as (k0 & w0 & Hk0 & Hav & Hwk & _).
    destruct (Hplain k0 w0 Hk0 Hav) as (_ & _ & _ & _ & _ & _ & Heq & Hnh & _).
    congruence. }
  eexists _, (<[":status-text" := PyStr.strip f2]>
               (<[":status" := s]> (<[":version" := v]> out0))),
    [(":status-text", PyStr.strip f2); (":status", s); (":version", v)].
  split; [by apply format_http1_response|].
  split.
  { unfold parse_http1. rewrite Hsplit, Hsw, Hpl.
    change (Ok out0 ≫= ?f) with (f out0). cbv beta. rewrite Hhost0. reflexivity. }
  split; [|split].
  - intros k w. split.
    + intros Hw.
      repeat (apply lookup_insert_Some in Hw as [[<- <-]|[? Hw]]; [left; set_solver|]).
      right. apply Hout0 in Hw as (k0 & w0 & Hk0 & Hav & -> & ->).
      destruct (Hplain k0 w0 Hk0 Hav) as (n & value & Hn & Hmn & Hk & -> & -> & _).
      eauto 10.
    + intros [Hin|(n & value & Hn & Hmn & Hk & ->)].
      * repeat (apply elem_of_cons in Hin as [[= -> ->]|Hin];
                  [rewrite ?lookup_insert_ne by done; by rewrite lookup_insert_eq|]).
        by apply elem_of_nil in Hin.
      * destruct (Hhdr n value Hn Hmn) as [Hok _].
        destruct (token_ok n k Hmn Hok Hk) as (_ & _ & _ & Hnh & Hmk).
        rewrite !lookup_insert_ne by (by intros <-).
        apply Hout0. exists k, (field n value). split_and!.
        -- apply Hfresh. eauto.
        -- unfold res_avoid. intros Hin.
           repeat (apply elem_of_cons in Hin as [->|Hin]; [done|]). by apply elem_of_nil in Hin.
        -- unfold wire_key. by rewrite bool_decide_eq_false_2 by (by intros ->).
        -- done.
  - intros k w Hin.
    repeat (apply elem_of_cons in Hin as [[= -> ->]|Hin]; [split; [done|]|]).
    + exists t. split; [done|]. right. by rewrite strip_idemp, Hf2.
    + exists s. split; [done|]. by right.
    + exists v. split; [done|]. by left.
    + by apply elem_of_nil in Hin.
  - intros n [value Hn] Hmn. pose proof (Hmeta n value Hn Hmn) as Hin. set_solver.
Qed.

Lemma ok_names (M : headers) : request_ok M ∨ response_ok M → M !! "" = None.
Proof.
  intros Hok. destruct (M !! "") as [v|] eqn:Hv; [|done].
  assert (name_ok "") as (Hne & _); [|done].
  destruct Hok as [(_ & _ & _ & _ & _ & _ & Hhdr)|(_ & _ & _ & _ & Hhdr)];
    by destruct (Hhdr "" v Hv eq_refl).
Qed.

(** C1 (amended). Let the message, once [compress] has removed its
    hop-by-hop headers, be a well-formed request or response: a request
    holds [:method] and [:path] (words: not empty, no white space),
    [:version] (not blank, no line feed), [:scheme] (["http"] up to
    surrounding white space) and [:host], a response holds [:version] and
    [:status] (words) and [:status-text] (not blank, no line feed), and
    neither holds other names that start with a colon; every other name is
    not empty, in lower case and free of colons and line feeds; and every
    value, [:host] included, is one that the codec gives back, that is,
    what is sent for it (the hexadecimal time stamp for a date header whose
    value [parse_date] accepts, the value itself otherwise) has no line
    feed, and what is received for it (the pieces between the NUL
    characters, each stripped, and for a date header the date that the
    time stamp formats to) compares equal to it ([cookie] values sorted,
    all values stripped).  Then on a fresh state [compress] returns, the
    message in the store is the stripped one, [decompress] returns on the
    output, and [compare_headers] on the message and the decoded
    dictionary returns the empty string. *)
Theorem C1_round_trip (σ : store) (l : nat) (host : string) (M : headers) :
  σ !! l = Some M →
  request_ok (strip_conn_headers M) ∨ response_ok (strip_conn_headers M) →
  ∃ out self' σ' d self'',
    compress σ Processor_init l host = Ok (out, self', σ') ∧
    σ' !! l = Some (strip_conn_headers M) ∧
    decompress self' out = Ok (d, self'') ∧
    compare_headers (strip_conn_headers M) d
    = Ok ("", normalize_cookie (strip_conn_headers M), ∅).
Proof.
  intros Hl Hok. set (M' := strip_conn_headers M) in *.
  destruct (encode_headers_total None M' (ok_names M' Hok)) as [hdrs Henc].
  assert (∃ out parsed metas,
    format_http1 hdrs nl ":" "host" = Ok out ∧ parse_http1 out = Ok parsed ∧
    (∀ k v, parsed !! k = Some v ↔
            (k, v) ∈ metas ∨
            ∃ n value, M' !! n = Some value ∧ is_meta n = false ∧ hdr_name n = Ok k ∧
                       v = reparse (field n value)) ∧
    (∀ k v, (k, v) ∈ metas →
            is_meta k = true ∧
            ∃ v0, M' !! k = Some v0 ∧ (k = ":version" ∨ PyStr.strip v0 = PyStr.strip v)) ∧
    (∀ n, is_Some (M' !! n) → is_meta n = true → n ∈ metas.*1))
    as (out & parsed & metas & Hout & Hparse & Hparsed & Hmetas & Hall).
  { destruct Hok as [Hreq|Hres]; [by apply request_parsed|by apply response_parsed]. }
  assert (∀ name value, M' !! name = Some value → is_meta name = false →
                        name_ok name ∧ value_ok name value) as Hhdr.
  { destruct Hok as [(_ & _ & _ & _ & _ & _ & Hhdr)|(_ & _ & _ & _ & Hhdr)]; exact Hhdr. }
  destruct (decode_and_compare M' parsed metas Hhdr Hparsed Hmetas Hall) as (d & Hd & Hcmp).
  exists out, {| last_c := Some l; last_d := None |}, (<[l := M']> σ), d,
    {| last_c := Some l; last_d := Some d |}.
  split_and!.
  - apply compress_Ok. exists M, hdrs. split_and!; done.
  - apply lookup_insert_eq.
  - unfold decompress. rewrite Hparse. simpl. rewrite Hd. simpl.
    by rewrite andb_false_r.
  - done.
Qed.

(** Values that the codec gives back. *)
Lemma value_ok_plain (n v : string) :
  n ∉ date_hdrs → n ≠ "cookie" →
  occurs PyStr.LF v = false → occurs PyStr.NUL v = false → value_ok n v.
Proof.
  intros Hd Hc Hlf Hnul. unfold value_ok, field, received, compared, reparse.
  rewrite !bool_decide_eq_false_2 by done. split; [done|].
  rewrite split_none by done. simpl. apply strip_idemp.
Qed.

Lemma value_ok_cookie (v : string) :
  occurs PyStr.LF v = false → occurs PyStr.NUL v = false → PyStr.strip v = v →
  value_ok "cookie" v.
Proof.
  intros Hlf Hnul Hs. unfold value_ok, field, received, compared, reparse.
  rewrite !bool_decide_eq_false_2 by (unfold date_hdrs; set_solver).
  split; [done|]. rewrite split_none by done. simpl. by rewrite Hs.
Qed.

Lemma value_ok_date (n v : string) (t : Z) :
  n ∈ date_hdrs → parse_date v = Ok t →
  PyStr.strip (decode_date (PyStr.hex t)) = PyStr.strip v → value_ok n v.
Proof.
  intros Hd Ht Hv. unfold value_ok, field, received, compared, reparse, date_field.
  rewrite !bool_decide_eq_true_2 by done. rewrite Ht.
  rewrite bool_decide_eq_false_2 by (intros ->; unfold date_hdrs in Hd; set_solver).
  pose proof (hex_lower t) as Hhex.
  rewrite (all_chars_occurs _ PyStr.LF _ Hhex eq_refl).
  rewrite split_none by apply (all_chars_occurs _ PyStr.NUL _ Hhex eq_refl).
  split; [done|].
  change (PyStr.strip <$> [PyStr.hex t]) with [PyStr.strip (PyStr.hex t)].
  unfold PyStr.join. rewrite (strip_no_space (PyStr.hex t)); [done|].
  eapply all_chars_impl; [|exact Hhex].
  intros c Hc. destruct (PyStr.is_space c) eqn:Hsc; [|done].
  exfalso. revert Hc Hsc. clear. unfold PyStr.is_space.
  destruct c as [[] [] [] [] [] [] [] []]; by vm_compute.
Qed.

End RoundTrip.

(** The response and the request of the demonstration are well formed: the
    response carries a date in the format that [formatdate] writes, the
    request a cookie, and hop-by-hop headers that [compress] removes. *)
Lemma demo_response_ok : response_ok (strip_conn_headers demo_response).
Proof.
  split_and!.
  - exists "HTTP/1.1". split; vm_compute; reflexivity.
  - exists "200". split; vm_compute; reflexivity.
  - exists "OK". split_and!; [vm_compute; reflexivity..|]. by vm_compute.
  - apply (bool_decide_unpack (map_Forall _ _)). vm_compute. exact I.
  - apply (bool_decide_unpack (map_Forall _ _)). vm_compute. exact I.
Defined.

Lemma demo_request_ok : request_ok (strip_conn_headers demo_request).
Proof.
  split_and!.
  - exists "GET". split; vm_compute; reflexivity.
  - exists "/". split; vm_compute; reflexivity.
  - exists "HTTP/1.1". split_and!; [vm_compute; reflexivity..|]. by vm_compute.
  - exists "http". split; vm_compute; reflexivity.
  - exists "example.com". split; [vm_compute; reflexivity|].
    apply (bool_decide_unpack _). vm_compute. exact I.
  - apply (bool_decide_unpack (map_Forall _ _)). vm_compute. exact I.
  - apply (bool_decide_unpack (map_Forall _ _)). vm_compute. exact I.
Defined.

Lemma C1_witness :
  (∃ out self' σ' d self'',
     compress (dicts demo_tester) Processor_init 1 "example.com" = Ok (out, self', σ') ∧
     σ' !! 1%nat = Some (strip_conn_headers demo_request) ∧
     decompress self' out = Ok (d, self'') ∧
     compare_headers (strip_conn_headers demo_request) d
     = Ok ("", normalize_cookie (strip_conn_headers demo_request), ∅)) ∧
  (∃ out self' σ' d self'',
     compress (dicts demo_tester) Processor_init 2 "example.com" = Ok (out, self', σ') ∧
     σ' !! 2%nat = Some (strip_conn_headers demo_response) ∧
     decompress self' out = Ok (d, self'') ∧
     compare_headers (strip_conn_headers demo_response) d
     = Ok ("", normalize_cookie (strip_conn_headers demo_response), ∅)).
Proof.
  split.
  - apply (C1_round_trip (dicts demo_tester) 1 "example.com" demo_request);
      [vm_compute; reflexivity|left; exact demo_request_ok].
  - apply (C1_round_trip (dicts demo_tester) 2 "example.com" demo_response);
      [vm_compute; reflexivity|right; exact demo_response_ok].
Defined.

(** A response whose [expires] header is not a date, as servers send it to
    mean "already expired". *)
Definition c1_message : headers :=
  list_to_map [(":status", "200"); (":status-text", "OK"); (":version", "HTTP/1.1");
               ("expires", "0")].

Definition c1_out : string := "HTTP/1.1 200 OK" +:+ nl +:+ "x:0" +:+ nl +:+ nl.

Definition c1_decoded : headers :=
  <["expires" := "Thu, 01 Jan 1970 00:00:00 GMT"]> c1_message.

Definition c1_report : string :=
  TAB +:+ "expires has mismatched values:" +:+ nl +:+
  TAB +:+ "  a -> 0" +:+ nl +:+
  TAB +:+ "  b -> Thu, 01 Jan 1970 00:00:00 GMT".

(** The value is sent as it is, read back as the hexadecimal number 0 and
    decoded to the date of the epoch: the check reports a difference. *)
Lemma C1_counterexample :
  compress {[ 1%nat := c1_message ]} Processor_init 1 "example.com"
    = Ok (c1_out, {| last_c := Some 1%nat; last_d := None |}, {[ 1%nat := c1_message ]}) ∧
  decompress {| last_c := Some 1%nat; last_d := None |} c1_out
    = Ok (c1_decoded, {| last_c := Some 1%nat; last_d := Some c1_decoded |}) ∧
  compare_headers c1_message c1_decoded = Ok (c1_report, c1_message, ∅) ∧
  c1_report ≠ "".
Proof.
  split_and!; first [compute_done | apply (bool_decide_unpack _); vm_compute; exact I].
Qed.

(** A request for an [https] resource: the scheme is not sent, and
    [parse_http1] sets it to ["http"]. *)
Definition https_request : headers :=
  list_to_map [(":method", "GET"); (":path", "/"); (":version", "HTTP/1.1");
               (":scheme", "https"); (":host", "example.com")].

Lemma https_request_differs :
  (r ← compress {[ 1%nat := https_request ]} Processor_init 1 "example.com";
   d ← decompress r.1.2 r.1.1;
   c ← compare_headers https_request d.1;
   Ok c.1.1)
  = Ok (TAB +:+ ":scheme has mismatched values:" +:+ nl +:+
        TAB +:+ "  a -> https" +:+ nl +:+
        TAB +:+ "  b -> http").
Proof. compute_done. Qed.

(** * Further properties *)

(** ** The codec: tokens, stripping, errors *)

(** A loop in which every step returns or raises an exception in [P], and
    one of the steps always raises, raises an exception in [P]. *)
Lemma foldlM_raises_in {A B} (P : exn → Prop) (f : B → A → result B) (l : list A) (x : A) :
  x ∈ l →
  (∀ b y, y ∈ l → (∃ b', f b y = Ok b') ∨ ∃ e, f b y = Raise e ∧ P e) →
  (∀ b, ∃ e, f b x = Raise e) →
  ∀ b, ∃ e, foldlM f b l = Raise e ∧ P e.
Proof.
  intros Hin Hstep Hx. induction l as [|y l IH]; intros b; [by apply elem_of_nil in Hin|].
  simpl. destruct (Hstep b y) as [[b' Hb']|(e & He & HP)]; [set_solver| |].
  - apply elem_of_cons in Hin as [<-|Hin].
    + destruct (Hx b) as [e He]. congruence.
    + rewrite Hb'. simpl. apply IH; [done|]. intros b0 y0 Hy0. apply Hstep. set_solver.
  - rewrite He. by exists e.
Qed.

Section CodecBasics.

Context `{PyLib}.

(** X2. [strip_conn_headers] only removes headers, and a second call
    removes nothing more: the codecs that [process_message] runs one after
    the other on the same dictionary all encode the same headers. *)
Theorem strip_conn_headers_stable (hdrs : headers) :
  strip_conn_headers hdrs ⊆ hdrs ∧
  strip_conn_headers (strip_conn_headers hdrs) = strip_conn_headers hdrs.
Proof.
  split; [|apply strip_conn_headers_idemp].
  apply map_subseteq_spec. intros k v. rewrite strip_conn_headers_lookup.
  by case_bool_decide.
Qed.

(** X3. The token that [hdr_name] gives a header name is never [ref], no
    other name has it, and the loop of [decompress] files a line under
    that token under the name again (the value decoded when the name is a
    date header). *)
Theorem token_round_trip (n k : string) :
  hdr_name n = Ok k →
  k ≠ "ref" ∧
  (∀ n', hdr_name n' = Ok k → n' = n) ∧
  ∀ hdrs out v,
    hdrs !! k = Some v →
    decompress_step hdrs out k
    = Ok (<[n := if bool_decide (n ∈ date_hdrs) then decode_date v else v]> out).
Proof.
  intros Hk. split_and!.
  - by eapply hdr_name_not_ref.
  - intros n' Hk'. by eapply hdr_name_inj.
  - intros hdrs out v Hv. by rewrite (decompress_step_Ok hdrs out n k v).
Qed.

(** X4. The reversed table that [Processor.__init__] builds inverts the
    table of tokens and has as many entries: the assertion of the
    constructor holds. *)
Theorem rev_lookups_inverse :
  (∀ name tok, rev_lookups !! tok = Some name ↔ lookups !! name = Some tok) ∧
  size rev_lookups = size lookups.
Proof.
  assert (NoDup ((fun kv : string * string => (kv.2, kv.1)) <$> items lookups).*1) as Hnd.
  { rewrite <- list_fmap_compose. apply NoDup_fmap_2_strong.
    - intros [n1 t1] [n2 t2] H1%elem_of_items H2%elem_of_items Heq. simpl in *. subst.
      f_equal. by eapply lookups_inj.
    - eapply NoDup_fmap_1. apply items_NoDup. }
  split.
  - intros name tok. split; [|apply rev_lookups_spec].
    unfold rev_lookups. intros Hin%elem_of_list_to_map_2.
    apply list_elem_of_fmap in Hin as ([n t] & [= -> ->] & Hin). by apply elem_of_items.
  - unfold rev_lookups. rewrite map_size_list_to_map by done.
    rewrite length_fmap. rewrite (Permutation_length (items_perm lookups)).
    apply length_map_to_list.
Qed.

(** The first of the fields of the start line that the frame lacks, in the
    order in which [format_http1] reads them. *)
Definition missing_field (frame : headers) : option string :=
  head (filter (fun k => frame !! k = None)
          (if bool_decide (is_Some (frame !! ":method"))
           then [":method"; ":path"; ":version"]
           else [":version"; ":status"; ":status-text"])).

Lemma format_http1_cases (frame : headers) (d v h : string) :
  match missing_field frame with
  | Some k => format_http1 frame d v h = Raise (KeyError k)
  | None => ∃ out, format_http1 frame d v h = Ok out
  end.
Proof.
  unfold missing_field, format_http1, getitem.
  destruct (frame !! ":method") as [m|] eqn:Hm; simpl.
  - rewrite filter_cons, decide_False by (by rewrite Hm). 
    destruct (frame !! ":path") as [p|] eqn:Hp; simpl.
    + rewrite filter_cons, decide_False by (by rewrite Hp).
      destruct (frame !! ":version") as [ver|] eqn:Hv; simpl.
      * rewrite filter_cons, decide_False by (by rewrite Hv). simpl. by eauto.
      * by rewrite filter_cons, decide_True.
    + by rewrite filter_cons, decide_True.
  - destruct (frame !! ":version") as [ver|] eqn:Hv; simpl.
    + rewrite filter_cons, decide_False by (by rewrite Hv).
      destruct (frame !! ":status") as [s|] eqn:Hs; simpl.
      * rewrite filter_cons, decide_False by (by rewrite Hs).
        destruct (frame !! ":status-text") as [t|] eqn:Ht; simpl.
        -- rewrite filter_cons, decide_False by (by rewrite Ht). simpl. by eauto.
        -- by rewrite filter_cons, decide_True.
      * by rewrite filter_cons, decide_True.
    + by rewrite filter_cons, decide_True.
Qed.

(** X5. [format_http1] returns exactly when the frame holds the fields of
    its start line: [:method], [:path] and [:version] when it holds
    [:method], and [:version], [:status] and [:status-text] otherwise; it
    raises [KeyError] for the first of them that is missing, whatever the
    other headers are. *)
Theorem format_http1_errors (frame : headers) (delimiter valsep host : string) :
  match missing_field frame with
  | Some k => format_http1 frame delimiter valsep host = Raise (KeyError k)
  | None => ∃ out, format_http1 frame delimiter valsep host = Ok out
  end.
Proof. apply format_http1_cases. Qed.

Lemma missing_field_meta (f1 f2 : headers) :
  (∀ k, is_meta k = true → f2 !! k = f1 !! k) → missing_field f2 = missing_field f1.
Proof.
  intros Hmeta. unfold missing_field.
  rewrite (Hmeta ":method") by done.
  destruct (bool_decide _); rewrite !filter_cons, !filter_nil;
    rewrite ?(Hmeta ":method"), ?(Hmeta ":path"), ?(Hmeta ":version"),
      ?(Hmeta ":status"), ?(Hmeta ":status-text") by done; done.
Qed.

Lemma compress_step_raises last acc name value e :
  compress_step last acc (name, value) = Raise e → e = IndexError ∧ name = "".
Proof.
  destruct acc as [hdrs refs]. destruct name as [|c name].
  - unfold compress_step. rewrite bool_decide_eq_false_2 by (unfold date_hdrs; set_solver).
    destruct (truthy last); simpl; by intros [= <-].
  - destruct (compress_step_total last (hdrs, refs) (String c name) value) as [acc' ->]; done.
Qed.

(** X6. [compress] raises [IndexError] when the message, hop-by-hop
    headers removed, has a header with the empty name; otherwise it raises
    [KeyError] for the first missing field of the start line, and returns
    when there is none, leaving the stripped message in place and the
    state referring to it. *)
Theorem compress_errors (σ : store) (self : DeltaProcessor) (l : nat) (host : string)
    (M : headers) :
  σ !! l = Some M →
  match strip_conn_headers M !! "", missing_field (strip_conn_headers M) with
  | Some _, _ => compress σ self l host = Raise IndexError
  | None, Some k => compress σ self l host = Raise (KeyError k)
  | None, None =>
      ∃ out, compress σ self l host
             = Ok (out, {| last_c := Some l; last_d := last_d self |},
                   <[l := strip_conn_headers M]> σ)
  end.
Proof.
  intros Hl. set (M' := strip_conn_headers M). set (σ' := <[l := M']> σ).
  set (last := last_c self ≫= (σ' !!.)).
  assert (compress σ self l host
          = hdrs ← encode_headers last M';
            out ← format_http1 hdrs (String PyStr.LF "") ":" "host";
            Ok (out, {| last_c := Some l; last_d := last_d self |}, σ')) as Hc.
  { unfold compress. by rewrite Hl. }
  rewrite Hc. clear Hc.
  destruct (M' !! "") as [v|] eqn:Hempty.
  - unfold encode_headers.
    destruct (foldlM_raises_in (fun e => e = IndexError) (compress_step last) (items M')
                ("", v)) with (b := (∅ : headers, @nil string)) as (e & -> & ->).
    + by apply elem_of_items.
    + intros b [n w] _. destruct (compress_step last b (n, w)) as [b'|e] eqn:Hs; [by eauto|].
      right. exists e. split; [done|]. by apply compress_step_raises in Hs as [-> _].
    + intros [hdrs refs]. exists IndexError. unfold compress_step.
      rewrite bool_decide_eq_false_2 by (unfold date_hdrs; set_solver).
      by destruct (truthy last).
    + done.
  - destruct (encode_headers_total last M' Hempty) as [hdrs Henc]. rewrite Henc. simpl.
    rewrite (missing_field_meta hdrs M')
      by (intros k Hk; symmetry; by apply (encode_headers_meta last M' hdrs k)).
    pose proof (format_http1_cases hdrs (String PyStr.LF "") ":" "host") as Hf.
    destruct (missing_field hdrs) as [k|]; [by rewrite Hf|].
    destruct Hf as [out ->]. by eauto.
Qed.

End CodecBasics.

Lemma token_round_trip_witness :
  "ct" ≠ "ref" ∧
  (∀ n', hdr_name n' = Ok "ct" → n' = "content-type") ∧
  ∀ hdrs out v,
    hdrs !! "ct" = Some v →
    decompress_step hdrs out "ct"
    = Ok (<["content-type" := if bool_decide ("content-type" ∈ date_hdrs)
                              then decode_date v else v]> out).
Proof. apply (token_round_trip "content-type" "ct"). vm_compute. reflexivity. Defined.

(** A message with a header whose name is empty, and one without
    [:path]. *)
Lemma compress_errors_witness :
  compress {[ 1%nat := <["" := "x"]> demo_request ]} Processor_init 1 "example.com"
    = Raise IndexError ∧
  compress {[ 1%nat := delete ":path" demo_request ]} Processor_init 1 "example.com"
    = Raise (KeyError ":path").
Proof.
  split.
  - exact (compress_errors {[ 1%nat := <["" := "x"]> demo_request ]} Processor_init 1
             "example.com" (<["" := "x"]> demo_request) eq_refl).
  - exact (compress_errors {[ 1%nat := delete ":path" demo_request ]} Processor_init 1
             "example.com" (delete ":path" demo_request) eq_refl).
Defined.

(** ** The receiving side: what [parse_http1] returns and when *)

Lemma lower_char_idemp (c : ascii) : PyStr.lower_char (PyStr.lower_char c) = PyStr.lower_char c.
Proof. destruct c as [[] [] [] [] [] [] [] []]; by vm_compute. Qed.

Lemma lower_char_colon (c : ascii) :
  PyStr.ascii_eqb (PyStr.lower_char c) ":" = PyStr.ascii_eqb c ":".
Proof. destruct c as [[] [] [] [] [] [] [] []]; by vm_compute. Qed.

Lemma lower_idemp (s : string) : PyStr.lower (PyStr.lower s) = PyStr.lower s.
Proof. induction s as [|c s IH]; simpl; [done|]. by rewrite lower_char_idemp, IH. Qed.

Lemma occurs_lower_colon (s : string) : occurs ":" (PyStr.lower s) = occurs ":" s.
Proof. induction s as [|c s IH]; simpl; [done|]. by rewrite lower_char_colon, IH. Qed.

Lemma split1_Some (sep : ascii) (s a b : string) :
  PyStr.split1 sep s = Some (a, b) → occurs sep a = false ∧ occurs sep s = true.
Proof.
  revert a. induction s as [|c s IH]; intros a; simpl; [done|].
  destruct (PyStr.ascii_eqb c sep) eqn:Hc; [by intros [= <- <-]|].
  destruct (PyStr.split1 sep s) as [[a' b']|]; [|done].
  intros [= <- <-]. destruct (IH a' eq_refl) as [Ha Hs]. simpl. by rewrite Hc, Ha.
Qed.

Lemma split1_None (sep : ascii) (s : string) :
  PyStr.split1 sep s = None ↔ occurs sep s = false.
Proof.
  induction s as [|c s IH]; simpl; [done|].
  destruct (PyStr.ascii_eqb c sep); simpl; [done|].
  rewrite <- IH. by destruct (PyStr.split1 sep s) as [[??]|].
Qed.

(** A string without white space at its ends. *)
Lemma stripped_ends (s : string) :
  PyStr.strip s = s ↔ PyStr.lstrip s = s ∧ PyStr.rstrip s = s.
Proof.
  split.
  - intros Hs. split.
    + rewrite <- Hs at 1. unfold PyStr.strip. by rewrite lstrip_rstrip, lstrip_idemp.
    + rewrite <- Hs at 1. unfold PyStr.strip. by rewrite rstrip_idemp.
  - intros [Hl Hr]. unfold PyStr.strip. by rewrite Hl.
Qed.

Lemma stripped_append (old s : string) :
  PyStr.strip old = old → PyStr.strip s = s →
  PyStr.strip (old +:+ String PyStr.NUL "" +:+ s) = old +:+ String PyStr.NUL "" +:+ s.
Proof.
  intros [Hlo Hro]%stripped_ends [Hls Hrs]%stripped_ends. apply stripped_ends. split.
  - destruct old as [|c old]; [done|]. norm_app. simpl in *.
    destruct (PyStr.is_space c) eqn:Hc; [|done].
    exfalso. clear -Hlo Hc.
    assert (∀ t, String.length (PyStr.lstrip t) ≤ String.length t)%nat as Hlen.
    { induction t as [|x t IH]; simpl; [done|]. destruct (PyStr.is_space x); simpl; lia. }
    specialize (Hlen old). rewrite Hlo in Hlen. simpl in Hlen. lia.
  - rewrite rstrip_app. norm_app.
    change (PyStr.rstrip (String PyStr.NUL s))
      with (match PyStr.rstrip s with
            | EmptyString => String PyStr.NUL ""
            | r => String PyStr.NUL r
            end).
    rewrite Hrs. by destruct s.
Qed.

Lemma span_word_spec (s w r : string) :
  PyStr.span_word s = (w, r) → all_chars (fun c => negb (PyStr.is_space c)) w = true.
Proof.
  revert w. induction s as [|c s IH]; intros w; simpl; [by intros [= <- <-]|].
  destruct (PyStr.is_space c) eqn:Hc; [by intros [= <- <-]|].
  destruct (PyStr.span_word s) as [w' r']. intros [= <- <-]. simpl.
  by rewrite Hc, (IH w' eq_refl).
Qed.

(** The first two fields of a start line are free of white space. *)
Lemma split_ws2_words (s : string) (i : nat) (w : string) :
  (i < 2)%nat → PyStr.split_ws2 s !! i = Some w → PyStr.strip w = w.
Proof.
  intros Hi. unfold PyStr.split_ws2.
  destruct (PyStr.lstrip s) as [|c1 s1]; [done|].
  destruct (PyStr.span_word (String c1 s1)) as [w1 r1] eqn:H1.
  apply span_word_spec in H1.
  destruct (PyStr.lstrip r1) as [|c2 s2].
  { destruct i as [|[|i]]; simpl; [|done|lia]. intros [= <-]. by apply strip_no_space. }
  destruct (PyStr.span_word (String c2 s2)) as [w2 r2] eqn:H2.
  apply span_word_spec in H2.
  destruct (PyStr.lstrip r2) as [|c3 s3];
    (destruct i as [|[|i]]; simpl; [| |lia]; intros [= <-]; by apply strip_no_space).
Qed.

Lemma split_ws2_length (s : string) : (length (PyStr.split_ws2 s) ≤ 3)%nat.
Proof.
  unfold PyStr.split_ws2.
  destruct (PyStr.lstrip s) as [|c1 s1]; [simpl; lia|].
  destruct (PyStr.span_word _) as [w1 r1].
  destruct (PyStr.lstrip r1) as [|c2 s2]; [simpl; lia|].
  destruct (PyStr.span_word _) as [w2 r2].
  destruct (PyStr.lstrip r2) as [|c3 s3]; simpl; lia.
Qed.

(** The lines that [parse_http1] reads as headers: those before the first
    empty one. *)
Fixpoint header_block (lines : list string) : list string :=
  match lines with
  | [] => []
  | l :: rest => if bool_decide (l = "") then [] else l :: header_block rest
  end.

(** The name that [parse_http1] gives the header of a line. *)
Definition line_name (line : string) : option string :=
  (fun nv => PyStr.lower nv.1) <$> PyStr.split1 ":" line.

(** The keys and the values that the loop of [parse_http1] leaves. *)
Definition stripped_map (m : headers) : Prop :=
  ∀ k v, m !! k = Some v →
    occurs ":" k = false ∧ PyStr.lower k = k ∧ PyStr.strip v = v.

Lemma parse_lines_Ok (lines : list string) :
  ∀ out0 out,
    parse_lines lines out0 = Ok out →
    Forall (fun l => occurs ":" l = true) (header_block lines) ∧
    (stripped_map out0 → stripped_map out) ∧
    ∀ k, is_Some (out !! k) ↔
         is_Some (out0 !! k) ∨ Exists (fun l => line_name l = Some k) (header_block lines).
Proof.
  induction lines as [|l lines IH]; intros out0 out; simpl.
  - intros [= <-]. split_and!; [constructor|done|].
    intros k. rewrite Exists_nil. split; [by left|by intros [?|[]]].
  - case_bool_decide as Hl.
    { intros [= <-]. split_and!; [constructor|done|].
      intros k. rewrite Exists_nil. split; [by left|by intros [?|[]]]. }
    destruct (PyStr.split1 ":" l) as [[name value]|] eqn:Hs; [|done].
    destruct (split1_Some _ _ _ _ Hs) as [Hname Hcolon].
    intros Hrun. apply IH in Hrun as (Hall & Hinv & Hdom).
    assert (line_name l = Some (PyStr.lower name)) as Hln by (unfold line_name; by rewrite Hs).
    split_and!.
    + by constructor.
    + intros Hout0. apply Hinv. intros k v.
      destruct (out0 !! PyStr.lower name) as [old|] eqn:Hold.
      * intros [[<- <-]|[Hne Hk]]%lookup_insert_Some; [|by apply Hout0].
        destruct (Hout0 _ _ Hold) as (Hc & Hlow & Hstr). split_and!; [done..|].
        apply stripped_append; [done|apply strip_idemp].
      * intros [[<- <-]|[Hne Hk]]%lookup_insert_Some; [|by apply Hout0].
        rewrite occurs_lower_colon, lower_idemp. split_and!; [done..|apply strip_idemp].
    + intros k. rewrite Hdom, Exists_cons, Hln.
      assert (is_Some (match out0 !! PyStr.lower name with
                       | Some old =>
                           <[PyStr.lower name := old +:+ String PyStr.NUL "" +:+ PyStr.strip value]> out0
                       | None => <[PyStr.lower name := PyStr.strip value]> out0
                       end !! k)
              ↔ is_Some (out0 !! k) ∨ PyStr.lower name = k) as ->.
      { destruct (out0 !! PyStr.lower name) as [old|] eqn:Hold;
          rewrite lookup_insert_is_Some.
        - split; [intros [->|[_ ?]]; [by right|by left]|].
          intros [Hk| ->]; [|by left].
          destruct (decide (PyStr.lower name = k)); [by left|by right].
        - split; [intros [->|[_ ?]]; [by right|by left]|].
          intros [Hk| ->]; [|by left].
          destruct (decide (PyStr.lower name = k)); [by left|by right]. }
      split.
      * intros [[Hk|Hk]|Hex]; [by left|right; left; by rewrite Hk|right; by right].
      * intros [Hk|[[= Hk]|Hex]]; [left; by left|left; by right|by right].
Qed.

Lemma parse_lines_block (lines : list string) (out0 : headers) :
  Forall (fun l => occurs ":" l = true) (header_block lines) →
  ∃ out, parse_lines lines out0 = Ok out.
Proof.
  revert out0. induction lines as [|l lines IH]; intros out0; simpl; [by eauto|].
  case_bool_decide; [by eauto|].
  intros [Hl Hall]%Forall_cons.
  destruct (PyStr.split1 ":" l) as [[name value]|] eqn:Hs.
  - by apply IH.
  - apply split1_None in Hs. congruence.
Qed.

Lemma parse_lines_ValueError (lines : list string) (out0 : headers) :
  Exists (fun l => occurs ":" l = false) (header_block lines) →
  parse_lines lines out0 = Raise ValueError.
Proof.
  revert out0. induction lines as [|l lines IH]; intros out0; simpl.
  - by intros ?%Exists_nil.
  - case_bool_decide; [by intros ?%Exists_nil|].
    intros [Hl|Hex]%Exists_cons.
    + apply split1_None in Hl. by rewrite Hl.
    + destruct (PyStr.split1 ":" l) as [[name value]|]; [by apply IH|done].
Qed.

Section Parse.

Context `{PyLib}.

(** X7. When [parse_http1] returns, header names are in lower case and
    free of colons, no value has white space at its ends, and there is no
    [host] entry.  The result is a request ([:scheme] is ["http"],
    [:method], [:path], [:version] and [:host] are set) exactly when one of
    the lines before the first empty line is a [host] header, and a
    response ([:version], [:status] and [:status-text] are set) otherwise;
    the names with a colon are these and no others. *)
Theorem parse_http1_shape (message : string) (out : headers) :
  parse_http1 message = Ok out →
  out !! "host" = None ∧
  (∀ k v, out !! k = Some v → PyStr.lower k = k ∧ PyStr.strip v = v) ∧
  ∃ first rest,
    PyStr.split PyStr.LF (PyStr.strip message) = first :: rest ∧
    if bool_decide (Exists (fun l => line_name l = Some "host") (header_block rest))
    then
      out !! ":scheme" = Some "http" ∧
      out !! ":method" = PyStr.split_ws2 first !! 0%nat ∧
      out !! ":path" = PyStr.split_ws2 first !! 1%nat ∧
      out !! ":version" = PyStr.strip <$> PyStr.split_ws2 first !! 2%nat ∧
      is_Some (out !! ":method") ∧ is_Some (out !! ":path") ∧
      is_Some (out !! ":version") ∧ is_Some (out !! ":host") ∧
      ∀ k, is_Some (out !! k) → occurs ":" k = true →
           k ∈ [":scheme"; ":method"; ":path"; ":version"; ":host"]
    else
      out !! ":version" = PyStr.split_ws2 first !! 0%nat ∧
      out !! ":status" = PyStr.split_ws2 first !! 1%nat ∧
      out !! ":status-text" = PyStr.strip <$> PyStr.split_ws2 first !! 2%nat ∧
      is_Some (out !! ":version") ∧ is_Some (out !! ":status") ∧
      is_Some (out !! ":status-text") ∧
      ∀ k, is_Some (out !! k) → occurs ":" k = true →
           k ∈ [":version"; ":status"; ":status-text"].
Proof.
  unfold parse_http1.
  destruct (PyStr.split PyStr.LF (PyStr.strip message)) as [|first rest] eqn:Hsplit; [done|].
  intros (out0 & Hlines & Hrun)%bind_Ok.
  destruct (parse_lines_Ok _ _ _ Hlines) as (_ & Hinv & Hdom).
  assert (stripped_map out0) as Hout0 by (apply Hinv; by intros k v; rewrite lookup_empty).
  assert (is_Some (out0 !! "host")
          ↔ Exists (fun l => line_name l = Some "host") (header_block rest)) as Hhost.
  { rewrite Hdom, lookup_empty. split; [intros [[? [=]]|?]; done|by right]. }
  unfold top_field in Hrun.
  destruct (out0 !! "host") as [h|] eqn:Hh.
  - apply bind_Ok in Hrun as (f0 & Hf0 & Hrun).
    apply bind_Ok in Hrun as (f1 & Hf1 & Hrun).
    apply bind_Ok in Hrun as (f2 & Hf2 & [= <-]).
    destruct (PyStr.split_ws2 first !! 0%nat) as [f0'|] eqn:H0; simplify_eq/=.
    destruct (PyStr.split_ws2 first !! 1%nat) as [f1'|] eqn:H1; simplify_eq/=.
    destruct (PyStr.split_ws2 first !! 2%nat) as [f2'|] eqn:H2; simplify_eq/=.
    split; [apply lookup_delete_eq|].
    split.
    { intros k v [Hk Hv]%lookup_delete_Some.
      repeat (apply lookup_insert_Some in Hv as [[<- <-]|[? Hv]]).
      - destruct (Hout0 _ _ Hh) as (_ & _ & ?). done.
      - split; [done|apply strip_idemp].
      - split; [done|]. apply (split_ws2_words first 1); [lia|done].
      - split; [done|]. apply (split_ws2_words first 0); [lia|done].
      - done.
      - by destruct (Hout0 _ _ Hv) as (_ & ? & ?). }
    exists first, rest. split; [done|]. rewrite H0, H1, H2. simpl.
    rewrite bool_decide_eq_true_2 by (apply Hhost; eauto).
    rewrite !lookup_delete_ne by done.
    split_and!;
      try (rewrite ?lookup_insert_ne by done; rewrite lookup_insert_eq; by eauto).
    intros k [v [Hk Hv]%lookup_delete_Some] Hc.
    repeat (apply lookup_insert_Some in Hv as [[<- <-]|[? Hv]]; [set_solver|]).
    destruct (Hout0 _ _ Hv) as (Hc' & _). congruence.
  - apply bind_Ok in Hrun as (f0 & Hf0 & Hrun).
    apply bind_Ok in Hrun as (f1 & Hf1 & Hrun).
    apply bind_Ok in Hrun as (f2 & Hf2 & [= <-]).
    destruct (PyStr.split_ws2 first !! 0%nat) as [f0'|] eqn:H0; simplify_eq/=.
    destruct (PyStr.split_ws2 first !! 1%nat) as [f1'|] eqn:H1; simplify_eq/=.
    destruct (PyStr.split_ws2 first !! 2%nat) as [f2'|] eqn:H2; simplify_eq/=.
    split; [by rewrite !lookup_insert_ne by done|].
    split.
    { intros k v Hv.
      repeat (apply lookup_insert_Some in Hv as [[<- <-]|[? Hv]]).
      - split; [done|apply strip_idemp].
      - split; [done|]. apply (split_ws2_words first 1); [lia|done].
      - split; [done|]. apply (split_ws2_words first 0); [lia|done].
      - by destruct (Hout0 _ _ Hv) as (_ & ? & ?). }
    exists first, rest. split; [done|]. rewrite H0, H1, H2. simpl.
    rewrite bool_decide_eq_false_2 by (intros Hex; apply Hhost in Hex as [? [=]]).
    split_and!;
      try (rewrite ?lookup_insert_ne by done; rewrite lookup_insert_eq; by eauto).
    intros k [v Hv] Hc.
    repeat (apply lookup_insert_Some in Hv as [[<- <-]|[? Hv]]; [set_solver|]).
    destruct (Hout0 _ _ Hv) as (Hc' & _). congruence.
Qed.

(** X8. [parse_http1] reads the lines up to the first empty one.  It
    raises [ValueError] when one of them has no colon; otherwise it raises
    [IndexError] when the first line has fewer than three fields, and
    returns when it has three. *)
Theorem parse_http1_errors (message first : string) (rest : list string) :
  PyStr.split PyStr.LF (PyStr.strip message) = first :: rest →
  (Exists (fun l => occurs ":" l = false) (header_block rest) →
   parse_http1 message = Raise ValueError) ∧
  (Forall (fun l => occurs ":" l = true) (header_block rest) →
   if bool_decide (length (PyStr.split_ws2 first) = 3%nat)
   then ∃ out, parse_http1 message = Ok out
   else parse_http1 message = Raise IndexError).
Proof.
  intros Hsplit. unfold parse_http1. rewrite Hsplit. split.
  - intros Hex. by rewrite parse_lines_ValueError.
  - intros Hall. destruct (parse_lines_block rest ∅ Hall) as [out0 ->].
    change (Ok out0 ≫= ?f) with (f out0). cbv beta.
    pose proof (split_ws2_length first) as Hlen. unfold top_field.
    destruct (PyStr.split_ws2 first) as [|f0 [|f1 [|f2 [|f3 fs]]]]; simpl in *;
      [destruct (out0 !! "host"); done..| |lia].
    destruct (out0 !! "host"); simpl; by eauto.
Qed.

End Parse.

Definition parse_demo : string :=
  "GET / HTTP/1.1" +:+ nl +:+ "Host:example.com" +:+ nl +:+ "no colon here" +:+ nl +:+ nl
  +:+ "body".

Lemma parse_demo_lines :
  PyStr.split PyStr.LF (PyStr.strip parse_demo)
  = ["GET / HTTP/1.1"; "Host:example.com"; "no colon here"; ""; "body"].
Proof. vm_compute. reflexivity. Qed.

Lemma parse_http1_errors_witness :
  (Exists (fun l => occurs ":" l = false) (header_block ["Host:example.com"; "no colon here"; ""; "body"]) →
   parse_http1 parse_demo = Raise ValueError) ∧
  (Forall (fun l => occurs ":" l = true) (header_block ["Host:example.com"; "no colon here"; ""; "body"]) →
   if bool_decide (length (PyStr.split_ws2 "GET / HTTP/1.1") = 3%nat)
   then ∃ out, parse_http1 parse_demo = Ok out
   else parse_http1 parse_demo = Raise IndexError).
Proof. exact (parse_http1_errors parse_demo _ _ parse_demo_lines). Defined.

Definition c4_parsed : headers :=
  list_to_map [(":scheme", "http"); (":method", "GET"); (":path", "/");
               (":version", "HTTP/1.1"); (":host", "example.com"); ("c", "b=2; a=1")].

Lemma c4_parse : parse_http1 c4_out = Ok c4_parsed.
Proof. compute_done. Qed.

Lemma parse_http1_shape_witness :
  c4_parsed !! "host" = None ∧
  (∀ k v, c4_parsed !! k = Some v → PyStr.lower k = k ∧ PyStr.strip v = v).
Proof.
  destruct (parse_http1_shape c4_out c4_parsed c4_parse) as (Hhost & Hval & _).
  exact (conj Hhost Hval).
Defined.

(** ** Errors of [decompress], and the verdict of [compare_headers] *)

Lemma join_nonempty (sep : string) (l : list string) :
  Forall (fun s => s ≠ "") l → PyStr.join sep l = "" → l = [].
Proof.
  destruct l as [|x [|y l]]; [done| |]; intros [Hx _]%Forall_cons; simpl.
  - done.
  - intros Heq. destruct x; [done|]. by rewrite app_cons in Heq.
Qed.

Section Verdict.

Context `{PyLib}.

(** X9. A line of the compressed text whose name is empty, or is neither
    [ref], nor metadata, nor escaped with [!], nor one of the tokens of
    the table, makes [decompress] raise: [IndexError] for an empty name,
    [KeyError] for an unknown token. *)
Theorem decompress_unknown_token (self : DeltaProcessor) (compressed : string)
    (hdrs : headers) (k : string) :
  parse_http1 compressed = Ok hdrs →
  is_Some (hdrs !! k) →
  k ≠ "ref" → is_meta k = false → PyStr.head k ≠ Ok "!"%char → rev_lookups !! k = None →
  ∃ e, decompress self compressed = Raise e ∧
       (e = IndexError ∨ ∃ k', e = KeyError k' ∧ rev_lookups !! k' = None).
Proof.
  intros Hparse Hk Href Hmeta Hbang Hrev. unfold decompress. rewrite Hparse. simpl.
  unfold decode_headers.
  destruct (foldlM_raises_in
              (fun e => e = IndexError ∨ ∃ k', e = KeyError k' ∧ rev_lookups !! k' = None)
              (decompress_step hdrs) (items hdrs).*1 k) with (b := (∅ : headers))
    as (e & -> & HP).
  - destruct Hk as [v Hv]. apply list_elem_of_fmap. exists (k, v). split; [done|].
    by apply elem_of_items.
  - intros b y ([y' v] & -> & Hy%elem_of_items)%list_elem_of_fmap. simpl.
    unfold decompress_step, getitem. case_bool_decide; [by eauto|].
    destruct y' as [|c y']; simpl; [right; by eauto|]. rewrite Hy. simpl.
    destruct (PyStr.ascii_eqb c ":"); [by eauto|].
    destruct (PyStr.ascii_eqb c "!"); [by eauto|].
    destruct (rev_lookups !! String c y') as [n|] eqn:Hn; simpl.
    + case_bool_decide; by eauto.
    + right. eexists. split; [done|]. right. by eauto.
  - intros b. unfold decompress_step, getitem. rewrite bool_decide_eq_false_2 by done.
    destruct k as [|c k]; simpl; [by eauto|]. simpl in Hmeta. rewrite Hmeta.
    destruct Hk as [v ->]. simpl.
    destruct (PyStr.ascii_eqb c "!") eqn:Hc.
    { apply bool_decide_eq_true_1 in Hc as ->. done. }
    rewrite Hrev. simpl. by eauto.
  - by exists e.
Qed.

(** The lines that the loop of [compare_headers] adds are not empty, and
    it adds none only when every header it meets is matched. *)
Lemma compare_fold_report (l : list (string * string)) :
  ∀ output b_hdr output' b_hdr',
    NoDup l.*1 →
    foldlM compare_step (output, b_hdr) l = Ok (output', b_hdr') →
    ∃ extra, output' = output ++ extra ∧ Forall (fun s => s ≠ "") extra ∧
      (extra = [] →
       ∀ k v, (k, v) ∈ l →
         ∃ x, b_hdr !! k = Some x ∧ (k = ":version" ∨ PyStr.strip v = PyStr.strip x)).
Proof.
  induction l as [|[k v] l IH]; intros output b_hdr output' b_hdr' Hnd Hrun.
  { simpl in Hrun. injection Hrun as <- <-. exists []. rewrite app_nil_r.
    split_and!; [done|constructor|]. intros _ k v Hin. by apply elem_of_nil in Hin. }
  change (foldlM compare_step (output, b_hdr) ((k, v) :: l))
    with (compare_step (output, b_hdr) (k, v) ≫= fun b' => foldlM compare_step b' l) in Hrun.
  rewrite fmap_cons in Hnd. apply NoDup_cons in Hnd as [Hk Hnd].
  apply bind_Ok in Hrun as ([output1 b1] & Hstep & Hrun).
  destruct (IH _ _ _ _ Hnd Hrun) as (extra & -> & Hne & Hall).
  assert (∃ first, output1 = output ++ first ∧ Forall (fun s => s ≠ "") first ∧
            (∀ k', k' ≠ k → b1 !! k' = b_hdr !! k') ∧
            (first = [] →
             ∃ x, b_hdr !! k = Some x ∧ (k = ":version" ∨ PyStr.strip v = PyStr.strip x)))
    as (first & -> & Hfirst & Hb1 & Hmatch).
  { unfold compare_step, getitem in Hstep. case_bool_decide as Hv.
    - apply bind_Ok in Hstep as (x & Hx & [= <- <-]). exists []. rewrite app_nil_r.
      split_and!; [done|constructor| |].
      + intros k' Hk'. by rewrite lookup_delete_ne.
      + intros _. destruct (b_hdr !! k) as [x'|]; [|done]. exists x'. split; [done|].
        left. set_solver.
    - destruct (b_hdr !! k) as [x|] eqn:Hx.
      + case_bool_decide as Hcmp; injection Hstep as <- <-.
        * eexists. split_and!; [done| | |done].
          -- repeat constructor; unfold TAB; by intros ?.
          -- intros k' Hk'. by rewrite lookup_delete_ne.
        * exists []. rewrite app_nil_r. split_and!; [done|constructor| |].
          -- intros k' Hk'. by rewrite lookup_delete_ne.
          -- intros _. exists x. split; [done|]. right.
             destruct (decide (PyStr.strip v = PyStr.strip x)); [done|]. by destruct Hcmp.
      + injection Hstep as <- <-. eexists. split_and!; [done| |done|done].
        repeat constructor. unfold TAB. by intros ?. }
  exists (first ++ extra). rewrite app_assoc. split_and!; [done|by apply Forall_app|].
  intros [-> ->]%app_eq_nil k' v' [[= -> ->]|Hin]%elem_of_cons; [by apply Hmatch|].
  destruct (Hall eq_refl k' v' Hin) as (x & Hx & Hcmp). exists x. split; [|done].
  rewrite <- Hb1; [done|]. intros ->. apply Hk. apply list_elem_of_fmap. by exists (k, v').
Qed.

(** X10. [compare_headers] returns the empty string exactly when the two
    dictionaries hold the same names and, for every name but [:version],
    values that are equal once stripped, the pieces of a [cookie] value
    being sorted first. *)
Theorem compare_headers_verdict (a_hdr b_hdr : headers) :
  (∃ a' b', compare_headers a_hdr b_hdr = Ok ("", a', b')) ↔
  (∀ n v, a_hdr !! n = Some v →
     ∃ x, b_hdr !! n = Some x ∧
          (n = ":version" ∨ PyStr.strip (compared n v) = PyStr.strip (compared n x))) ∧
  (∀ n, is_Some (b_hdr !! n) → is_Some (a_hdr !! n)).
Proof.
  split; [|intros [Hab Hba]; eexists _, _; by apply compare_headers_same].
  intros (a' & b' & Hrun). unfold compare_headers in Hrun.
  apply bind_Ok in Hrun as ([output b1] & Hfold & Hrun).
  injection Hrun as Hout <- <-.
  destruct (compare_fold_report _ _ _ _ _ (items_NoDup _) Hfold) as (extra & -> & Hne & Hall).
  rewrite app_nil_l in Hout.
  apply join_nonempty in Hout.
  2:{ apply Forall_app. split; [done|]. apply Forall_fmap, Forall_forall.
      intros k _. simpl. unfold TAB. by intros ?. }
  apply app_eq_nil in Hout as [-> Hb1]. apply fmap_nil_inv in Hb1.
  apply fmap_nil_inv in Hb1.
  assert (b1 = ∅) as ->.
  { apply map_eq. intros k. rewrite lookup_empty.
    destruct (b1 !! k) as [x|] eqn:Hx; [|done].
    apply elem_of_items in Hx. rewrite Hb1 in Hx. by apply elem_of_nil in Hx. }
  split.
  - intros n v Hn.
    destruct (Hall eq_refl n (compared n v)) as (x & Hx & Hcmp).
    { apply elem_of_items. by rewrite normalize_cookie_compared, Hn. }
    rewrite normalize_cookie_compared in Hx.
    destruct (b_hdr !! n) as [x0|]; [|done]. injection Hx as <-. by exists x0.
  - intros n [x Hx].
    pose proof (compare_fold _ _ _ _ _ Hfold n) as Hn. rewrite lookup_empty in Hn.
    case_bool_decide as Hin.
    + apply list_elem_of_fmap in Hin as ([n' v] & -> & Hin%elem_of_items). simpl.
      rewrite normalize_cookie_compared in Hin. by destruct (a_hdr !! n').
    + by rewrite normalize_cookie_compared, Hx in Hn.
Qed.

(** X11. [compare_headers] raises [KeyError] exactly when the first
    dictionary holds [:version] and the second does not. *)
Theorem compare_headers_raises (a_hdr b_hdr : headers) :
  if bool_decide (is_Some (a_hdr !! ":version") ∧ b_hdr !! ":version" = None)
  then compare_headers a_hdr b_hdr = Raise (KeyError ":version")
  else ∃ r, compare_headers a_hdr b_hdr = Ok r.
Proof.
  assert (∀ l output b,
            NoDup l.*1 →
            if bool_decide (":version" ∈ l.*1 ∧ b !! ":version" = None)
            then foldlM compare_step (output, b) l = Raise (KeyError ":version")
            else ∃ r, foldlM compare_step (output, b) l = Ok r) as Hfold.
  { induction l as [|[k v] l IH]; intros output b Hnd.
    { rewrite bool_decide_eq_false_2 by (intros [?%elem_of_nil _]; done). simpl. by eauto. }
    rewrite fmap_cons in Hnd. apply NoDup_cons in Hnd as [Hk Hnd].
    change (foldlM compare_step (output, b) ((k, v) :: l))
      with (compare_step (output, b) (k, v) ≫= fun b' => foldlM compare_step b' l).
    destruct (decide (k = ":version")) as [->|Hne].
    - assert (compare_step (output, b) (":version", v)
              = getitem b ":version" ≫= fun _ => Ok (output, delete ":version" b)) as ->
        by reflexivity.
      unfold getitem.
      destruct (b !! ":version") as [x|] eqn:Hx; simpl.
      + specialize (IH output (delete ":version" b) Hnd).
        rewrite bool_decide_eq_false_2 in IH by (by intros [? _]). done.
      + done.
    - assert (∃ output1 b1, compare_step (output, b) (k, v) = Ok (output1, b1) ∧
                b1 !! ":version" = b !! ":version") as (output1 & b1 & -> & Hb1).
      { unfold compare_step. cbv beta iota.
        rewrite (bool_decide_eq_false_2 (k ∈ [":version"])) by set_solver.
        destruct (b !! k) eqn:Hbk; eexists _, _; (split; [done|]);
          [by rewrite lookup_delete_ne|done]. }
      specialize (IH output1 b1 Hnd). rewrite Hb1 in IH.
      rewrite (bool_decide_ext (":version" ∈ ((k, v) :: l).*1 ∧ b !! ":version" = None)
                 (":version" ∈ l.*1 ∧ b !! ":version" = None)); [exact IH|].
      rewrite fmap_cons, elem_of_cons. simpl.
      split; [intros [[?|?] ?]; [congruence|done]|intros [? ?]; by auto]. }
  unfold compare_headers.
  specialize (Hfold (items (normalize_cookie a_hdr)) [] (normalize_cookie b_hdr)
                (items_NoDup _)).
  assert ((":version" ∈ (items (normalize_cookie a_hdr)).*1
           ∧ normalize_cookie b_hdr !! ":version" = None)
          ↔ (is_Some (a_hdr !! ":version") ∧ b_hdr !! ":version" = None)) as Hiff.
  { rewrite !normalize_cookie_compared, list_elem_of_fmap.
    assert (∀ o : option string, compared ":version" <$> o = None ↔ o = None) as Hnone
      by (by intros []).
    rewrite Hnone. split; intros [Ha Hb]; (split; [|done]).
    - destruct Ha as ([k v] & -> & Hin%elem_of_items). simpl.
      rewrite normalize_cookie_compared in Hin. by destruct (a_hdr !! k).
    - destruct Ha as [v Hv]. exists (":version", compared ":version" v). split; [done|].
      apply elem_of_items. by rewrite normalize_cookie_compared, Hv. }
  rewrite (bool_decide_ext _ _ Hiff) in Hfold.
  case_bool_decide.
  - by rewrite Hfold.
  - destruct Hfold as [[output b1] ->]. simpl. by eauto.
Qed.

End Verdict.

Definition unknown_token_text : string :=
  "HTTP/1.1 200 OK" +:+ nl +:+ "zz:1" +:+ nl +:+ nl.

Definition unknown_token_parsed : headers :=
  list_to_map [(":version", "HTTP/1.1"); (":status", "200"); (":status-text", "OK");
               ("zz", "1")].

Lemma unknown_token_parse : parse_http1 unknown_token_text = Ok unknown_token_parsed.
Proof. compute_done. Qed.

Lemma decompress_unknown_token_witness :
  ∃ e, decompress Processor_init unknown_token_text = Raise e ∧
       (e = IndexError ∨ ∃ k', e = KeyError k' ∧ rev_lookups !! k' = None).
Proof.
  apply (decompress_unknown_token Processor_init unknown_token_text unknown_token_parsed "zz").
  - exact unknown_token_parse.
  - vm_compute. eauto.
  - done.
  - reflexivity.
  - done.
  - vm_compute. reflexivity.
Defined.

(** ** Connections and runs *)

Lemma lookup_key_setitem {A} (key : string) (x : A) (d : list (string * A)) :
  lookup_key key (setitem key x d) = Some x.
Proof.
  induction d as [|[k y] d IH]; simpl.
  - by rewrite bool_decide_eq_true_2.
  - case_bool_decide as Hk; simpl; [by rewrite bool_decide_eq_true_2|].
    by rewrite bool_decide_eq_false_2.
Qed.

Section Runs.

Context `{PyLib}.

Lemma init_plain (l : list string) (acc : list pattern * list string) :
  Forall (fun s => PyStr.startswith "*" s = false ∧ has_escape s = false) l →
  foldlM (init_step false) acc l = Ok acc.
Proof.
  intros Hall. revert acc. induction Hall as [|s l [Hs He] _ IH]; intros [ps ts]; [done|].
  change (foldlM (init_step false) (ps, ts) (s :: l))
    with (init_step false (ps, ts) s ≫= fun b => foldlM (init_step false) b l).
  assert (init_step false (ps, ts) s = Ok (ps, ts)) as ->; [|apply IH].
  unfold init_step. rewrite Hs, He. simpl. by rewrite !app_nil_r.
Qed.

(** X12. A second call of [get_connection] for the same host returns the
    connection of the first and changes nothing; the first registers at
    most one connection, last and under the host, and leaves the message
    dictionaries alone. *)
Theorem get_connection_again (T T' : Tester) (host : string) (c : Connection) :
  get_connection T host = Ok (c, T') →
  get_connection T' host = Ok (c, T') ∧
  (connections T' = connections T ∨ connections T' = connections T ++ [(host, c)]) ∧
  dicts T' = dicts T ∧ options T' = options T.
Proof.
  intros Hget.
  pose proof (get_connection_dicts T host c T' Hget) as Hd.
  pose proof (get_connection_options T host c T' Hget) as Ho.
  split_and!; [| |done|done].
  - apply get_connection_Ok in Hget
      as [[-> [Hkey|[Hkey [i Hfind]]]]|(Hkey & Hfind & Hinit & ->)]; unfold get_connection.
    + by rewrite Hkey.
    + by rewrite Hkey, Hfind.
    + simpl. by rewrite lookup_key_setitem.
  - apply get_connection_Ok in Hget as [[-> _]|(Hkey & Hfind & Hinit & ->)]; [by left|].
    right. pose proof (get_compressors_spec T) as (compressors & objs & Hgc & _).
    rewrite Hgc. simpl. by apply setitem_fresh.
Qed.

(** X13. With the option [--noglob], a connection whose name has no
    alternative that starts with a star or holds an escaped character is
    made without compiling any pattern, and has no pattern and no suffix:
    it serves the host of that very name and no other. *)
Theorem noglob_connection (name host : string) (compressors : gmap string (nat * nat)) :
  Forall (fun s => PyStr.startswith "*" s = false ∧ has_escape s = false)
    (PyStr.split "/" name) →
  ∃ c, Connection_init name compressors false = Ok c ∧
    c_patterns c = [] ∧ c_tlds c = [] ∧
    (matches c host = true ↔ host = name).
Proof.
  intros Hall. unfold Connection_init. rewrite init_plain by done.
  eexists. split; [reflexivity|]. simpl. split_and!; [done..|].
  rewrite matches_true. simpl. split.
  - intros [(tld & Htld & _)|Hname]; [by apply elem_of_nil in Htld|done].
  - intros ->. by right.
Qed.

(** The types of the messages handled so far are the two known ones, and
    the count kept for a type is that of all the messages of the run. *)
Lemma main_loop_types (n : Z) (messages : list (string * nat * string)) :
  ∀ ttls T ttls' T',
    (∀ ty tt, ttls !! ty = Some tt → ty ∈ msg_types ∧ _num tt = None) →
    foldlM (process_step n) (ttls, T) messages = Ok (ttls', T') →
    Forall (fun m => m.1.1 ∈ msg_types) messages ∧
    (∀ ty, is_Some (ttls' !! ty) ↔ is_Some (ttls !! ty)) ∧
    ∀ ty tt, ttls' !! ty = Some tt →
      _num tt = if bool_decide (ty ∈ messages.*1.*1) then Some n else None.
Proof.
  intros ttls T ttls' T' Hinit Hrun.
  pose proof (foldlM_ind
    (fun (acc : gmap string TypeTotals * Tester) (seen : list (string * nat * string)) =>
       Forall (fun m => m.1.1 ∈ msg_types) seen ∧
       (∀ ty, is_Some (acc.1 !! ty) ↔ is_Some (ttls !! ty)) ∧
       ∀ ty tt, acc.1 !! ty = Some tt →
         _num tt = if bool_decide (ty ∈ seen.*1.*1) then Some n else None)
    (process_step n) messages messages [] (ttls, T) (ttls', T') eq_refl) as Hind.
  apply Hind; [| |done]; clear Hind.
  - split_and!; [constructor|done|]. intros ty tt Htt. simpl.
    by destruct (Hinit ty tt Htt).
  - intros [ttls1 T1] [[ty msg] host] [ttls2 T2] seen rest _ (Hseen & Hdom & Hnum) Hstep.
    simpl in *.
    apply bind_Ok in Hstep as ([results T3] & _ & Hstep).
    apply bind_Ok in Hstep as (tt & Htt & Hstep).
    apply bind_Ok in Hstep as (totals & _ & [= <- <-]).
    destruct (ttls1 !! ty) as [tt0|] eqn:Hty; simplify_eq/=.
    assert (ty ∈ msg_types) as Hknown.
    { assert (is_Some (ttls !! ty)) as [tt1 Htt1] by (apply Hdom; eauto).
      by destruct (Hinit ty tt1 Htt1). }
    split_and!.
    + apply Forall_app. split; [done|]. by constructor.
    + intros ty'. rewrite lookup_insert_is_Some, <- Hdom. split.
      * intros [<-|[_ ?]]; [by eauto|done].
      * intros Hs. destruct (decide (ty = ty')); [by left|by right].
    + intros ty' tt'.
      rewrite (bool_decide_ext (ty' ∈ (seen ++ [(ty, msg, host)]).*1.*1)
                 (ty' ∈ seen.*1.*1 ∨ ty' = ty)).
      2:{ rewrite !fmap_app, elem_of_app. simpl. rewrite list_elem_of_singleton. done. }
      intros [[<- <-]|[Hne Htt']]%lookup_insert_Some; simpl.
      * rewrite bool_decide_eq_true_2; [done|]. by right.
      * rewrite (Hnum ty' tt' Htt').
        rewrite (bool_decide_ext (ty' ∈ seen.*1.*1 ∨ ty' = ty) (ty' ∈ seen.*1.*1)); [done|].
        split; [|by left]. intros [?|?]; [done|congruence].
Qed.

Lemma finish_type_num (baseline : string) (ttls ttls' : gmap string TypeTotals) (ty : string) :
  finish_type baseline ttls ty = Ok ttls' →
  (∀ ty', is_Some (ttls' !! ty') ↔ is_Some (ttls !! ty')) ∧
  ∀ ty' tt', ttls' !! ty' = Some tt' → ∃ tt, ttls !! ty' = Some tt ∧ _num tt' = _num tt.
Proof.
  unfold finish_type. intros (tt & Htt & Hrun)%bind_Ok.
  apply bind_Ok in Hrun as (tt1 & Hfin & [= <-]).
  destruct (ttls !! ty) as [tt0|] eqn:Hty; simplify_eq/=.
  unfold finish in Hfin. destruct (_ && _); [done|].
  apply bind_Ok in Hfin as (totals & _ & [= <-]).
  split.
  - intros ty'. rewrite lookup_insert_is_Some. split.
    + intros [<-|[_ ?]]; [by eauto|done].
    + intros Hs. destruct (decide (ty = ty')); [by left|by right].
  - intros ty' tt'. intros [[<- <-]|[Hne Htt']]%lookup_insert_Some; by eauto.
Qed.

(** What [process_messages] leaves for the two message types. *)
Lemma process_messages_types (T : Tester) (messages : list (string * nat * string))
    (ttls : gmap string TypeTotals) (T' : Tester) :
  process_messages T messages = Ok (ttls, T') → messages ≠ [] →
  Forall (fun m => m.1.1 ∈ msg_types) messages ∧
  ∀ ty, ty ∈ msg_types →
    ∃ tt, ttls !! ty = Some tt ∧
      _num tt = if bool_decide (ty ∈ messages.*1.*1)
                then Some (Z.of_nat (length messages)) else None.
Proof.
  unfold process_messages. destruct messages as [|m messages]; [done|].
  intros Hrun _.
  apply bind_Ok in Hrun as ([ttls1 T1] & Hloop & Hrun).
  apply bind_Ok in Hrun as (ttls3 & Hfin & [= <- <-]).
  apply main_loop_types in Hloop as (Hall & Hdom & Hnum).
  2:{ intros ty tt Hty. simpl in Hty.
      destruct (decide (ty = "req")) as [->|]; [|destruct (decide (ty = "res")) as [->|]].
      - rewrite lookup_insert_eq in Hty. injection Hty as <-. split; [set_solver|done].
      - rewrite lookup_insert_ne, lookup_insert_eq in Hty by done.
        injection Hty as <-. split; [set_solver|done].
      - by rewrite !lookup_insert_ne in Hty by done. }
  split; [done|]. intros ty Hty.
  simpl in Hfin. apply bind_Ok in Hfin as (ttls2 & Hreq & Hres).
  apply bind_Ok in Hres as (ttls3' & Hres & [= <-]).
  apply finish_type_num in Hreq as [Hd2 Hn2], Hres as [Hd3 Hn3].
  assert (is_Some (ttls3' !! ty)) as [tt3 Htt3].
  { apply Hd3, Hd2, Hdom. simpl.
    assert (ty = "req" ∨ ty = "res") as [-> | ->] by set_solver.
    - by rewrite lookup_insert_eq.
    - by rewrite lookup_insert_ne, lookup_insert_eq. }
  exists tt3. split; [done|].
  destruct (Hn3 _ _ Htt3) as (tt2 & Htt2 & ->).
  destruct (Hn2 _ _ Htt2) as (tt1 & Htt1 & ->).
  by apply Hnum.
Qed.

(** X14. [process_messages] returns a report for a run that is not empty
    only when every message is of type [req] or [res] and each of the two
    types has at least two messages: a run of requests alone, or with a
    single response, raises in the last pass (the baseline being a codec
    name, which does not start with an underscore). *)
Theorem process_messages_returns (T : Tester) (messages : list (string * nat * string))
    (ttls : gmap string TypeTotals) (T' : Tester) :
  process_messages T messages = Ok (ttls, T') →
  messages ≠ [] → is_codec (baseline (options T)) = true →
  Forall (fun m => m.1.1 ∈ msg_types) messages ∧
  ∀ ty, ty ∈ msg_types → (2 ≤ length (filter (fun t => t = ty) messages.*1.*1))%nat.
Proof.
  intros Hrun Hne Hbase. split; [by apply (process_messages_types T messages ttls T')|].
  intros ty Hty.
  destruct (process_messages_Ok _ _ _ _ Hrun) as (rs & Hrs & Htys & Hall).
  rewrite <- (run_messages_options _ _ _ _ Hrs) in Hbase.
  destruct (process_messages_baseline _ _ _ _ ty Hrun Hne Hty Hbase) as (tt & Htt & [tot Htot]).
  destruct (Hall _ _ _ _ Htt Htot Hbase) as (_ & _ & _ & Hlen).
  pose proof (ratios_of_length ty (baseline (options T')) rs) as Hle.
  rewrite Htys in Hle. lia.
Qed.

(** X15. In the report of [process_messages], the count [_num] of a
    message type that occurs in the run is the number of all the messages
    of the run, of either type. *)
Theorem process_messages_num (T : Tester) (messages : list (string * nat * string))
    (ttls : gmap string TypeTotals) (T' : Tester) :
  process_messages T messages = Ok (ttls, T') → messages ≠ [] →
  ∀ ty, ty ∈ msg_types →
    ∃ tt, ttls !! ty = Some tt ∧
      _num tt = if bool_decide (ty ∈ messages.*1.*1)
                then Some (Z.of_nat (length messages)) else None.
Proof. intros Hrun Hne. by apply (process_messages_types T messages ttls T'). Qed.

End Runs.

Lemma demo_connection_ok : is_ok (get_connection demo_tester "example.com") = true.
Proof. vm_compute. reflexivity. Qed.

Lemma get_connection_again_witness :
  ∃ c T', get_connection demo_tester "example.com" = Ok (c, T') ∧
    get_connection T' "example.com" = Ok (c, T') ∧
    (connections T' = connections demo_tester
     ∨ connections T' = connections demo_tester ++ [("example.com", c)]) ∧
    dicts T' = dicts demo_tester ∧ options T' = options demo_tester.
Proof.
  destruct (get_connection demo_tester "example.com") as [[c T']|e] eqn:Hget.
  - exists c, T'. split; [reflexivity|].
    exact (get_connection_again demo_tester T' "example.com" c Hget).
  - pose proof demo_connection_ok as Hok. rewrite Hget in Hok. discriminate Hok.
Defined.

Lemma noglob_connection_witness :
  ∃ c, Connection_init "www.example.com" ∅ false = Ok c ∧
    c_patterns c = [] ∧ c_tlds c = [] ∧
    (matches c "img.example.com" = true ↔ "img.example.com" = "www.example.com").
Proof.
  apply (noglob_connection "www.example.com" "img.example.com" ∅).
  apply (bool_decide_unpack _). vm_compute. exact I.
Defined.

Lemma process_messages_returns_witness :
  ∃ ttls T', process_messages demo_tester demo_messages = Ok (ttls, T') ∧
    Forall (fun m => m.1.1 ∈ msg_types) demo_messages ∧
    ∀ ty, ty ∈ msg_types →
      (2 ≤ length (filter (fun t => t = ty) demo_messages.*1.*1))%nat.
Proof.
  destruct (process_messages demo_tester demo_messages) as [[ttls T']|e] eqn:Hrun.
  - exists ttls, T'. split; [reflexivity|].
    apply (process_messages_returns demo_tester demo_messages ttls T' Hrun);
      [discriminate|reflexivity].
  - pose proof demo_run_ok as Hok. rewrite Hrun in Hok. discriminate Hok.
Defined.

Lemma process_messages_num_witness :
  ∃ ttls T', process_messages demo_tester demo_messages = Ok (ttls, T') ∧
    ∀ ty, ty ∈ msg_types →
      ∃ tt, ttls !! ty = Some tt ∧
        _num tt = if bool_decide (ty ∈ demo_messages.*1.*1)
                  then Some (Z.of_nat (length demo_messages)) else None.
Proof.
  destruct (process_messages demo_tester demo_messages) as [[ttls T']|e] eqn:Hrun.
  - exists ttls, T'. split; [reflexivity|].
    apply (process_messages_num demo_tester demo_messages ttls T' Hrun). discriminate.
  - pose proof demo_run_ok as Hok. rewrite Hrun in Hok. discriminate Hok.
Defined.

(** ** The registry of connections *)

Lemma setitem_keys {A} (key : string) (x : A) (d : list (string * A)) :
  (setitem key x d).*1 = if bool_decide (key ∈ d.*1) then d.*1 else d.*1 ++ [key].
Proof.
  induction d as [|[k y] d IH]; [done|].
  cbn [setitem]. rewrite !fmap_cons. cbn [fst].
  destruct (decide (k = key)) as [->|Hk].
  - rewrite !bool_decide_eq_true_2; [by rewrite fmap_cons|by left|done].
  - rewrite (bool_decide_eq_false_2 (k = key)) by done.
    rewrite fmap_cons, IH. cbn [fst].
    rewrite (bool_decide_ext (key ∈ k :: d.*1) (key ∈ d.*1)).
    + by case_bool_decide.
    + rewrite elem_of_cons. naive_solver.
Qed.

Lemma elem_of_setitem {A} (key : string) (x : A) (d : list (string * A)) (k : string) (c : A) :
  (k, c) ∈ setitem key x d → (k = key ∧ c = x) ∨ (k, c) ∈ d.
Proof.
  induction d as [|[k' y] d IH]; simpl.
  - intros [= -> ->]%list_elem_of_singleton. by left.
  - case_bool_decide as Hk.
    + intros [[= -> ->]|Hin]%elem_of_cons; [by left|right; by right].
    + intros [[= -> ->]|Hin]%elem_of_cons; [right; by left|].
      destruct (IH Hin) as [?|?]; [by left|right; by right].
Qed.

(** Every connection is registered under its own name, and no name is
    registered twice. *)
Definition registered (T : Tester) : Prop :=
  NoDup (connections T).*1 ∧ ∀ k c, (k, c) ∈ connections T → c_name c = k.

Lemma registered_setitem (key : string) (conn : Connection)
    (cs : list (string * Connection)) :
  c_name conn = key → NoDup cs.*1 → (∀ k c, (k, c) ∈ cs → c_name c = k) →
  NoDup (setitem key conn cs).*1 ∧
  ∀ k c, (k, c) ∈ setitem key conn cs → c_name c = k.
Proof.
  intros Hname Hnd Hnames. split.
  - rewrite setitem_keys. case_bool_decide as Hk; [done|].
    apply NoDup_app. split_and!; [done| |apply NoDup_singleton].
    intros k Hin ->%list_elem_of_singleton. done.
  - intros k c [[-> ->]|Hin]%elem_of_setitem; [done|by apply Hnames].
Qed.

Section RegistryInvariant.

Context `{PyLib}.

Lemma get_compressors_connections (T : Tester) :
  connections (get_compressors T).2 = connections T.
Proof. unfold get_compressors. by destruct (foldl _ _ _). Qed.

Lemma Connection_init_name (name : string) (compressors : gmap string (nat * nat))
    (glob : bool) (c : Connection) :
  Connection_init name compressors glob = Ok c → c_name c = name.
Proof. by intros ->%Connection_init_Ok. Qed.

Lemma get_connection_registered (T : Tester) (host : string) (c : Connection) (T' : Tester) :
  get_connection T host = Ok (c, T') → registered T → registered T'.
Proof.
  intros Hget [Hnd Hnames].
  apply get_connection_Ok in Hget as [[-> _]|(_ & _ & Hinit & ->)]; [done|].
  unfold registered. cbn [connections set_connections].
  rewrite get_compressors_connections.
  apply registered_setitem; [by apply Connection_init_name in Hinit|done..].
Qed.

(** The loop of [init_connections]: it returns when every pattern gives
    alternatives that compile, and raises [re.error] otherwise. *)
Lemma init_connections_fold (l : list string) :
  ∀ T0, registered T0 →
    if forallb (fun p => forallb (alt_ok (opt_glob (options T0))) (PyStr.split "/" p)) l
    then ∃ T1, foldlM init_connection T0 l = Ok T1 ∧ registered T1 ∧
           options T1 = options T0 ∧
           ∀ k, k ∈ (connections T1).*1 ↔ k ∈ (connections T0).*1 ∨ k ∈ l
    else foldlM init_connection T0 l = Raise ReError.
Proof.
  induction l as [|p l IH]; intros T0 Hreg.
  - cbn [forallb foldlM]. exists T0. split_and!; [done..|].
    intros k. rewrite elem_of_nil. tauto.
  - cbn [forallb].
    change (foldlM init_connection T0 (p :: l))
      with (init_connection T0 p ≫= fun T => foldlM init_connection T l).
    unfold init_connection.
    pose proof (get_compressors_connections T0) as Hc.
    pose proof (get_compressors_options T0) as Ho.
    destruct (get_compressors T0) as [compressors T2]. cbn [fst snd] in Hc, Ho.
    rewrite Ho, Connection_init_cases.
    destruct (forallb (alt_ok (opt_glob (options T0))) (PyStr.split "/" p)) eqn:Hok;
      [|done].
    cbn [andb]. change (Ok ?x ≫= ?f) with (f x). cbv beta.
    change (Ok ?x ≫= ?f) with (f x). cbv beta.
    set (conn := {| c_name := p; c_compressors := compressors;
                    c_glob := opt_glob (options T0);
                    c_patterns := omap (alt_pattern (opt_glob (options T0)))
                                    (PyStr.split "/" p);
                    c_tlds := omap (alt_suffix (opt_glob (options T0)))
                                (PyStr.split "/" p) |}).
    destruct Hreg as [Hnd Hnames].
    destruct (registered_setitem p conn (connections T0) eq_refl Hnd Hnames)
      as [Hnd' Hnames'].
    specialize (IH (set_connections T2 (setitem p conn (connections T2)))).
    assert (options (set_connections T2 (setitem p conn (connections T2))) = options T0)
      as Ho' by (by destruct T2).
    rewrite Ho' in IH.
    destruct (forallb _ l).
    + destruct IH as (T1 & Hrun & Hreg1 & Ho1 & Hkeys).
      { unfold registered. cbn [connections set_connections]. by rewrite Hc. }
      exists T1. split_and!; [done|done|congruence|].
      intros k. rewrite Hkeys. cbn [connections set_connections].
      rewrite Hc, setitem_keys, elem_of_cons. case_bool_decide as Hp.
      * split; [tauto|]. intros [?|[->|?]]; tauto.
      * rewrite elem_of_app, list_elem_of_singleton. tauto.
    + apply IH. unfold registered. cbn [connections set_connections]. by rewrite Hc.
Qed.

Lemma process_one_connections msg host acc item acc' :
  process_one msg host acc item = Ok acc' → connections acc'.2 = connections acc.2.
Proof.
  destruct acc as [results T], item as [name pl]. unfold process_one. intros Hrun.
  apply bind_Ok in Hrun as (processor & _ & Hrun).
  apply bind_Ok in Hrun as ([[compressed st] σ] & _ & Hrun).
  unfold after_compress in Hrun.
  apply bind_Ok in Hrun as ([decompressed T1] & Hd & Hrun).
  apply bind_Ok in Hrun as ([decompressed' T2] & Hc & [= <-]). simpl.
  assert (connections T1 = connections T) as HT1.
  { unfold try_decompress in Hd.
    destruct (proc_decompress _ _ _) as [[??]|[]]; simplify_eq/=; try done.
    by case_bool_decide. }
  unfold check_roundtrip in Hc.
  destruct (truthy decompressed); simplify_eq/=; [|done].
  apply bind_Ok in Hc as (message & _ & Hc).
  apply bind_Ok in Hc as ([[??]?] & _ & [= <- <-]). done.
Qed.

Lemma process_message_connections T msg ty host results T' :
  process_message T msg ty host = Ok (results, T') →
  ∃ c T0, get_connection T host = Ok (c, T0) ∧ connections T' = connections T0.
Proof.
  unfold process_message. intros Hrun.
  apply bind_Ok in Hrun as ([connection T0] & Hget & Hrun).
  exists connection, T0. split; [done|].
  apply bind_Ok in Hrun as (procs & _ & Hrun).
  apply bind_Ok in Hrun as ([results1 T1] & Hloop & Hrun).
  apply bind_Ok in Hrun as (results2 & _ & [= <- <-]).
  apply (foldlM_ind (fun acc _ => connections acc.2 = connections T0)
           (process_one msg host) procs procs [] (∅, T0) (results1, T1) eq_refl);
    [done| |done].
  intros acc item acc' seen rest _ Hacc Hone.
  apply process_one_connections in Hone. congruence.
Qed.

(** X16. Every connection is registered under its own name and no name is
    registered twice.  [init_connections], run on a tester without
    connections, returns when every alternative of every pattern of
    [--multiplex] compiles, and then makes it so, with a connection for each
    of the patterns and for nothing else; otherwise it raises [re.error].
    [get_connection] and [process_message] keep it so whenever they
    return. *)
Theorem registry_invariant :
  (∀ T, connections T = [] →
        if forallb (fun p => forallb (alt_ok (opt_glob (options T))) (PyStr.split "/" p))
             (multiplex (options T))
        then ∃ T', init_connections T = Ok T' ∧ registered T' ∧
               ∀ k, k ∈ (connections T').*1 ↔ k ∈ multiplex (options T)
        else init_connections T = Raise ReError) ∧
  (∀ T host c T', registered T → get_connection T host = Ok (c, T') → registered T') ∧
  (∀ T msg ty host results T',
     registered T → process_message T msg ty host = Ok (results, T') → registered T').
Proof.
  split_and!.
  - intros T Hempty. unfold init_connections.
    pose proof (init_connections_fold (multiplex (options T)) T) as Hfold.
    destruct (forallb _ _).
    + destruct Hfold as (T' & Hrun & Hreg & _ & Hkeys).
      { split; rewrite Hempty; [constructor|]. intros k c Hin. by apply elem_of_nil in Hin. }
      exists T'. split_and!; [done..|].
      intros k. rewrite Hkeys, Hempty. simpl. rewrite elem_of_nil. tauto.
    + apply Hfold.
      split; rewrite Hempty; [constructor|]. intros k c Hin. by apply elem_of_nil in Hin.
  - intros T host c T' Hreg Hget. by apply (get_connection_registered T host c T').
  - intros T msg ty host results T' Hreg Hrun.
    apply process_message_connections in Hrun as (c & T0 & Hget & Hconn).
    pose proof (get_connection_registered T host c T0 Hget Hreg) as [Hnd Hnames].
    unfold registered. by rewrite Hconn.
Qed.

End RegistryInvariant.

(** ** The codec options *)

(** [s[-1]] *)
Fixpoint last_char (s : string) : result ascii :=
  match s with
  | EmptyString => Raise IndexError
  | String c EmptyString => Ok c
  | String _ t => last_char t
  end.

(** [s[:-1]] *)
Fixpoint but_last (s : string) : string :=
  match s with
  | EmptyString => EmptyString
  | String _ EmptyString => EmptyString
  | String c t => String c (but_last t)
  end.

Definition QUOTE : ascii := "034"%char.

(** The body of the loop of [get_compressor_modules], up to the import: the
    name of the module and the parameters that an option [-c] gives. *)
Definition parse_codec (codec : string) : result (string * list string) :=
  match PyStr.split1 "=" codec with
  | Some (module_name, param_str) =>
      c0 ← PyStr.head param_str;
      c1 ← last_char param_str;
      let param_str :=
        if PyStr.ascii_eqb c0 c1 && PyStr.ascii_eqb c1 QUOTE
        then but_last (PyStr.tail param_str) else param_str in
      Ok (module_name, PyStr.strip <$> PyStr.split "," param_str)
  | None => Ok (codec, [])
  end.

Section Modules.

(** [import_module]: the module of a name, or the exception of the
    import. *)
Variable import_module : string → result CodecModule.

Definition modules_step (acc : gmap string (CodecModule * list string) * Z) (codec : string)
    : result (gmap string (CodecModule * list string) * Z) :=
  let '(codec_modules, lname) := acc in
  '(module_name, params) ← parse_codec codec;
  let lname :=
    if lname <? Z.of_nat (String.length module_name)
    then Z.of_nat (String.length module_name) else lname in
  module ← import_module ("compressor." +:+ module_name);
  Ok (<[module_name := (module, params)]> codec_modules, lname).

(** [get_compressor_modules()]: the modules and the parameters of the
    codecs, by name, and the length of the longest name. *)
Definition get_compressor_modules (codecs : list string)
    : result (gmap string (CodecModule * list string) * Z) :=
  foldlM modules_step (∅, 0) codecs.

Lemma parse_codec_Ok (codec name : string) (params : list string) :
  parse_codec codec = Ok (name, params) →
  occurs "=" name = false ∧ Forall (fun p => PyStr.strip p = p) params ∧
  (occurs "=" codec = false → name = codec ∧ params = []) ∧
  (occurs "=" codec = true → params ≠ [] ∧ ∃ rest, codec = name +:+ String "=" rest ∧ rest ≠ "").
Proof.
  unfold parse_codec. destruct (PyStr.split1 "=" codec) as [[m p]|] eqn:Hs.
  - destruct (split1_Some _ _ _ _ Hs) as [Hm Hc].
    intros (c0 & Hc0 & Hrun)%bind_Ok. apply bind_Ok in Hrun as (c1 & Hc1 & [= <- <-]).
    split_and!; [done| |congruence|].
    + apply Forall_fmap, Forall_forall. intros x _. apply strip_idemp.
    + intros _. split.
      * pose proof (split_nonempty "," (if PyStr.ascii_eqb c0 c1 && PyStr.ascii_eqb c1 QUOTE
                                         then but_last (PyStr.tail p) else p)) as Hne.
        intros Heq%fmap_nil_inv. done.
      * exists p. split; [|by destruct p].
        clear -Hs. revert m Hs. induction codec as [|c codec IH]; intros m; simpl; [done|].
        destruct (PyStr.ascii_eqb c "=") eqn:Hc.
        { intros [= <- <-]. apply bool_decide_eq_true_1 in Hc as ->. done. }
        destruct (PyStr.split1 "=" codec) as [[a b]|]; [|done].
        intros [= <- <-]. rewrite app_cons. f_equal. by apply IH.
  - apply split1_None in Hs. intros [= <- <-].
    split_and!; [done|constructor|done|congruence].
Qed.

(** X17. An option [-c] without an equals sign names a module without
    parameters; one that ends with its first equals sign makes
    [get_compressor_modules] raise [IndexError]; otherwise the module name
    is the text before the first equals sign and there is at least one
    parameter, each without white space at its ends.  When
    [get_compressor_modules] returns, the length it records is that of
    the longest module name, and no shorter. *)
Theorem codec_options :
  (∀ codec, occurs "=" codec = false → parse_codec codec = Ok (codec, [])) ∧
  (∀ name, occurs "=" name = false → parse_codec (name +:+ "=") = Raise IndexError) ∧
  (∀ codec name params,
     parse_codec codec = Ok (name, params) →
     occurs "=" name = false ∧ Forall (fun p => PyStr.strip p = p) params ∧
     (occurs "=" codec = true →
      params ≠ [] ∧ ∃ rest, codec = name +:+ String "=" rest ∧ rest ≠ "")) ∧
  (∀ codecs mods lname,
     get_compressor_modules codecs = Ok (mods, lname) →
     (∀ name, is_Some (mods !! name) → Z.of_nat (String.length name) ≤ lname) ∧
     (mods = ∅ → lname = 0) ∧
     (mods ≠ ∅ → ∃ name, is_Some (mods !! name) ∧ lname = Z.of_nat (String.length name))).
Proof.
  split_and!.
  - intros codec Hc. unfold parse_codec. apply split1_None in Hc. by rewrite Hc.
  - intros name Hn. unfold parse_codec.
    change (name +:+ "=") with (name +:+ String "=" "").
    by rewrite split1_app.
  - intros codec name params Hrun.
    destruct (parse_codec_Ok _ _ _ Hrun) as (? & ? & _ & ?). done.
  - intros codecs mods lname Hrun. unfold get_compressor_modules in Hrun.
    pose proof (foldlM_ind
      (fun (acc : gmap string (CodecModule * list string) * Z) (seen : list string) =>
         (∀ name, is_Some (acc.1 !! name) → Z.of_nat (String.length name) ≤ acc.2) ∧
         (acc.1 = ∅ → acc.2 = 0) ∧
         (acc.1 ≠ ∅ → ∃ name, is_Some (acc.1 !! name) ∧ acc.2 = Z.of_nat (String.length name)))
      modules_step codecs codecs [] (∅, 0) (mods, lname) eq_refl) as Hind.
    apply Hind; [| |done]; clear Hind.
    + simpl. split_and!; [|done..]. intros name. rewrite lookup_empty. by intros [? ?].
    + intros [mods1 l1] codec [mods2 l2] seen rest _ (Hle & Hzero & Hmax) Hstep. simpl in *.
      apply bind_Ok in Hstep as ([name params] & _ & Hstep).
      apply bind_Ok in Hstep as (module & _ & [= <- <-]).
      split_and!.
      * intros n. rewrite lookup_insert_is_Some.
        intros [<-|[_ Hn]]; [case_match; lia|].
        specialize (Hle n Hn). case_match; lia.
      * intros Hempty. exfalso. apply (insert_non_empty mods1 name (module, params)).
        done.
      * intros _. destruct (l1 <? Z.of_nat (String.length name)) eqn:Hlt.
        -- exists name. by rewrite lookup_insert_eq.
        -- destruct (decide (mods1 = ∅)) as [->|Hne].
           ++ exists name. rewrite lookup_insert_eq. split; [done|].
              rewrite Hzero in * by done. lia.
           ++ destruct (Hmax Hne) as (n & Hn & ->). exists n. split; [|done].
              rewrite lookup_insert_is_Some. destruct (decide (name = n)); by auto.
Qed.

End Modules.

Example parse_codec_ex :
  parse_codec "http1" = Ok ("http1", []) ∧
  parse_codec (String.append "fork=" (String QUOTE (String.append " a, b" (String QUOTE ""))))
    = Ok ("fork", ["a"; "b"]) ∧
  parse_codec "fork=abc=d ,e" = Ok ("fork", ["abc=d"; "e"]) ∧
  parse_codec (String.append "fork=" (String QUOTE "")) = Ok ("fork", [""]) ∧
  parse_codec "fork=" = Raise IndexError.
Proof. compute_done. Qed.

(** ** The delta rule *)

Section Delta.

Context `{PyLib}.

(** X18. What [compress] sends for each header of the stripped message:
    the token of its name within the [ref] line and nothing else when the
    header is neither metadata nor a date header and the dictionary that
    the state refers to, as it is at the time of the call, holds the same
    value under the same name; otherwise a line of its own, and no
    reference.  The state refers to the object that was compressed last,
    not to a copy: when the same object is compressed again, it is
    compared with itself. *)
Theorem compress_delta_rule (σ : store) (self : DeltaProcessor) (l : nat) (host : string)
    (M : headers) (out : string) (self' : DeltaProcessor) (σ' : store) :
  σ !! l = Some M →
  compress σ self l host = Ok (out, self', σ') →
  (last_c self = Some l → last_c self ≫= (σ' !!.) = Some (strip_conn_headers M)) ∧
  (∀ l0, last_c self = Some l0 → l0 ≠ l → last_c self ≫= (σ' !!.) = σ !! l0) ∧
  ∃ hdrs toks,
    format_http1 hdrs nl ":" "host" = Ok out ∧
    hdrs !! "ref" = match toks with [] => None | _ => Some (PyStr.join "," toks) end ∧
    ∀ name value,
      strip_conn_headers M !! name = Some value →
      ∃ tok, hdr_name name = Ok tok ∧
        if is_ref (last_c self ≫= (σ' !!.)) name value
        then tok ∈ toks ∧ hdrs !! tok = None
        else tok ∉ toks ∧ hdrs !! tok = Some (field name value).
Proof.
  intros Hl Hrun.
  apply compress_Ok in Hrun as (M0 & hdrs & HM0 & -> & -> & Henc & Hfmt).
  assert (M0 = M) as -> by congruence.
  set (M' := strip_conn_headers M) in *.
  split_and!.
  - intros ->. simpl. apply lookup_insert_eq.
  - intros l0 -> Hne. simpl. by apply lookup_insert_ne.
  - set (last := last_c self ≫= (((<[l:=M']> σ) : store) !!.)) in *.
    pose proof Henc as (Hin & toks & Htoks & Href)%encode_headers_Ok.
    exists hdrs, toks. split_and!; [done..|].
    assert (∀ n t, hdr_name n = Ok t → t ∈ toks ↔
              ∃ v, (n, v) ∈ items M' ∧ is_ref last n v = true) as Hmem.
    { intros n t Hn. split.
      - intros Ht. apply list_elem_of_lookup in Ht as [i Hi].
        destruct (Forall2_lookup_r _ _ _ _ _ Htoks Hi) as (n' & Hn' & Hnt).
        rewrite (hdr_name_inj _ _ _ Hn Hnt).
        apply list_elem_of_lookup_2, list_elem_of_fmap in Hn' as ([n'' v] & -> & Hf).
        apply list_elem_of_filter in Hf as [Hf1 Hf2]. eauto.
      - intros (v & Hv & Hr).
        assert (n ∈ (filter (fun nv => is_ref last nv.1 nv.2 = true) (items M')).*1) as Hnin.
        { apply list_elem_of_fmap. exists (n, v). split; [done|]. by apply list_elem_of_filter. }
        apply list_elem_of_lookup in Hnin as [i Hi].
        destruct (Forall2_lookup_l _ _ _ _ _ Htoks Hi) as (t' & Ht' & Hnt').
        assert (t' = t) as -> by congruence. by eapply list_elem_of_lookup_2. }
    intros name value Hval.
    destruct (Hin _ _ Hval) as (tok & Htok & Hlook). exists tok. split; [done|].
    destruct (is_ref last name value) eqn:Hr.
    + split; [|done]. apply (Hmem name tok Htok). exists value.
      split; [by apply elem_of_items|done].
    + split; [|done]. intros (v & Hv%elem_of_items & Hr')%(Hmem name tok Htok).
      assert (v = value) as -> by congruence. congruence.
Qed.

End Delta.

(** A message that is sent a second time from the same object. *)
Definition delta_state : DeltaProcessor := {| last_c := Some 1%nat; last_d := None |}.

Definition delta_out : string :=
  "GET / HTTP/1.1" +:+ nl +:+ "ref:c" +:+ nl +:+ "host:example.com" +:+ nl +:+ nl.

Lemma delta_run :
  compress (dicts demo_tester) delta_state 1 "example.com"
  = Ok (delta_out, delta_state, <[1%nat := c4_stripped]> (dicts demo_tester)).
Proof. compute_done. Qed.

Lemma compress_delta_rule_witness :
  (last_c delta_state = Some 1%nat →
   last_c delta_state ≫= ((<[1%nat := c4_stripped]> (dicts demo_tester)) !!.)
   = Some (strip_conn_headers demo_request)) ∧
  (∀ l0, last_c delta_state = Some l0 → l0 ≠ 1%nat →
         last_c delta_state ≫= ((<[1%nat := c4_stripped]> (dicts demo_tester)) !!.)
         = dicts demo_tester !! l0) ∧
  ∃ hdrs toks,
    format_http1 hdrs nl ":" "host" = Ok delta_out ∧
    hdrs !! "ref" = match toks with [] => None | _ => Some (PyStr.join "," toks) end ∧
    ∀ name value,
      strip_conn_headers demo_request !! name = Some value →
      ∃ tok, hdr_name name = Ok tok ∧
        if is_ref (last_c delta_state ≫= ((<[1%nat := c4_stripped]> (dicts demo_tester)) !!.))
             name value
        then tok ∈ toks ∧ hdrs !! tok = None
        else tok ∉ toks ∧ hdrs !! tok = Some (field name value).
Proof.
  exact (compress_delta_rule (dicts demo_tester) delta_state 1 "example.com" demo_request
           delta_out delta_state (<[1%nat := c4_stripped]> (dicts demo_tester))
           eq_refl delta_run).
Defined.

(** ** A message after another: the references *)

Lemma occurs_join (c : ascii) (sep : string) (l : list string) :
  occurs c sep = false → Forall (fun t => occurs c t = false) l →
  occurs c (PyStr.join sep l) = false.
Proof.
  intros Hsep. induction 1 as [|t l Ht Hl IH]; [done|].
  destruct l as [|u l]; [done|].
  change (PyStr.join sep (t :: u :: l)) with (t +:+ sep +:+ PyStr.join sep (u :: l)).
  by rewrite !occurs_app, Ht, Hsep, IH.
Qed.

Lemma all_chars_app (P : ascii → bool) (s t : string) :
  all_chars P (s +:+ t) = all_chars P s && all_chars P t.
Proof. induction s as [|c s IH]; norm_app; simpl; [done|]. by rewrite IH, andb_assoc. Qed.

Lemma all_chars_join (P : ascii → bool) (sep : string) (l : list string) :
  all_chars P sep = true → Forall (fun t => all_chars P t = true) l →
  all_chars P (PyStr.join sep l) = true.
Proof.
  intros Hsep. induction 1 as [|t l Ht Hl IH]; [done|].
  destruct l as [|u l]; [done|].
  change (PyStr.join sep (t :: u :: l)) with (t +:+ sep +:+ PyStr.join sep (u :: l)).
  by rewrite !all_chars_app, Ht, Hsep, IH.
Qed.

Lemma split_join (sep : ascii) (l : list string) :
  l ≠ [] → Forall (fun t => occurs sep t = false) l →
  PyStr.split sep (PyStr.join (String sep "") l) = l.
Proof.
  intros Hne Hall. induction Hall as [|t l Ht Hl IH]; [done|].
  destruct l as [|u l]; [by apply split_none|].
  change (PyStr.join (String sep "") (t :: u :: l))
    with (t +:+ String sep "" +:+ PyStr.join (String sep "") (u :: l)).
  norm_app. rewrite split_app by done. by rewrite IH.
Qed.

(** A character that [parse_http1] leaves where it is. *)
Definition quiet_char (c : ascii) : bool :=
  negb (PyStr.is_space c) && negb (PyStr.ascii_eqb c PyStr.NUL).

(** A character of a name that the line of references gives back. *)
Definition plain_char (c : ascii) : bool := quiet_char c && negb (PyStr.ascii_eqb c ",").

(** A header name without white space, NUL or comma. *)
Definition plain_name (name : string) : Prop := all_chars plain_char name = true.

Lemma quiet_reparse (w : string) : all_chars quiet_char w = true → reparse w = w.
Proof.
  intros Hw. unfold reparse. rewrite split_none.
  - simpl. apply strip_no_space. eapply all_chars_impl; [|exact Hw].
    intros c Hc. unfold quiet_char in Hc. by destruct (PyStr.is_space c).
  - apply (all_chars_occurs _ _ _ Hw). done.
Qed.

Lemma plain_quiet (w : string) : all_chars plain_char w = true → all_chars quiet_char w = true.
Proof. apply all_chars_impl. intros c Hc. unfold plain_char in Hc. by destruct (quiet_char c). Qed.

Lemma foldlM_filter {A B} (f : B → A → result B) (P : A → Prop) `{∀ x, Decision (P x)}
    (l : list A) (b : B) :
  (∀ x o, x ∈ l → ¬ P x → f o x = Ok o) →
  foldlM f b l = foldlM f b (filter P l).
Proof.
  revert b. induction l as [|x l IH]; intros b Hskip; [done|].
  rewrite filter_cons. destruct (decide (P x)) as [Hx|Hx]; simpl.
  - destruct (f b x) as [b'|e]; simpl; [|done]. apply IH. intros y o Hy. apply Hskip. by right.
  - rewrite (Hskip x b) by (done || by left). simpl. apply IH.
    intros y o Hy. apply Hskip. by right.
Qed.

Section Stateful.

Context `{PyLib}.

(** The token of a plain name. *)
Lemma token_plain (n k : string) :
  is_meta n = false → plain_name n → hdr_name n = Ok k → all_chars plain_char k = true.
Proof.
  intros Hn Hplain Hk. apply hdr_name_Ok in Hk as [_ Hcase]. rewrite Hn in Hcase.
  destruct (lookups !! n) as [tok|] eqn:Hl; subst k.
  - apply lookups_spec in Hl.
    assert (Forall (fun nt : string * string => all_chars plain_char nt.2 = true)
              lookups_table) as Hall.
    { apply (bool_decide_unpack _). vm_compute. exact I. }
    by apply (proj1 (Forall_forall _ _) Hall (n, tok)).
  - simpl. by rewrite Hplain.
Qed.

(** The name that a token of the line of references stands for. *)
Lemma ref_name_hdr_name (n k : string) :
  is_meta n = false → hdr_name n = Ok k → ref_name k = Ok n.
Proof.
  intros Hn Hk. apply hdr_name_Ok in Hk as [Hne Hcase]. rewrite Hn in Hcase.
  unfold ref_name.
  destruct (lookups !! n) as [tok|] eqn:Hl; subst k.
  - pose proof (lookups_tokens _ _ Hl) as (_ & _ & _ & _ & Hbang & _ & Hne').
    destruct tok as [|c tok]; [done|]. simpl in *.
    destruct (PyStr.ascii_eqb c "!") eqn:Hc.
    { apply bool_decide_eq_true_1 in Hc as ->. done. }
    unfold getitem. by rewrite (rev_lookups_spec _ _ Hl).
  - done.
Qed.

(** What [compress] hands to [format_http1]: the line of references, if
    there is any reference, and a key for every other header. *)
Lemma encode_headers_lookup (last : option headers) (stripped hdrs : headers) :
  encode_headers last stripped = Ok hdrs →
  ∃ toks,
    Forall2 (fun name tok => hdr_name name = Ok tok)
      (filter (fun nv => is_ref last nv.1 nv.2 = true) (items stripped)).*1 toks ∧
    ∀ k w, hdrs !! k = Some w ↔
           (k = "ref" ∧ toks ≠ [] ∧ w = PyStr.join "," toks) ∨
           ∃ name value, stripped !! name = Some value ∧ hdr_name name = Ok k ∧
                         is_ref last name value = false ∧ w = field name value.
Proof.
  intros Henc. pose proof Henc as (Hin & toks & Htoks & Href)%encode_headers_Ok.
  exists toks. split; [done|].
  unfold encode_headers in Henc.
  apply bind_Ok in Henc as ([hdrs0 refs] & Hfold & Hrun).
  apply compress_fold in Hfold as (-> & Hin0 & Hout); [|apply items_NoDup].
  assert (∀ k, k ≠ "ref" → hdrs !! k = hdrs0 !! k) as Hsame.
  { intros k Hk. destruct ((filter _ (items stripped)).*1) as [|r refs]; [by simplify_eq|].
    apply bind_Ok in Hrun as (toks' & _ & [= <-]). by rewrite lookup_insert_ne. }
  intros k w. split.
  - intros Hk. destruct (decide (k = "ref")) as [->|Hne].
    + left. rewrite Href in Hk. destruct toks; [done|]. by simplify_eq.
    + right. rewrite Hsame in Hk by done.
      destruct (decide (Exists (fun nv : string * string => hdr_name nv.1 = Ok k)
                          (items stripped))) as [Hex|Hnex].
      * apply Exists_exists in Hex as ([n v] & Hnv & Hname). simpl in Hname.
        destruct (Hin0 n v Hnv) as (tok & Htok & Hlook).
        assert (tok = k) as -> by congruence.
        exists n, v. split; [by apply elem_of_items|]. split; [done|].
        rewrite Hk in Hlook. destruct (is_ref last n v); [done|]. split; congruence.
      * rewrite Hout in Hk; [done|]. intros n v Hnv Hname. apply Hnex.
        apply Exists_exists. by exists (n, v).
  - intros [(-> & Hne & ->)|(n & v & Hnv & Hname & Hr & ->)].
    + rewrite Href. by destruct toks.
    + destruct (Hin n v Hnv) as (tok & Htok & Hlook).
      assert (tok = k) as -> by congruence. by rewrite Hlook, Hr.
Qed.

(** The names that are sent as references. *)
Lemma ref_names_spec (last : option headers) (stripped : headers) (n : string) :
  n ∈ (filter (fun nv => is_ref last nv.1 nv.2 = true) (items stripped)).*1 ↔
  ∃ v, stripped !! n = Some v ∧ is_ref last n v = true.
Proof.
  rewrite list_elem_of_fmap. split.
  - intros ([n' v] & -> & [Hr Hin%elem_of_items]%list_elem_of_filter). eauto.
  - intros (v & Hv & Hr). exists (n, v). split; [done|].
    apply list_elem_of_filter. split; [done|]. by apply elem_of_items.
Qed.

Lemma ref_names_NoDup (last : option headers) (stripped : headers) :
  NoDup (filter (fun nv => is_ref last nv.1 nv.2 = true) (items stripped)).*1.
Proof.
  apply NoDup_fmap_2_strong.
  - intros [n1 v1] [n2 v2] [_ H1%elem_of_items]%list_elem_of_filter
      [_ H2%elem_of_items]%list_elem_of_filter. simpl. intros ->. congruence.
  - apply NoDup_filter. eapply NoDup_fmap_1. apply items_NoDup.
Qed.

Lemma is_ref_true (last : option headers) (n v : string) :
  is_ref last n v = true ↔
  n ∉ date_hdrs ∧ is_meta n = false ∧ ∃ m, last = Some m ∧ m !! n = Some v.
Proof.
  unfold is_ref. rewrite !andb_true_iff, !negb_true_iff, bool_decide_eq_false.
  rewrite bool_decide_eq_true. split.
  - intros [[[Hd Ht] Hm] Hv]. split_and!; [done..|].
    destruct last as [m|]; [|done]. eauto.
  - intros (Hd & Hm & m & -> & Hv). split_and!; [done| |done..].
    simpl. apply bool_decide_eq_true_2. intros ->. by rewrite lookup_empty in Hv.
Qed.

(** *** The lines of a message with references *)

(** A key and a value that [format_http1] writes as a line which
    [parse_http1] reads back. *)
Definition wire_clean (k w : string) : Prop :=
  occurs ":" k = false ∧ occurs PyStr.LF k = false ∧ PyStr.lower k = k ∧ k ≠ "host" ∧
  occurs PyStr.LF w = false.

Lemma request_wire (M hdrs : headers) :
  request_ok M →
  (∀ k, is_meta k = true → hdrs !! k = M !! k) →
  (∀ k w, hdrs !! k = Some w → is_meta k = false → wire_clean k w) →
  ∃ out parsed metas,
    format_http1 hdrs nl ":" "host" = Ok out ∧ parse_http1 out = Ok parsed ∧
    (∀ k v, parsed !! k = Some v ↔
            (k, v) ∈ metas ∨
            (is_meta k = false ∧ ∃ w, hdrs !! k = Some w ∧ v = reparse w)) ∧
    (∀ k v, (k, v) ∈ metas →
            is_meta k = true ∧
            ∃ v0, M !! k = Some v0 ∧ (k = ":version" ∨ PyStr.strip v0 = PyStr.strip v)) ∧
    (∀ n, is_Some (M !! n) → is_meta n = true → n ∈ metas.*1).
Proof.
  intros ((m & Hm & Hwm) & (p & Hp & Hwp) & (v & Hv & Hvlf & Hvne) & (s & Hs & Hsch) &
          (h & Hh & Hhok) & Hmeta & Hhdr) Hmk Hplain.
  pose proof (Hmk ":method" eq_refl) as Hm'.
  pose proof (Hmk ":path" eq_refl) as Hp'.
  pose proof (Hmk ":version" eq_refl) as Hv'.
  pose proof (Hmk ":host" eq_refl) as Hh'.
  rewrite Hm in Hm'. rewrite Hp in Hp'. rewrite Hv in Hv'. rewrite Hh in Hh'.
  assert (∀ k w, hdrs !! k = Some w → is_meta k = true → k ∉ req_avoid →
                 k = ":host" ∧ w = h) as Hmhost.
  { intros k w Hk Hn Hav. rewrite (Hmk k Hn) in Hk.
    pose proof (Hmeta k w Hk Hn) as Hin. unfold req_avoid in Hav.
    do 4 (apply elem_of_cons in Hin as [->|Hin]; [exfalso; apply Hav; set_solver|]).
    apply elem_of_cons in Hin as [->|Hin]; [|by apply elem_of_nil in Hin].
    split; [done|congruence]. }
  assert (hdrs !! "host" = None) as Hhost.
  { destruct (hdrs !! "host") as [w|] eqn:Hw; [|done].
    by destruct (Hplain "host" w Hw eq_refl) as (_ & _ & _ & ? & _). }
  assert (Forall (fun kv => occurs ":" kv.1 = false ∧ occurs PyStr.LF kv.1 = false ∧
                            PyStr.lower kv.1 = kv.1 ∧ occurs PyStr.LF kv.2 = false)
            (wire req_avoid hdrs)) as Hwire.
  { apply Forall_forall. intros [k' w] (k & Hk & Hav & ->)%elem_of_wire. simpl.
    destruct (is_meta k) eqn:Hn.
    - destruct (Hmhost k w Hk Hn Hav) as [-> ->].
      destruct Hhok as [Hlf _]. rewrite field_meta in Hlf by done.
      split_and!; done.
    - destruct (Hplain k w Hk Hn) as (Hc & Hl & Hlow & Hnh & Hw).
      unfold wire_key. rewrite bool_decide_eq_false_2 by (by intros ->). done. }
  destruct (parse_message m p v (wire req_avoid hdrs) Hwm Hwp Hvne Hvlf
              (wire_NoDup _ _ Hhost) Hwire)
    as (first & lines & f2 & Hsplit & Hws & Hf2 & Hpl).
  set (out0 := fill fst (fun kv : string * string => reparse kv.2) ∅ (wire req_avoid hdrs))
    in *.
  assert (∀ k' w', out0 !! k' = Some w' ↔
            ∃ k w, hdrs !! k = Some w ∧ k ∉ req_avoid ∧ k' = wire_key k ∧ w' = reparse w)
    as Hout0 by (intros; by apply parsed_lines_spec).
  assert (out0 !! "host" = Some (reparse h)) as Hhost0.
  { apply Hout0. exists ":host", h. split_and!; [done| |done..].
    unfold req_avoid. set_solver. }
  eexists _, (delete "host"
               (<[":host" := reparse h]>
                 (<[":version" := PyStr.strip f2]>
                   (<[":path" := p]> (<[":method" := m]> (<[":scheme" := "http"]> out0)))))),
    [(":scheme", "http"); (":method", m); (":path", p); (":version", PyStr.strip f2);
     (":host", reparse h)].
  split; [by apply format_http1_request|].
  split.
  { unfold parse_http1. rewrite Hsplit, Hws, Hpl.
    change (Ok out0 ≫= ?f) with (f out0). cbv beta. rewrite Hhost0. reflexivity. }
  split; [|split].
  - intros k w. split.
    + intros [Hk Hw]%lookup_delete_Some.
      repeat (apply lookup_insert_Some in Hw as [[<- <-]|[? Hw]]; [left; set_solver|]).
      right. apply Hout0 in Hw as (k0 & w0 & Hk0 & Hav & -> & ->).
      destruct (is_meta k0) eqn:Hmn.
      * exfalso. destruct (Hmhost k0 w0 Hk0 Hmn Hav) as [-> _]. by apply Hk.
      * assert (wire_key k0 = k0) as ->.
        { unfold wire_key. by rewrite bool_decide_eq_false_2 by (by intros ->). }
        split; [done|]. eauto.
    + intros [Hin|(Hmk0 & w0 & Hk & ->)].
      * repeat (apply elem_of_cons in Hin as [[= -> ->]|Hin];
                  [rewrite lookup_delete_ne by done;
                   rewrite ?lookup_insert_ne by done; by rewrite lookup_insert_eq|]).
        by apply elem_of_nil in Hin.
      * destruct (Hplain k w0 Hk Hmk0) as (_ & _ & _ & Hnh & _).
        rewrite lookup_delete_ne by done.
        rewrite !lookup_insert_ne by (by intros <-).
        apply Hout0. exists k, w0. split_and!; [done| | |done].
        -- unfold req_avoid. intros Hin.
           repeat (apply elem_of_cons in Hin as [->|Hin]; [done|]). by apply elem_of_nil in Hin.
        -- unfold wire_key. by rewrite bool_decide_eq_false_2 by (by intros ->).
  - intros k w Hin.
    repeat (apply elem_of_cons in Hin as [[= -> ->]|Hin]; [split; [done|]|]).
    + exists s. split; [done|]. right. by rewrite Hsch.
    + exists m. split; [done|]. by right.
    + exists p. split; [done|]. by right.
    + exists v. split; [done|]. by left.
    + exists h. split; [done|]. right. destruct Hhok as [_ Hval].
      by rewrite !compared_meta, received_meta, field_meta in Hval.
    + by apply elem_of_nil in Hin.
  - intros n [value Hn] Hmn. pose proof (Hmeta n value Hn Hmn) as Hin. set_solver.
Qed.

Lemma response_wire (M hdrs : headers) :
  response_ok M →
  (∀ k, is_meta k = true → hdrs !! k = M !! k) →
  (∀ k w, hdrs !! k = Some w → is_meta k = false → wire_clean k w) →
  ∃ out parsed metas,
    format_http1 hdrs nl ":" "host" = Ok out ∧ parse_http1 out = Ok parsed ∧
    (∀ k v, parsed !! k = Some v ↔
            (k, v) ∈ metas ∨
            (is_meta k = false ∧ ∃ w, hdrs !! k = Some w ∧ v = reparse w)) ∧
    (∀ k v, (k, v) ∈ metas →
            is_meta k = true ∧
            ∃ v0, M !! k = Some v0 ∧ (k = ":version" ∨ PyStr.strip v0 = PyStr.strip v)) ∧
    (∀ n, is_Some (M !! n) → is_meta n = true → n ∈ metas.*1).
Proof.
  intros ((v & Hv & Hwv) & (s & Hs & Hws) & (t & Ht & Htlf & Htne) & Hmeta & Hhdr) Hmk Hplain.
  pose proof (Hmk ":method" eq_refl) as Hm'.
  pose proof (Hmk ":version" eq_refl) as Hv'.
  pose proof (Hmk ":status" eq_refl) as Hs'.
  pose proof (Hmk ":status-text" eq_refl) as Ht'.
  rewrite Hv in Hv'. rewrite Hs in Hs'. rewrite Ht in Ht'.
  assert (M !! ":method" = None) as Hnm.
  { destruct (M !! ":method") as [x|] eqn:Hx; [|done].
    assert (":method" ∈ [":version"; ":status"; ":status-text"]) as Hin
      by (by apply (Hmeta ":method" x)).
    repeat (apply elem_of_cons in Hin as [?|Hin]; [done|]). by apply elem_of_nil in Hin. }
  rewrite Hnm in Hm'.
  assert (∀ k w, hdrs !! k = Some w → k ∉ res_avoid → is_meta k = false) as Hnometa.
  { intros k w Hk Hav. destruct (is_meta k) eqn:Hn; [|done].
    rewrite (Hmk k Hn) in Hk. exfalso. apply Hav. by apply (Hmeta k w). }
  assert (hdrs !! "host" = None) as Hhost.
  { destruct (hdrs !! "host") as [w|] eqn:Hw; [|done].
    by destruct (Hplain "host" w Hw eq_refl) as (_ & _ & _ & ? & _). }
  assert (∀ k, is_meta k = false → wire_key k = k) as Hwk.
  { intros k Hk. unfold wire_key. by rewrite bool_decide_eq_false_2 by (by intros ->). }
  assert (Forall (fun kv => occurs ":" kv.1 = false ∧ occurs PyStr.LF kv.1 = false ∧
                            PyStr.lower kv.1 = kv.1 ∧ occurs PyStr.LF kv.2 = false)
            (wire res_avoid hdrs)) as Hwire.
  { apply Forall_forall. intros [k' w] (k & Hk & Hav & ->)%elem_of_wire. simpl.
    pose proof (Hnometa k w Hk Hav) as Hn.
    destruct (Hplain k w Hk Hn) as (Hc & Hl & Hlow & Hnh & Hw).
    by rewrite (Hwk k Hn). }
  destruct (parse_message v s t (wire res_avoid hdrs) Hwv Hws Htne Htlf
              (wire_NoDup _ _ Hhost) Hwire)
    as (first & lines & f2 & Hsplit & Hsw & Hf2 & Hpl).
  set (out0 := fill fst (fun kv : string * string => reparse kv.2) ∅ (wire res_avoid hdrs))
    in *.
  assert (∀ k' w', out0 !! k' = Some w' ↔
            ∃ k w, hdrs !! k = Some w ∧ k ∉ res_avoid ∧ k' = wire_key k ∧ w' = reparse w)
    as Hout0 by (intros; by apply parsed_lines_spec).
  assert (out0 !! "host" = None) as Hhost0.
  { destruct (out0 !! "host") as [w|] eqn:Hw; [|done].
    apply Hout0 in Hw as (k0 & w0 & Hk0 & Hav & Hk & _).
    pose proof (Hnometa k0 w0 Hk0 Hav) as Hn. rewrite (Hwk k0 Hn) in Hk. subst k0.
    congruence. }
  eexists _, (<[":status-text" := PyStr.strip f2]>
               (<[":status" := s]> (<[":version" := v]> out0))),
    [(":status-text", PyStr.strip f2); (":status", s); (":version", v)].
  split; [by apply format_http1_response|].
  split.
  { unfold parse_http1. rewrite Hsplit, Hsw, Hpl.
    change (Ok out0 ≫= ?f) with (f out0). cbv beta. rewrite Hhost0. reflexivity. }
  split; [|split].
  - intros k w. split.
    + intros Hw.
      repeat (apply lookup_insert_Some in Hw as [[<- <-]|[? Hw]]; [left; set_solver|]).
      right. apply Hout0 in Hw as (k0 & w0 & Hk0 & Hav & -> & ->).
      pose proof (Hnometa k0 w0 Hk0 Hav) as Hn. rewrite (Hwk k0 Hn).
      split; [done|]. eauto.
    + intros [Hin|(Hmk0 & w0 & Hk & ->)].
      * repeat (apply elem_of_cons in Hin as [[= -> ->]|Hin];
                  [rewrite ?lookup_insert_ne by done; by rewrite lookup_insert_eq|]).
        by apply elem_of_nil in Hin.
      * rewrite !lookup_insert_ne by (by intros <-).
        apply Hout0. exists k, w0. split_and!; [done| |by rewrite Hwk|done].
        unfold res_avoid. intros Hin.
        repeat (apply elem_of_cons in Hin as [->|Hin]; [done|]). by apply elem_of_nil in Hin.
  - intros k w Hin.
    repeat (apply elem_of_cons in Hin as [[= -> ->]|Hin]; [split; [done|]|]).
    + exists t. split; [done|]. right. by rewrite strip_idemp, Hf2.
    + exists s. split; [done|]. by right.
    + exists v. split; [done|]. by left.
    + by apply elem_of_nil in Hin.
  - intros n [value Hn] Hmn. pose proof (Hmeta n value Hn Hmn) as Hin. set_solver.
Qed.

(** The first loop of [decompress], on a dictionary whose keys are [ref]
    and the tokens of header names. *)
Lemma decode_headers_refs (parsed : headers) :
  (∀ k, is_Some (parsed !! k) → k = "ref" ∨ ∃ n, hdr_name n = Ok k) →
  ∃ d, decode_headers parsed = Ok d ∧
    ∀ n x, d !! n = Some x ↔
           ∃ k v, parsed !! k = Some v ∧ hdr_name n = Ok k ∧ x = received n v.
Proof.
  intros Hkeys.
  set (key := fun k : string => match name_of k with Ok n => n | Raise _ => "" end).
  set (val := fun k : string => received (key k) (default "" (parsed !! k))).
  assert (∀ k n, hdr_name n = Ok k → key k = n) as Hkey.
  { intros k n Hk. unfold key. by rewrite (name_of_hdr_name _ _ Hk). }
  set (keys := filter (fun k : string => k ≠ "ref") (items parsed).*1).
  assert (∀ k, k ∈ keys ↔ k ≠ "ref" ∧ is_Some (parsed !! k)) as Hin.
  { intros k. unfold keys. rewrite list_elem_of_filter, list_elem_of_fmap. split.
    - intros [Hne ([k' v] & -> & Hkv%elem_of_items)]. eauto.
    - intros [Hne [v Hv]]. split; [done|]. exists (k, v). split; [done|].
      by apply elem_of_items. }
  assert (∀ k, k ∈ keys → ∃ n v, hdr_name n = Ok k ∧ parsed !! k = Some v) as Htok.
  { intros k [Hne [v Hv]]%Hin. destruct (Hkeys k) as [->|[n Hn]]; [by eauto|done|by eauto]. }
  exists (fill key val ∅ keys). split.
  - unfold decode_headers.
    rewrite (foldlM_filter _ (fun k : string => k ≠ "ref")).
    + apply foldlM_fill. intros k o Hk. destruct (Htok k Hk) as (n & v & Hn & Hv).
      rewrite (decompress_step_Ok _ _ n k v) by done.
      unfold val. rewrite Hv. simpl. by rewrite (Hkey _ _ Hn).
    + intros k o _ Hk. apply dec_stable in Hk as ->. done.
  - intros n x. rewrite fill_lookup_Some.
    + split.
      * intros (k & Hk & <- & <-). destruct (Htok k Hk) as (n & v & Hn & Hv).
        exists k, v. unfold val. by rewrite Hv, (Hkey _ _ Hn).
      * intros (k & v & Hkv & Hn & ->). exists k. split_and!.
        -- apply Hin. split; [by eapply hdr_name_not_ref|by eauto].
        -- by apply Hkey.
        -- unfold val. by rewrite Hkv, (Hkey _ _ Hn).
    + apply NoDup_fmap_2_strong.
      * intros k1 k2 Hk1 Hk2 Heq.
        destruct (Htok k1 Hk1) as (n1 & v1 & Hn1 & _).
        destruct (Htok k2 Hk2) as (n2 & v2 & Hn2 & _).
        rewrite (Hkey _ _ Hn1), (Hkey _ _ Hn2) in Heq. congruence.
      * apply NoDup_filter, items_NoDup.
Qed.

End Stateful.

Section Session.

Context `{PyLib}.

(** The dictionary [D] holds, for every header of [last] that can be
    referred to, a value that compares equal to the one of [last]. *)
Definition agrees (last D : headers) : Prop :=
  map_Forall (fun n v =>
    is_meta n = false → n ∉ date_hdrs →
    (fun x => PyStr.strip (compared n x)) <$> D !! n = Some (PyStr.strip (compared n v))) last.

(** The receiver can resolve every reference that the sender may make:
    the dictionary that the sender's state refers to, as the store holds
    it, agrees with the receiver's copy of its last result. *)
Definition in_sync (σ : store) (c d : DeltaProcessor) : Prop :=
  match last_c c ≫= (σ !!.) with
  | Some last => agrees last (default ∅ (last_d d))
  | None => True
  end.

Global Instance in_sync_dec (σ : store) (c d : DeltaProcessor) : Decision (in_sync σ c d).
Proof. unfold in_sync, agrees. destruct (last_c c ≫= (σ !!.)); apply _. Defined.

Lemma agrees_lookup (last D : headers) (n v : string) :
  agrees last D → last !! n = Some v → is_meta n = false → n ∉ date_hdrs →
  ∃ x, D !! n = Some x ∧ PyStr.strip (compared n x) = PyStr.strip (compared n v).
Proof.
  intros Hag Hn Hm Hd. specialize (Hag n v Hn Hm Hd). simpl in Hag.
  destruct (D !! n) as [x|]; [|done]. injection Hag as Hx. eauto.
Qed.

Lemma ref_keys (key : string → string) (names toks : list string) :
  (∀ n t, is_meta n = false → hdr_name n = Ok t → key t = n) →
  Forall2 (fun n t => hdr_name n = Ok t) names toks →
  Forall (fun n => is_meta n = false) names →
  key <$> toks = names.
Proof.
  intros Hkey. induction 1 as [|n t names toks Hnt _ IH]; [done|].
  intros [Hn Hall]%Forall_cons. rewrite fmap_cons. f_equal; [by apply Hkey|by apply IH].
Qed.

(** X19. A message after another.  Let the receiver be in step with the
    sender: for every header of the dictionary that the sender's state
    refers to which is neither metadata nor a date header, the receiver's
    copy of its last result holds a value that compares equal.  For a
    well-formed message (as for a fresh state) whose header names hold no
    white space, NUL or comma, [compress] then returns, with references
    to the headers that are unchanged, [decompress] returns on its output,
    [compare_headers] finds no difference between the stripped message
    and the decoded one, and the receiver is in step again, for the next
    message. *)
Theorem delta_round_trip (σ : store) (c d : DeltaProcessor) (l : nat) (host : string)
    (M : headers) :
  σ !! l = Some M →
  request_ok (strip_conn_headers M) ∨ response_ok (strip_conn_headers M) →
  map_Forall (fun name _ => is_meta name = false → plain_name name) (strip_conn_headers M) →
  in_sync σ c d →
  ∃ out c' σ' m d',
    compress σ c l host = Ok (out, c', σ') ∧
    decompress d out = Ok (m, d') ∧
    compare_headers (strip_conn_headers M) m
    = Ok ("", normalize_cookie (strip_conn_headers M), ∅) ∧
    in_sync σ' c' d'.
Proof.
  intros Hl Hok Hplain Hsync. set (M' := strip_conn_headers M) in *.
  set (σ' := <[l := M']> σ).
  set (last := last_c c ≫= (σ' !!.)).
  set (D := default ∅ (last_d d)).
  assert (∀ m, last = Some m → agrees m D) as Hagree.
  { intros m Hm. unfold last in Hm. unfold in_sync in Hsync.
    destruct (last_c c) as [l0|]; [|done]. simpl in Hm, Hsync.
    destruct (decide (l0 = l)) as [->|Hne].
    - unfold σ' in Hm. rewrite lookup_insert_eq in Hm. injection Hm as <-.
      rewrite Hl in Hsync. intros n v Hn. apply Hsync.
      unfold M' in Hn. rewrite strip_conn_headers_lookup in Hn. by case_bool_decide.
    - unfold σ' in Hm. rewrite lookup_insert_ne in Hm by done. by rewrite Hm in Hsync. }
  destruct (encode_headers_total last M' (ok_names M' Hok)) as [hdrs Henc].
  destruct (encode_headers_lookup last M' hdrs Henc) as (toks & Htoks & Hhdrs).
  set (names := (filter (fun nv : string * string => is_ref last nv.1 nv.2 = true)
                   (items M')).*1) in *.
  assert (∀ name value, M' !! name = Some value → is_meta name = false →
                        name_ok name ∧ value_ok name value) as Hhdr.
  { destruct Hok as [(_ & _ & _ & _ & _ & _ & Hhdr)|(_ & _ & _ & _ & Hhdr)]; exact Hhdr. }
  (* the references *)
  assert (∀ n, n ∈ names →
            is_meta n = false ∧ plain_name n ∧
            ∃ v x, M' !! n = Some v ∧ is_ref last n v = true ∧ D !! n = Some x ∧
                   PyStr.strip (compared n x) = PyStr.strip (compared n v)) as Hnames.
  { intros n (v & Hv & Hr)%ref_names_spec.
    pose proof Hr as (Hd & Hm & mlast & Hlast & Hlv)%is_ref_true.
    destruct (agrees_lookup mlast D n v (Hagree mlast Hlast) Hlv Hm Hd) as (x & Hx & Hcmp).
    split_and!; [done|by apply (Hplain n v)|]. eauto 10. }
  assert (∀ t, t ∈ toks → ∃ n, n ∈ names ∧ hdr_name n = Ok t) as Htok_name.
  { intros t [i Hi]%list_elem_of_lookup.
    destruct (Forall2_lookup_r _ _ _ _ _ Htoks Hi) as (n & Hn & Hnt).
    exists n. split; [by eapply list_elem_of_lookup_2|done]. }
  assert (Forall (fun t => all_chars plain_char t = true) toks) as Htoks_plain.
  { apply Forall_forall. intros t (n & Hn & Hnt)%Htok_name.
    destruct (Hnames n Hn) as (Hm & Hp & _). by eapply token_plain. }
  assert (∀ k, is_meta k = true → hdrs !! k = M' !! k) as Hmk.
  { intros k Hk. by eapply encode_headers_meta. }
  assert (∀ k w, hdrs !! k = Some w → is_meta k = false → wire_clean k w) as Hclean.
  { intros k w [(-> & Hne & ->)|(n & v & Hnv & Hk & Hr & ->)]%Hhdrs Hm.
    - split_and!; [done..|]. apply occurs_join; [done|].
      eapply Forall_impl; [exact Htoks_plain|]. intros t Ht.
      by apply (all_chars_occurs _ _ _ Ht).
    - rewrite (hdr_name_meta _ _ Hk) in Hm.
      destruct (Hhdr n v Hnv Hm) as [Hok' [Hlf _]].
      destruct (token_ok n k Hm Hok' Hk) as (? & ? & ? & ? & ?). by split_and!. }
  assert (∃ out parsed metas,
    format_http1 hdrs nl ":" "host" = Ok out ∧ parse_http1 out = Ok parsed ∧
    (∀ k v, parsed !! k = Some v ↔
            (k, v) ∈ metas ∨
            (is_meta k = false ∧ ∃ w, hdrs !! k = Some w ∧ v = reparse w)) ∧
    (∀ k v, (k, v) ∈ metas →
            is_meta k = true ∧
            ∃ v0, M' !! k = Some v0 ∧ (k = ":version" ∨ PyStr.strip v0 = PyStr.strip v)) ∧
    (∀ n, is_Some (M' !! n) → is_meta n = true → n ∈ metas.*1))
    as (out & parsed & metas & Hout & Hparse & Hparsed & Hmetas & Hall).
  { destruct Hok as [Hreq|Hres]; [by apply request_wire|by apply response_wire]. }
  destruct (decode_headers_refs parsed) as (d0 & Hd0 & Hlook0).
  { intros k [v [Hin|(Hmk0 & w & Hw & ->)]%Hparsed].
    - right. exists k. apply hdr_name_of_meta. by destruct (Hmetas k v Hin).
    - apply Hhdrs in Hw as [(-> & _)|(n & value & _ & Hn & _)]; [by left|right; by eauto]. }
  (* the second loop of [decompress] *)
  set (key := fun t : string => match ref_name t with Ok n => n | Raise _ => "" end).
  set (val := fun t : string => default "" (D !! key t)).
  assert (∀ n t, is_meta n = false → hdr_name n = Ok t → key t = n) as Hkey.
  { intros n t Hm Hnt. unfold key. by rewrite (ref_name_hdr_name _ _ Hm Hnt). }
  assert (key <$> toks = names) as Hkeys.
  { apply ref_keys; [done..|]. apply Forall_forall. intros n Hn. by destruct (Hnames n Hn). }
  set (m := fill key val d0 toks).
  assert (parsed !! "ref" = match toks with [] => None | _ => Some (PyStr.join "," toks) end)
    as Href.
  { destruct (parsed !! "ref") as [w|] eqn:Hw.
    - apply Hparsed in Hw as [Hin|(_ & w0 & Hw0 & ->)].
      { by destruct (Hmetas _ _ Hin). }
      apply Hhdrs in Hw0 as [(_ & Hne & ->)|(n & v & _ & Hn & _)].
      + rewrite quiet_reparse; [by destruct toks|].
        apply all_chars_join; [done|].
        eapply Forall_impl; [exact Htoks_plain|]. apply plain_quiet.
      + by apply hdr_name_not_ref in Hn.
    - destruct toks as [|t toks]; [done|]. exfalso.
      assert (parsed !! "ref" = Some (reparse (PyStr.join "," (t :: toks)))) as Hsome;
        [|congruence].
      apply Hparsed. right. split; [done|]. eexists. split; [|done].
      apply Hhdrs. left. done. }
  assert (decompress d out = Ok (m, {| last_c := last_c d; last_d := Some m |})) as Hdec.
  { unfold decompress. rewrite Hparse. simpl. rewrite Hd0. simpl. rewrite Href.
    destruct (decide (toks = [])) as [Hnil|Hne].
    - unfold m. rewrite Hnil. rewrite bool_decide_eq_false_2 by (by intros [? ?]). done.
    - assert (∃ t, t ∈ toks) as [t Ht].
      { destruct toks as [|t ts]; [done|]. exists t. left. }
      assert (match toks with [] => None | _ :: _ => Some (PyStr.join "," toks) end
              = Some (PyStr.join "," toks)) as -> by (by destruct toks).
      rewrite bool_decide_eq_true_2 by eauto.
      destruct (Htok_name t Ht) as (n & Hn & Hnt).
      destruct (Hnames n Hn) as (_ & _ & v & x & _ & _ & Hx & _).
      assert (truthy (last_d d) = true) as ->.
      { unfold D in Hx. destruct (last_d d) as [dd|]; simpl in *.
        - apply bool_decide_eq_true_2. intros ->. by rewrite lookup_empty in Hx.
        - by rewrite lookup_empty in Hx. }
      simpl. unfold getitem. rewrite Href.
      assert (match toks with [] => None | _ :: _ => Some (PyStr.join "," toks) end
              = Some (PyStr.join "," toks)) as -> by (by destruct toks).
      simpl. rewrite (split_join "," toks); [|done|].
      2:{ eapply Forall_impl; [exact Htoks_plain|]. intros t' Ht'.
          by apply (all_chars_occurs _ _ _ Ht'). }
      fold D. rewrite (foldlM_fill (ref_step D) key val toks d0); [done|].
      intros t' o Ht'. destruct (Htok_name t' Ht') as (n' & Hn' & Hnt').
      destruct (Hnames n' Hn') as (Hm' & _ & v' & x' & _ & _ & Hx' & _).
      unfold ref_step, getitem, val. rewrite (Hkey n' t' Hm' Hnt').
      rewrite (ref_name_hdr_name _ _ Hm' Hnt'). simpl. by rewrite Hx'. }
  (* what the decoded dictionary holds *)
  assert (∀ n, n ∈ names → ∃ v x, M' !! n = Some v ∧ m !! n = Some x ∧
            PyStr.strip (compared n x) = PyStr.strip (compared n v)) as Hm_ref.
  { intros n Hn. destruct (Hnames n Hn) as (Hmn & _ & v & x & Hv & _ & Hx & Hcmp).
    exists v, x. split_and!; [done| |done].
    pose proof Hn as Hn'. rewrite <- Hkeys in Hn'.
    apply list_elem_of_fmap in Hn' as (t & -> & Ht).
    unfold m. rewrite fill_lookup_in; [|rewrite Hkeys; apply ref_names_NoDup|done].
    unfold val. by rewrite Hx. }
  assert (∀ n, n ∉ names → m !! n = d0 !! n) as Hm_lit.
  { intros n Hn. unfold m. apply fill_lookup_out. by rewrite Hkeys. }
  assert (∀ n v, M' !! n = Some v →
            ∃ x, m !! n = Some x ∧
                 (n = ":version" ∨ PyStr.strip (compared n v) = PyStr.strip (compared n x)))
    as Hab.
  { intros n v Hn. destruct (is_ref last n v) eqn:Hr.
    - assert (n ∈ names) as Hin by (apply ref_names_spec; eauto).
      destruct (Hm_ref n Hin) as (v' & x & Hv' & Hx & Hcmp).
      assert (v' = v) as -> by congruence. eauto.
    - assert (n ∉ names) as Hout'.
      { intros (v' & Hv' & Hr')%ref_names_spec. congruence. }
      rewrite (Hm_lit n Hout'). destruct (is_meta n) eqn:Hm.
      + assert (n ∈ metas.*1) as Hin by (apply Hall; eauto).
        apply list_elem_of_fmap in Hin as ([k v1] & -> & Hkv). simpl in *.
        destruct (Hmetas k v1 Hkv) as (_ & v0 & Hv0 & Hcmp).
        assert (v0 = v) as -> by congruence.
        exists v1. split.
        * apply Hlook0. exists k, v1. split; [apply Hparsed; by left|].
          split; [by apply hdr_name_of_meta|]. by rewrite received_meta.
        * by rewrite !compared_meta.
      + destruct (Hhdr n v Hn Hm) as [(Hne & _) [_ Hval]].
        destruct (hdr_name_is_Some n Hne) as [k Hk].
        exists (received n (reparse (field n v))). split; [|by right].
        apply Hlook0. exists k, (reparse (field n v)). split; [|done].
        apply Hparsed. right. split; [by rewrite (hdr_name_meta _ _ Hk)|].
        eexists. split; [|done]. apply Hhdrs. right. eauto 10. }
  exists out, {| last_c := Some l; last_d := last_d c |}, σ', m,
    {| last_c := last_c d; last_d := Some m |}.
  split_and!.
  - apply compress_Ok. exists M, hdrs. split_and!; done.
  - done.
  - apply compare_headers_same; [done|].
    intros n [x Hx]. destruct (decide (n ∈ names)) as [Hin|Hout'].
    + destruct (Hm_ref n Hin) as (v & _ & Hv & _). by eauto.
    + rewrite (Hm_lit n Hout') in Hx.
      apply Hlook0 in Hx as (k & v & Hkv & Hk & _).
      apply Hparsed in Hkv as [Hkv|(Hmk0 & w & Hw & _)].
      * destruct (Hmetas k v Hkv) as (Hm & v0 & Hv0 & _).
        rewrite (meta_token _ _ Hk Hm). by eauto.
      * apply Hhdrs in Hw as [(-> & _)|(n' & v' & Hn' & Hk' & _)].
        -- by apply hdr_name_not_ref in Hk.
        -- rewrite (hdr_name_inj _ _ _ Hk Hk'). by eauto.
  - unfold in_sync. simpl. unfold σ'. rewrite lookup_insert_eq.
    intros n v Hn Hm Hd. destruct (Hab n v Hn) as (x & Hx & [->|Hcmp]); [done|].
    simpl. rewrite Hx. simpl. by rewrite Hcmp.
Qed.

End Session.

(** The second request of the demonstration, sent after the first: the
    receiver holds its copy of the first, and the cookie goes as a
    reference. *)
Definition delta_first : headers :=
  list_to_map [(":scheme", "http"); (":method", "GET"); (":path", "/");
               (":version", "HTTP/1.1"); (":host", "example.com"); ("cookie", "b=2; a=1")].

Lemma delta_first_run :
  decompress Processor_init c4_out
  = Ok (delta_first, {| last_c := None; last_d := Some delta_first |}) ∧
  compress (<[1%nat := c4_stripped]> (dicts demo_tester)) delta_state 3 "www.example.com"
  = Ok (delta_out, {| last_c := Some 3%nat; last_d := None |},
        <[3%nat := c4_stripped]> (<[1%nat := c4_stripped]> (dicts demo_tester))).
Proof. split; compute_done. Qed.

Lemma delta_round_trip_witness :
  ∃ out c' σ' m d',
    compress (<[1%nat := c4_stripped]> (dicts demo_tester)) delta_state 3 "www.example.com"
    = Ok (out, c', σ') ∧
    decompress {| last_c := None; last_d := Some delta_first |} out = Ok (m, d') ∧
    compare_headers (strip_conn_headers demo_request) m
    = Ok ("", normalize_cookie (strip_conn_headers demo_request), ∅) ∧
    in_sync σ' c' d'.
Proof.
  apply (delta_round_trip _ _ _ 3 "www.example.com" demo_request).
  - reflexivity.
  - left. exact demo_request_ok.
  - apply (bool_decide_unpack _). vm_compute. exact I.
  - apply (bool_decide_unpack _). vm_compute. exact I.
Defined.
